(** * The repository registry of the release-tracker bot (bot.py)

    A shallow embedding of the registry subsystem of [bot.py]: the identifier
    extractor ([extract_repos_from_text]), the identifier validator
    ([validate_repo_exists]), the registry store ([load_tracked],
    [save_tracked]) and the three reconciling handlers
    ([process_repo_addition], [remove_cmd], [clearall_cmd]), with the list
    handler ([list_cmd]) beside them.

    Conventions of the embedding.
    - A Python [str] is a [string]; a character is a code point below 256.
      The non Latin-1 characters of the message literals are kept as the
      bytes of their UTF-8 form.
    - A Python [set] of strings is a [gset string]; the order in which a
      [for] loop visits it is not fixed by the language and is a parameter
      ([set_iter]).
    - A Python list is a [list]; [bytes] is [list byte].
    - The network is a parameter ([Network]): what a request returns and how
      the outside world changes. Handlers run in a state and exception monad
      over the network state and the trace of what they did. *)

From Stdlib Require Import ZArith NArith Lia List Bool Ascii String.
From Stdlib.Strings Require Import Byte.
From stdpp Require Import base decidable option list gmap strings pretty.

Import ListNotations.
Local Open Scope string_scope.
Local Open Scope list_scope.

(** stdpp freezes [String.append] under [simpl]; the texts here are built by
    appending, so it is let to compute again. *)
#[global] Arguments String.append !_ _ / : simpl nomatch.

(** ** Text *)

Module Text.

(** [text.replace(old, new)] for one-character [old] and [new]. *)
Fixpoint replace (old new : ascii) (s : string) : string :=
  match s with
  | EmptyString => EmptyString
  | String c s' => String (if Ascii.eqb c old then new else c) (replace old new s')
  end.

(** [s.startswith(p)], returning what follows the prefix. *)
Fixpoint strip_prefix (p s : string) : option string :=
  match p with
  | EmptyString => Some s
  | String a p' =>
      match s with
      | String b s' => if Ascii.eqb a b then strip_prefix p' s' else None
      | EmptyString => None
      end
  end.

(** The first [n] characters of [s]. *)
Fixpoint take (n : nat) (s : string) : string :=
  match n, s with
  | S n', String c s' => String c (take n' s')
  | _, _ => EmptyString
  end.

(** [sep.join(l)]. *)
Fixpoint join (sep : string) (l : list string) : string :=
  match l with
  | [] => EmptyString
  | [x] => x
  | x :: l' => x +:+ sep +:+ join sep l'
  end.

Definition in_range (lo hi c : ascii) : bool :=
  (nat_of_ascii lo <=? nat_of_ascii c)%nat && (nat_of_ascii c <=? nat_of_ascii hi)%nat.

End Text.

(** ** Regular expressions, as [re] matches them

    A backtracking matcher in continuation-passing style for the fragment of
    Python's [re] syntax that the bot's pattern uses: literal text, a greedy
    [+] over a character class, a greedy [?], sequencing and capturing
    groups. The continuation receives what is left of the text and the
    groups captured so far; a failing continuation makes the matcher try its
    next alternative, as the [re] engine does. *)

Module Re.

Inductive regex : Type :=
| Lit (s : string)
| ClassPlus (p : ascii -> bool)
| Opt (r : regex)
| Seq (r1 r2 : regex)
| Group (r : regex).

Definition result : Type := list string * string.
Definition cont : Type := string -> list string -> option result.

(** [p+], greedy: take as many characters as possible, give back one at a
    time while the continuation fails. *)
Fixpoint plus_greedy (p : ascii -> bool) (s : string) (k : string -> option result)
  : option result :=
  match s with
  | EmptyString => None
  | String c s' =>
      if p c then
        match plus_greedy p s' k with
        | Some x => Some x
        | None => k s'
        end
      else None
  end.

(** The text consumed between [s] and its suffix [s']. *)
Definition consumed (s s' : string) : string :=
  Text.take (String.length s - String.length s') s.

Fixpoint run (r : regex) (s : string) (caps : list string) (k : cont) : option result :=
  match r with
  | Lit l =>
      match Text.strip_prefix l s with
      | Some s' => k s' caps
      | None => None
      end
  | ClassPlus p => plus_greedy p s (fun s' => k s' caps)
  | Opt r1 =>
      match run r1 s caps k with
      | Some x => Some x
      | None => k s caps
      end
  | Seq r1 r2 => run r1 s caps (fun s' caps' => run r2 s' caps' k)
  | Group r1 => run r1 s caps (fun s' caps' => k s' (caps' ++ [consumed s s']))
  end.

(** [pattern.match(s)]: the groups of the match at the start of [s] and the
    text after the match. *)
Definition match_at (r : regex) (s : string) : option result :=
  run r s [] (fun s' caps => Some (caps, s')).

(** [re.findall]: scan from the left; after a match go on where it ended
    (one character further when it was empty), else one character further.
    Every step moves at least one character forward, so [S (length s)] steps
    are enough. *)
Fixpoint findall_from (fuel : nat) (r : regex) (s : string) : list (list string) :=
  match fuel with
  | O => []
  | S fuel' =>
      match match_at r s with
      | Some (caps, s') =>
          caps :: (if (String.length s' <? String.length s)%nat
                   then findall_from fuel' r s'
                   else match s with
                        | EmptyString => []
                        | String _ t => findall_from fuel' r t
                        end)
      | None =>
          match s with
          | EmptyString => []
          | String _ t => findall_from fuel' r t
          end
      end
  end.

Definition findall (r : regex) (s : string) : list (list string) :=
  findall_from (S (String.length s)) r s.

End Re.

(** ** The identifier extractor *)

(** [[A-Za-z0-9_.-]] *)
Definition name_char (c : ascii) : bool :=
  Text.in_range "A" "Z" c || Text.in_range "a" "z" c || Text.in_range "0" "9" c
  || Ascii.eqb c "_" || Ascii.eqb c "." || Ascii.eqb c "-".

(** [(?:https?://github\.com/)?([A-Za-z0-9_.-]+)/([A-Za-z0-9_.-]+)] *)
Definition pattern : Re.regex :=
  Re.Seq (Re.Opt (Re.Seq (Re.Lit "http")
                    (Re.Seq (Re.Opt (Re.Lit "s")) (Re.Lit "://github.com/"))))
    (Re.Seq (Re.Group (Re.ClassPlus name_char))
       (Re.Seq (Re.Lit "/") (Re.Group (Re.ClassPlus name_char)))).

(** [f"{u}/{r}"] for a tuple [(u, r)] of [found]; the pattern has two
    groups, so every tuple has two components. *)
Definition format_pair (caps : list string) : list string :=
  match caps with
  | [u; r] => [u +:+ "/" +:+ r]
  | _ => []
  end.

Definition extract_repos_from_text (text : string) : gset string :=
  let text := Text.replace "010" " " (Text.replace "," " " text) in
  let found := Re.findall pattern text in
  list_to_set (concat (map format_pair found)).

(** *** What the pattern matches, said directly

    The definitions below restate the match of [pattern] without the
    matcher; [match_at_pattern] proves them equal to it. *)

(** The longest prefix of [s] whose characters satisfy [p], and the rest. *)
Fixpoint span (p : ascii -> bool) (s : string) : string * string :=
  match s with
  | EmptyString => (EmptyString, EmptyString)
  | String c s' =>
      if p c then let '(u, r) := span p s' in (String c u, r)
      else (EmptyString, s)
  end.

Fixpoint all_chars (p : ascii -> bool) (s : string) : bool :=
  match s with
  | EmptyString => true
  | String c s' => p c && all_chars p s'
  end.

Definition nonempty (s : string) : bool :=
  match s with
  | EmptyString => false
  | String _ _ => true
  end.

(** A non-empty run of name characters: an owner or a repository name. *)
Definition token (s : string) : bool := nonempty s && all_chars name_char s.

(** [s] is empty or starts with a character that is no name character. *)
Definition ends_token (s : string) : bool :=
  match s with
  | EmptyString => true
  | String c _ => negb (name_char c)
  end.

(** [([A-Za-z0-9_.-]+)/([A-Za-z0-9_.-]+)] at the start of [s]. *)
Definition match_pair (s : string) : option Re.result :=
  match span name_char s with
  | (String _ _ as u, String c s2) =>
      if Ascii.eqb c "/" then
        match span name_char s2 with
        | (String _ _ as r, s3) => Some ([u; r], s3)
        | _ => None
        end
      else None
  | _ => None
  end.

(** The two groups and the slash between them. *)
Definition pair_re : Re.regex :=
  Re.Seq (Re.Group (Re.ClassPlus name_char))
    (Re.Seq (Re.Lit "/") (Re.Group (Re.ClassPlus name_char))).

(** The pair after [prefix] when [s] starts with it and a pair follows. *)
Definition match_after (prefix s : string) : option Re.result :=
  match Text.strip_prefix prefix s with
  | Some s' => match_pair s'
  | None => None
  end.

Definition match_here (s : string) : option Re.result :=
  match match_after "https://github.com/" s with
  | Some x => Some x
  | None =>
      match match_after "http://github.com/" s with
      | Some x => Some x
      | None => match_pair s
      end
  end.

(** A canonical identifier: [owner/name] with two tokens. *)
Definition is_identifier (x : string) : bool :=
  match span name_char x with
  | (String _ _, String c r) => Ascii.eqb c "/" && token r
  | _ => false
  end.

(** The two steps of [extract_repos_from_text]: the text with its commas and
    newlines made spaces, and the identifiers found in a text. *)
Definition normalize (text : string) : string :=
  Text.replace "010" " " (Text.replace "," " " text).

Definition identifiers_in (text : string) : list string :=
  concat (map format_pair (Re.findall pattern text)).

(** The forms in which a message may give an identifier. *)
Inductive form : Type := Bare | HttpUrl | HttpsUrl.

Definition url_prefix (f : form) : string :=
  match f with
  | Bare => EmptyString
  | HttpUrl => "http://github.com/"
  | HttpsUrl => "https://github.com/"
  end.

Definition render (f : form) (x : string) : string := url_prefix f +:+ x.

Definition render_all (l : list (form * string)) : list string :=
  map (fun fx => render (fst fx) (snd fx)) l.

(** Neither a comma nor a newline. *)
Definition plain (c : ascii) : bool :=
  negb (Ascii.eqb c ",") && negb (Ascii.eqb c "010").

(** The two texts of the specification's separator example. *)
Definition sample_separated : string :=
  "a/b, c/d" +:+ String "010" "e/f".
Definition sample_spaced : string := "a/b c/d e/f".

(** ** JSON, as Python's [json] module writes and reads it

    [dumps] follows [json.dumps(obj, indent=2)] (the encoder of
    [json/encoder.py] with [ensure_ascii] on, item separator [","] and key
    separator [": "]); [loads] follows [json.loads] (the scanner of
    [json/decoder.py] and [json/scanner.py], strict mode). The embedding has
    integers but no floats, and characters below 256: [loads] returns [None]
    where Python raises [JSONDecodeError], and also for a document that holds
    a float or a [\u] escape above [00ff]. *)

Module Json.

#[warnings="-register-all"]

Inductive value : Type :=
| Null
| Bool (b : bool)
| Num (n : Z)
| Str (s : string)
| Arr (l : list value)
| Obj (l : list (string * value)).

(** *** Writing *)

Definition hex_digit (n : N) : ascii :=
  if (n <? 10)%N then ascii_of_N (48 + n) else ascii_of_N (87 + n).

(** ['\\u{0:04x}'.format(n)] for [n] below 256. *)
Definition escape_u (c : ascii) : string :=
  let n := N_of_ascii c in
  String "\" (String "u" (String "0" (String "0"
    (String (hex_digit (n / 16)) (String (hex_digit (n mod 16)) EmptyString))))).

(** What [ESCAPE_ASCII.sub(replace, s)] puts for one character: the entry of
    [ESCAPE_DCT], the character itself from space to tilde, a [\u] escape
    otherwise. *)
Definition escape_char (c : ascii) : string :=
  if Ascii.eqb c "\" then "\\"
  else if Ascii.eqb c "034" then String "\" (String "034" EmptyString)
  else if Ascii.eqb c "008" then "\b"
  else if Ascii.eqb c "012" then "\f"
  else if Ascii.eqb c "010" then "\n"
  else if Ascii.eqb c "013" then "\r"
  else if Ascii.eqb c "009" then "\t"
  else if Text.in_range " " "~" c then String c EmptyString
  else escape_u c.

Fixpoint escape (s : string) : string :=
  match s with
  | EmptyString => EmptyString
  | String c s' => escape_char c +:+ escape s'
  end.

(** [encode_basestring_ascii] *)
Definition encode_string (s : string) : string :=
  String "034" (escape s +:+ String "034" EmptyString).

(** ['\n' + _indent * level] with [_indent] two spaces. *)
Fixpoint spaces (n : nat) : string :=
  match n with
  | O => EmptyString
  | S n' => String " " (spaces n')
  end.

Definition newline_indent (level : nat) : string :=
  String "010" (spaces (2 * level)).

Definition encode_int (n : Z) : string := pretty n.

(** [_iterencode] with [indent=2]: [level] is [_current_indent_level]. *)
Fixpoint encode (level : nat) (v : value) : string :=
  match v with
  | Null => "null"
  | Bool true => "true"
  | Bool false => "false"
  | Num n => encode_int n
  | Str s => encode_string s
  | Arr [] => "[]"
  | Arr (x :: l) =>
      "[" +:+ newline_indent (S level) +:+ encode (S level) x
      +:+ (fix items (l : list value) : string :=
             match l with
             | [] => EmptyString
             | y :: l' => "," +:+ newline_indent (S level) +:+ encode (S level) y +:+ items l'
             end) l
      +:+ newline_indent level +:+ "]"
  | Obj [] => "{}"
  | Obj ((k, x) :: l) =>
      "{" +:+ newline_indent (S level) +:+ encode_string k +:+ ": " +:+ encode (S level) x
      +:+ (fix members (l : list (string * value)) : string :=
             match l with
             | [] => EmptyString
             | (k', y) :: l' =>
                 "," +:+ newline_indent (S level) +:+ encode_string k' +:+ ": "
                 +:+ encode (S level) y +:+ members l'
             end) l
      +:+ newline_indent level +:+ "}"
  end.

(** [json.dumps(v, indent=2)] *)
Definition dumps (v : value) : string := encode 0 v.

(** *** Reading *)

Definition is_ws (c : ascii) : bool :=
  Ascii.eqb c " " || Ascii.eqb c "009" || Ascii.eqb c "010" || Ascii.eqb c "013".

Fixpoint skip_ws (s : string) : string :=
  match s with
  | EmptyString => EmptyString
  | String c s' => if is_ws c then skip_ws s' else s
  end.

Definition hex_value (c : ascii) : option N :=
  let n := N_of_ascii c in
  if Text.in_range "0" "9" c then Some (n - 48)%N
  else if Text.in_range "a" "f" c then Some (n - 87)%N
  else if Text.in_range "A" "F" c then Some (n - 55)%N
  else None.

(** [_decode_uXXXX] *)
Definition decode_u (h1 h2 h3 h4 : ascii) : option N :=
  match hex_value h1, hex_value h2, hex_value h3, hex_value h4 with
  | Some a, Some b, Some c, Some d => Some (((a * 16 + b) * 16 + c) * 16 + d)%N
  | _, _, _, _ => None
  end.

(** The table [BACKSLASH]. *)
Definition backslash (c : ascii) : option ascii :=
  if Ascii.eqb c "034" then Some "034"%char
  else if Ascii.eqb c "\" then Some "\"%char
  else if Ascii.eqb c "/" then Some "/"%char
  else if Ascii.eqb c "b" then Some "008"%char
  else if Ascii.eqb c "f" then Some "012"%char
  else if Ascii.eqb c "n" then Some "010"%char
  else if Ascii.eqb c "r" then Some "013"%char
  else if Ascii.eqb c "t" then Some "009"%char
  else None.

(** [py_scanstring] in strict mode, from the character after the opening
    quote: the string read and the text after its closing quote. *)
Fixpoint scanstring (s : string) : option (string * string) :=
  match s with
  | EmptyString => None
  | String c s' =>
      if Ascii.eqb c "034" then Some (EmptyString, s')
      else if Ascii.eqb c "\" then
        match s' with
        | EmptyString => None
        | String e s'' =>
            if Ascii.eqb e "u" then
              match s'' with
              | String h1 (String h2 (String h3 (String h4 s3))) =>
                  match decode_u h1 h2 h3 h4 with
                  | Some n =>
                      if (n <? 256)%N then
                        match scanstring s3 with
                        | Some (r, rest) => Some (String (ascii_of_N n) r, rest)
                        | None => None
                        end
                      else None
                  | None => None
                  end
              | _ => None
              end
            else
              match backslash e with
              | Some ch =>
                  match scanstring s'' with
                  | Some (r, rest) => Some (String ch r, rest)
                  | None => None
                  end
              | None => None
              end
        end
      else if (N_of_ascii c <? 32)%N then None
      else
        match scanstring s' with
        | Some (r, rest) => Some (String c r, rest)
        | None => None
        end
  end.

Definition is_digit (c : ascii) : bool := Text.in_range "0" "9" c.

(** The digits at the start of [s], as a number continuing [acc]. *)
Fixpoint scan_digits (acc : N) (s : string) : N * string :=
  match s with
  | EmptyString => (acc, s)
  | String c s' =>
      if is_digit c then scan_digits (acc * 10 + (N_of_ascii c - 48))%N s'
      else (acc, s)
  end.

(** What may not follow an integer: a fraction or an exponent would make it
    a float. *)
Definition starts_float_tail (s : string) : bool :=
  match s with
  | String c _ => Ascii.eqb c "." || Ascii.eqb c "e" || Ascii.eqb c "E"
  | EmptyString => false
  end.

(** The integer part of [NUMBER_RE], a zero or a digit from 1 to 9 followed
    by digits, from its first digit. *)
Definition scan_nat (s : string) : option (N * string) :=
  match s with
  | String c s' =>
      if Ascii.eqb c "0" then
        if starts_float_tail s' then None else Some (0%N, s')
      else if is_digit c then
        let '(n, rest) := scan_digits (N_of_ascii c - 48)%N s' in
        if starts_float_tail rest then None else Some (n, rest)
      else None
  | EmptyString => None
  end.

(** [scan_once], [JSONArray] and [JSONObject]; [fuel] bounds the depth of
    the calls. *)
Fixpoint scan_once (fuel : nat) (s : string) : option (value * string) :=
  match fuel with
  | O => None
  | S fuel' =>
      match s with
      | EmptyString => None
      | String c s' =>
          if Ascii.eqb c "034" then
            match scanstring s' with
            | Some (str, rest) => Some (Str str, rest)
            | None => None
            end
          else if Ascii.eqb c "{" then
            let s1 := skip_ws s' in
            match s1 with
            | String c1 s2 =>
                if Ascii.eqb c1 "}" then Some (Obj [], s2)
                else if Ascii.eqb c1 "034" then
                  match scan_members fuel' s2 with
                  | Some (l, rest) => Some (Obj l, rest)
                  | None => None
                  end
                else None
            | EmptyString => None
            end
          else if Ascii.eqb c "[" then
            let s1 := skip_ws s' in
            match s1 with
            | String c1 s2 =>
                if Ascii.eqb c1 "]" then Some (Arr [], s2)
                else
                  match scan_items fuel' s1 with
                  | Some (l, rest) => Some (Arr l, rest)
                  | None => None
                  end
            | EmptyString => None
            end
          else if Ascii.eqb c "n" then
            match Text.strip_prefix "ull" s' with
            | Some rest => Some (Null, rest)
            | None => None
            end
          else if Ascii.eqb c "t" then
            match Text.strip_prefix "rue" s' with
            | Some rest => Some (Bool true, rest)
            | None => None
            end
          else if Ascii.eqb c "f" then
            match Text.strip_prefix "alse" s' with
            | Some rest => Some (Bool false, rest)
            | None => None
            end
          else if Ascii.eqb c "-" then
            match scan_nat s' with
            | Some (n, rest) => Some (Num (- Z.of_N n), rest)
            | None => None
            end
          else
            match scan_nat s with
            | Some (n, rest) => Some (Num (Z.of_N n), rest)
            | None => None
            end
      end
  end

(** The items of an array from the first character of an item to the text
    after the closing bracket. *)
with scan_items (fuel : nat) (s : string) : option (list value * string) :=
  match fuel with
  | O => None
  | S fuel' =>
      match scan_once fuel' s with
      | Some (v, rest) =>
          match skip_ws rest with
          | String c s1 =>
              if Ascii.eqb c "]" then Some ([v], s1)
              else if Ascii.eqb c "," then
                match scan_items fuel' (skip_ws s1) with
                | Some (l, rest') => Some (v :: l, rest')
                | None => None
                end
              else None
          | EmptyString => None
          end
      | None => None
      end
  end

(** The members of an object from the character after the opening quote of
    a key to the text after the closing brace. *)
with scan_members (fuel : nat) (s : string) : option (list (string * value) * string) :=
  match fuel with
  | O => None
  | S fuel' =>
      match scanstring s with
      | Some (key, rest) =>
          match skip_ws rest with
          | String c s1 =>
              if Ascii.eqb c ":" then
                match scan_once fuel' (skip_ws s1) with
                | Some (v, rest1) =>
                    match skip_ws rest1 with
                    | String c2 s2 =>
                        if Ascii.eqb c2 "}" then Some ([(key, v)], s2)
                        else if Ascii.eqb c2 "," then
                          match skip_ws s2 with
                          | String c3 s3 =>
                              if Ascii.eqb c3 "034" then
                                match scan_members fuel' s3 with
                                | Some (l, rest') => Some ((key, v) :: l, rest')
                                | None => None
                                end
                              else None
                          | EmptyString => None
                          end
                        else None
                    | EmptyString => None
                    end
                | None => None
                end
              else None
          | EmptyString => None
          end
      | None => None
      end
  end.

(** [json.loads(s)]: one value, blanks around it, nothing else. *)
Definition loads (s : string) : option value :=
  match scan_once (S (String.length s)) (skip_ws s) with
  | Some (v, rest) =>
      match skip_ws rest with
      | EmptyString => Some v
      | String _ _ => None
      end
  | None => None
  end.

(** [d[key]] on the dict that [loads] built from the members [l]: of two
    members with one key the later one stays. *)
Fixpoint lookup (key : string) (l : list (string * value)) : option value :=
  match l with
  | [] => None
  | (k, v) :: l' =>
      match lookup key l' with
      | Some v' => Some v'
      | None => if String.eqb k key then Some v else None
      end
  end.

(** A list of strings as a JSON array, and back. *)
Definition of_strings (l : list string) : value := Arr (map Str l).

Fixpoint to_strings (l : list value) : option (list string) :=
  match l with
  | [] => Some []
  | Str s :: l' =>
      match to_strings l' with
      | Some r => Some (s :: r)
      | None => None
      end
  | _ :: _ => None
  end.

End Json.

(** *** The text of the registry document

    The text that [dumps] writes for a registry, built from the end: each
    piece takes the text [k] that follows it. [new_data_text] proves it
    equal to [new_data]. *)

Definition quoted (s : string) (k : string) : string :=
  String "034" (Json.escape s +:+ String "034" k).

Definition indented (level : nat) (k : string) : string :=
  String "010" (Json.spaces (2 * level) +:+ k).

Fixpoint more_items (l : list string) (k : string) : string :=
  match l with
  | [] => k
  | y :: l' => String "," (indented 2 (quoted y (more_items l' k)))
  end.

Definition array_text (l : list string) (k : string) : string :=
  match l with
  | [] => String "[" (String "]" k)
  | x :: l' => String "[" (indented 2 (quoted x (more_items l' (indented 1 (String "]" k)))))
  end.

Definition document_text (l : list string) : string :=
  String "{" (indented 1 (quoted "repos" (String ":" (String " "
    (array_text l (indented 0 (String "}" EmptyString))))))).

(** ** Bytes: UTF-8 and Base64 *)

Module Codec.

Definition byte_of_N (n : N) : byte := byte_of_ascii (ascii_of_N n).
Definition N_of_byte (b : byte) : N := N_of_ascii (ascii_of_byte b).

(** *** [str.encode()] and [bytes.decode()] (UTF-8, strict)

    Code points below 128 are one byte, the others (below 256 here) are two.
    [utf8_decode] returns [None] where Python raises [UnicodeDecodeError],
    and also for a well-formed sequence of a code point above 255. *)

Fixpoint utf8_encode (s : string) : list byte :=
  match s with
  | EmptyString => []
  | String c s' =>
      let n := N_of_ascii c in
      if (n <? 128)%N then byte_of_N n :: utf8_encode s'
      else byte_of_N (N.lor 192 (N.shiftr n 6))
           :: byte_of_N (N.lor 128 (N.land n 63)) :: utf8_encode s'
  end.

Fixpoint utf8_decode (l : list byte) : option string :=
  match l with
  | [] => Some EmptyString
  | b :: l' =>
      let n := N_of_byte b in
      if (n <? 128)%N then
        match utf8_decode l' with
        | Some s => Some (String (ascii_of_N n) s)
        | None => None
        end
      else if (n =? 194)%N || (n =? 195)%N then
        match l' with
        | b2 :: l'' =>
            let m := N_of_byte b2 in
            if (128 <=? m)%N && (m <? 192)%N then
              match utf8_decode l'' with
              | Some s =>
                  Some (String (ascii_of_N (N.lor (N.shiftl (N.land n 31) 6) (N.land m 63))) s)
              | None => None
              end
            else None
        | [] => None
        end
      else None
  end.

(** *** [base64.b64encode]

    The standard alphabet, three bytes to four characters, [=] padding, no
    line breaks ([binascii.b2a_base64] with [newline=False]). *)

Definition alphabet : string :=
  "ABCDEFGHIJKLMNOPQRSTUVWXYZabcdefghijklmnopqrstuvwxyz0123456789+/".

(** [table_b2a_base64[n]] *)
Definition table_b2a (n : N) : ascii :=
  match String.get (N.to_nat n) alphabet with
  | Some c => c
  | None => "="%char
  end.

(** The four digits of three bytes [a], [b], [c]. *)
Definition sextet0 (a : N) : N := N.shiftr a 2.
Definition sextet1 (a b : N) : N := N.lor (N.shiftl (N.land a 3) 4) (N.shiftr b 4).
Definition sextet2 (b c : N) : N := N.lor (N.shiftl (N.land b 15) 2) (N.shiftr c 6).
Definition sextet3 (c : N) : N := N.land c 63.

(** A last group of one or two bytes is filled with zero bits and padded. *)
Fixpoint b64encode (l : list byte) : string :=
  match l with
  | [] => EmptyString
  | [a] =>
      let a := N_of_byte a in
      String (table_b2a (sextet0 a)) (String (table_b2a (sextet1 a 0)) "==")
  | [a; b] =>
      let a := N_of_byte a in
      let b := N_of_byte b in
      String (table_b2a (sextet0 a))
        (String (table_b2a (sextet1 a b)) (String (table_b2a (sextet2 b 0)) "="))
  | a :: b :: c :: l' =>
      let a := N_of_byte a in
      let b := N_of_byte b in
      let c := N_of_byte c in
      String (table_b2a (sextet0 a))
        (String (table_b2a (sextet1 a b))
           (String (table_b2a (sextet2 b c))
              (String (table_b2a (sextet3 c)) (b64encode l'))))
  end.

(** *** [base64.b64decode]

    [b64decode(s)] for a [str]: the text must be ASCII, then
    [binascii.a2b_base64] in its default, non-strict mode: characters
    outside the alphabet are skipped, a [=] ends the data once it completes a
    group of four, and other [=] are skipped. [None] stands for the
    [ValueError] and [binascii.Error] that Python raises. *)

(** [table_a2b_base64[c]], [None] for the entries that are not digits. *)
Definition table_a2b (c : ascii) : option N :=
  let n := N_of_ascii c in
  if Text.in_range "A" "Z" c then Some (n - 65)%N
  else if Text.in_range "a" "z" c then Some (n - 71)%N
  else if Text.in_range "0" "9" c then Some (n + 4)%N
  else if Ascii.eqb c "+" then Some 62%N
  else if Ascii.eqb c "/" then Some 63%N
  else None.

Definition emit (b : N) (r : option (list byte)) : option (list byte) :=
  match r with
  | Some l => Some (byte_of_N b :: l)
  | None => None
  end.

(** The loop of [binascii_a2b_base64_impl]: [quad_pos] is the position in
    the group of four, [leftchar] the bits not yet written, [pads] the [=]
    seen since the last digit. *)
Fixpoint a2b_loop (s : string) (quad_pos : nat) (leftchar : N) (pads : nat)
  : option (list byte) :=
  match s with
  | EmptyString => if (quad_pos =? 0)%nat then Some [] else None
  | String c s' =>
      if Ascii.eqb c "=" then
        if (2 <=? quad_pos)%nat then
          if (4 <=? quad_pos + S pads)%nat then Some []
          else a2b_loop s' quad_pos leftchar (S pads)
        else a2b_loop s' quad_pos leftchar pads
      else
        match table_a2b c with
        | None => a2b_loop s' quad_pos leftchar pads
        | Some this_ch =>
            match quad_pos with
            | 0%nat => a2b_loop s' 1 this_ch 0
            | 1%nat =>
                emit (N.lor (N.shiftl leftchar 2) (N.shiftr this_ch 4))
                  (a2b_loop s' 2 (N.land this_ch 15) 0)
            | 2%nat =>
                emit (N.lor (N.shiftl leftchar 4) (N.shiftr this_ch 2))
                  (a2b_loop s' 3 (N.land this_ch 3) 0)
            | _ =>
                emit (N.lor (N.shiftl leftchar 6) this_ch)
                  (a2b_loop s' 0 0 0)
            end
        end
  end.

Fixpoint is_ascii (s : string) : bool :=
  match s with
  | EmptyString => true
  | String c s' => (N_of_ascii c <? 128)%N && is_ascii s'
  end.

Definition b64decode (s : string) : option (list byte) :=
  if is_ascii s then a2b_loop s 0 0 0 else None.

End Codec.

(** *** Checks over all bytes

    The facts of bit arithmetic that the Base64 round trip rests on are
    checked on every byte, or pair of bytes, by computation. *)

Definition all_bytes : list byte :=
  map (fun n => Codec.byte_of_N (N.of_nat n)) (seq 0 256).

(** [n] is a digit: the two tables agree on it, and its character is not
    the padding. *)
Definition digit_ok (n : N) : bool :=
  match Codec.table_a2b (Codec.table_b2a n) with
  | Some m => (m =? n)%N
  | None => false
  end
  && negb (Ascii.eqb (Codec.table_b2a n) "=").

(** The first two digits of a group give back its first byte. *)
Definition check_ab (a b : byte) : bool :=
  let x := Codec.N_of_byte a in
  let y := Codec.N_of_byte b in
  digit_ok (Codec.sextet0 x) && digit_ok (Codec.sextet1 x y)
  && Ascii.eqb
       (ascii_of_N (N.lor (N.shiftl (Codec.sextet0 x) 2) (N.shiftr (Codec.sextet1 x y) 4)))
       (ascii_of_byte a)
  && (N.land (Codec.sextet1 x y) 15 =? N.shiftr y 4)%N.

(** The last two digits of a group give back its second and third byte. *)
Definition check_bc (b c : byte) : bool :=
  let y := Codec.N_of_byte b in
  let z := Codec.N_of_byte c in
  digit_ok (Codec.sextet2 y z) && digit_ok (Codec.sextet3 z)
  && Ascii.eqb
       (ascii_of_N (N.lor (N.shiftl (N.shiftr y 4) 4) (N.shiftr (Codec.sextet2 y z) 2)))
       (ascii_of_byte b)
  && Ascii.eqb
       (ascii_of_N (N.lor (N.shiftl (N.land (Codec.sextet2 y z) 3) 6) (Codec.sextet3 z)))
       (ascii_of_byte c).

(** ** The network, as [requests] shows it *)

Module Http.

Inductive method : Type := GET | PUT.

Record request : Type := Request {
  rq_method : method;
  rq_url : string;
  rq_headers : list (string * string);
  rq_json : option Json.value
}.

(** A response: [r.status_code], [r.reason] and what [r.json()] returns
    ([None] when the body is not JSON). *)
Record response : Type := Response {
  status_code : Z;
  reason : string;
  body : option Json.value
}.

(** What a call of [requests.get] or [requests.put] comes back with: a
    response, or an exception of the transport with its message. *)
Inductive answer : Type :=
| Answered (r : response)
| Failed (msg : string).

(** The outside world: its states and what it does with a request. *)
Record Network : Type := {
  net_state : Type;
  net_send : request -> net_state -> answer * net_state
}.

(** [r.ok]: [raise_for_status] would not raise. *)
Definition ok (r : response) : bool :=
  negb ((400 <=? status_code r)%Z && (status_code r <? 600)%Z).

End Http.

(** ** Exceptions and the monad of the handlers *)

Inductive exn : Type :=
| RequestException (msg : string)
| HTTPError (msg : string)
| KeyError (key : string)
| TypeError (msg : string)
| AttributeError (msg : string)
| ValueError (msg : string)
| Unsupported (msg : string).

(** [str(e)] *)
Definition exn_str (e : exn) : string :=
  match e with
  | RequestException msg | HTTPError msg | TypeError msg | AttributeError msg
  | ValueError msg | Unsupported msg => msg
  | KeyError key => "'" +:+ key +:+ "'"
  end.

(** What a handler did, in order: the requests it sent and the messages it
    replied with ([update.message.reply_text]). *)
Inductive event : Type :=
| Sent (rq : Http.request)
| Replied (msg : string).

Inductive outcome (A : Type) : Type :=
| Returns (a : A)
| Raises (e : exn).
Arguments Returns {A} a.
Arguments Raises {A} e.

Record world (net : Http.Network) : Type := World {
  w_net : Http.net_state net;
  w_trace : list event
}.
Arguments World {net} w_net w_trace.
Arguments w_net {net} w.
Arguments w_trace {net} w.

Definition M (net : Http.Network) (A : Type) : Type :=
  world net -> outcome A * world net.

Definition ret {net : Http.Network} {A : Type} (a : A) : M net A :=
  fun w => (Returns a, w).

Definition bind {net : Http.Network} {A B : Type} (m : M net A) (k : A -> M net B) : M net B :=
  fun w =>
    match m w with
    | (Returns a, w') => k a w'
    | (Raises e, w') => (Raises e, w')
    end.

Definition raise {net : Http.Network} {A : Type} (e : exn) : M net A :=
  fun w => (Raises e, w).

(** [try: m except Exception as e: h(e)]: what [m] did before it raised
    stays done. *)
Definition try_except {net : Http.Network} {A : Type} (m : M net A) (h : exn -> M net A)
  : M net A :=
  fun w =>
    match m w with
    | (Returns a, w') => (Returns a, w')
    | (Raises e, w') => h e w'
    end.

#[global] Instance M_ret (net : Http.Network) : MRet (M net) := @ret net.
#[global] Instance M_bind (net : Http.Network) : MBind (M net) :=
  fun A B k m => bind m k.

(** [requests.get(url, ...)] and [requests.put(url, ..., json=payload)]. *)
Definition send {net : Http.Network} (rq : Http.request) : M net Http.response :=
  fun w =>
    let '(a, st) := Http.net_send net rq (w_net w) in
    let w' := World st (w_trace w ++ [Sent rq]) in
    match a with
    | Http.Answered r => (Returns r, w')
    | Http.Failed msg => (Raises (RequestException msg), w')
    end.

Definition requests_get {net : Http.Network} (url : string) (headers : list (string * string))
  : M net Http.response :=
  send (Http.Request Http.GET url headers None).

Definition requests_put {net : Http.Network} (url : string) (headers : list (string * string))
    (payload : Json.value) : M net Http.response :=
  send (Http.Request Http.PUT url headers (Some payload)).

(** [r.raise_for_status()] for the response [r] of a request to [url]. *)
Definition raise_for_status {net : Http.Network} (url : string) (r : Http.response) : M net unit :=
  let status := Http.status_code r in
  if (400 <=? status)%Z && (status <? 500)%Z then
    raise (HTTPError (pretty status +:+ " Client Error: " +:+ Http.reason r
                      +:+ " for url: " +:+ url))
  else if (500 <=? status)%Z && (status <? 600)%Z then
    raise (HTTPError (pretty status +:+ " Server Error: " +:+ Http.reason r
                      +:+ " for url: " +:+ url))
  else ret tt.

(** [r.json()] *)
Definition response_json {net : Http.Network} (r : Http.response) : M net Json.value :=
  match Http.body r with
  | Some v => ret v
  | None => raise (ValueError "Expecting value")
  end.

(** [v[key]] for a string [key]. *)
Definition getitem {net : Http.Network} (v : Json.value) (key : string) : M net Json.value :=
  match v with
  | Json.Obj l =>
      match Json.lookup key l with
      | Some x => ret x
      | None => raise (KeyError key)
      end
  | _ => raise (TypeError "not subscriptable by a string")
  end.

(** [update.message.reply_text(msg)] *)
Definition reply_text {net : Http.Network} (msg : string) : M net unit :=
  fun w => (Returns tt, World (w_net w) (w_trace w ++ [Replied msg])).

(** The order in which a [for] loop visits a set: some enumeration of its
    elements. *)
Record set_iter : Type := {
  iter :> gset string -> list string;
  iter_perm : forall X : gset string, iter X ≡ₚ elements X
}.

(** ** Configuration, registry store and validator *)

(** The values the bot reads from its environment when it starts. *)
Record config : Type := {
  BOT_TOKEN : string;
  GITHUB_OWNER : string;
  GITHUB_REPO : string;
  GITHUB_TOKEN : string;
  ADMIN_ID : Z
}.

Definition DATA_PATH : string := "data/tracked.json".

Definition github_headers (cfg : config) : list (string * string) :=
  [("Authorization", "token " +:+ GITHUB_TOKEN cfg)].

Definition github_file_url (cfg : config) : string :=
  "https://api.github.com/repos/" +:+ GITHUB_OWNER cfg +:+ "/" +:+ GITHUB_REPO cfg
  +:+ "/contents/" +:+ DATA_PATH.

(** [b64decode(c + '===').decode()] followed by [json.loads]: the document
    behind the [content] member [c] of the store's answer. *)
Definition decode_document {net : Http.Network} (c : Json.value) : M net Json.value :=
  match c with
  | Json.Str c =>
      match Codec.b64decode (c +:+ "===") with
      | Some bytes =>
          match Codec.utf8_decode bytes with
          | Some text =>
              match Json.loads text with
              | Some data => mret data
              | None => raise (ValueError "Expecting value")
              end
          | None => raise (ValueError "invalid start byte")
          end
      | None => raise (ValueError "Incorrect padding")
      end
  | _ => raise (TypeError "unsupported operand type(s) for +")
  end.

(** [data.get("repos", [])]. The registry is a list of strings in this
    embedding: a document whose [repos] member is anything else is outside
    it ([Unsupported]). *)
Definition get_repos {net : Http.Network} (data : Json.value) : M net (list string) :=
  match data with
  | Json.Obj l =>
      match Json.lookup "repos" l with
      | None => mret []
      | Some (Json.Arr items) =>
          match Json.to_strings items with
          | Some repos => mret repos
          | None => raise (Unsupported "repos is not a list of strings")
          end
      | Some _ => raise (Unsupported "repos is not a list of strings")
      end
  | _ => raise (AttributeError "object has no attribute 'get'")
  end.

(** [load_tracked]: the registry and its version token ([Json.Null] is
    Python's [None]). *)
Definition load_tracked {net : Http.Network} (cfg : config)
  : M net (list string * Json.value) :=
  let url := github_file_url cfg in
  r ← requests_get url (github_headers cfg);
  if (Http.status_code r =? 404)%Z then mret ([], Json.Null)
  else
    raise_for_status url r;;
    content ← response_json r;
    c ← getitem content "content";
    data ← decode_document c;
    sha ← getitem content "sha";
    repos ← get_repos data;
    mret (repos, sha).

(** The payload of a write: [new_data] under [content], the expected
    version under [sha]. *)
Definition new_data (repos : list string) : string :=
  Json.dumps (Json.Obj [("repos", Json.of_strings repos)]).

Definition payload (repos : list string) (sha : Json.value) : Json.value :=
  Json.Obj [("message", Json.Str "Bot update tracked repos");
            ("content", Json.Str (Codec.b64encode (Codec.utf8_encode (new_data repos))));
            ("sha", sha)].

(** [save_tracked] *)
Definition save_tracked {net : Http.Network} (cfg : config)
    (repos : list string) (sha : Json.value) : M net Json.value :=
  let url := github_file_url cfg in
  r ← requests_put url (github_headers cfg) (payload repos sha);
  raise_for_status url r;;
  j ← response_json r;
  c ← getitem j "content";
  getitem c "sha".

(** [validate_repo_exists] *)
Definition validate_repo_exists {net : Http.Network} (repo : string) : M net bool :=
  let url := "https://api.github.com/repos/" +:+ repo in
  r ← requests_get url [];
  mret (Http.ok r).

(** The requests of the three calls. *)
Definition store_read (cfg : config) : Http.request :=
  Http.Request Http.GET (github_file_url cfg) (github_headers cfg) None.

Definition store_write (cfg : config) (repos : list string) (sha : Json.value) : Http.request :=
  Http.Request Http.PUT (github_file_url cfg) (github_headers cfg) (Some (payload repos sha)).

Definition lookup_request (repo : string) : Http.request :=
  Http.Request Http.GET ("https://api.github.com/repos/" +:+ repo) [] None.

(** The registry that a document's [content] member decodes to, where it
    decodes to one: Base64, UTF-8, JSON, and the [repos] member (no such
    member is the empty registry). *)
Definition registry_of_members (l : list (string * Json.value)) : option (list string) :=
  match Json.lookup "repos" l with
  | None => Some []
  | Some (Json.Arr items) => Json.to_strings items
  | Some _ => None
  end.

Definition registry_of_content (c : string) : option (list string) :=
  match Codec.b64decode (c +:+ "===") with
  | Some bytes =>
      match Codec.utf8_decode bytes with
      | Some text =>
          match Json.loads text with
          | Some (Json.Obj l) => registry_of_members l
          | _ => None
          end
      | None => None
      end
  | None => None
  end.

(** The world after one more request, answered with the state [st]. *)
Definition after {net : Http.Network} (w : world net) (rq : Http.request)
    (st : Http.net_state net) : world net :=
  World st (w_trace w ++ [Sent rq]).

(** An HTTP failure, as [raise_for_status] sees it. *)
Definition http_failure (status : Z) : bool := (400 <=? status)%Z && (status <? 600)%Z.

(** A computation that leaves the world as it is. *)
Definition quiet {net : Http.Network} {A : Type} (m : M net A) : Prop :=
  forall w, snd (m w) = w.

(** A computation that only adds to the trace. *)
Definition grows {net : Http.Network} {A : Type} (m : M net A) : Prop :=
  forall w, exists evs, w_trace (snd (m w)) = w_trace w ++ evs.

(** ** The handlers *)

Definition MSG_ADD_USAGE : string := "Usage: /add <repo(s) or links>".
Definition MSG_REMOVE_USAGE : string := "Usage: /remove <repo or link>".
Definition MSG_NONE_FOR_REMOVAL : string :=
  "No valid repositories recognized for removal. Please check the format (username/repo or link).".
Definition MSG_NONE_FOUND : string :=
  "❗ No valid repositories found. Please use the format username/repo or paste a full GitHub repo link.".
Definition MSG_TOO_MANY : string :=
  "⚠️ Too many repos in one message (max 20 at a time). Please send in smaller batches.".
Definition MSG_NOT_ADMIN : string := "❌ Only admin can clear all repos!".
Definition MSG_CLEARED : string := "☑️ All repos cleared.".

Definition NL : string := String "010" EmptyString.

(** [if l: msg += title + "\n".join(l)] *)
Definition section (title : string) (l : list string) : string :=
  match l with
  | [] => EmptyString
  | _ :: _ => title +:+ Text.join NL l
  end.

(** [msg or default] *)
Definition or_default (msg default : string) : string :=
  match msg with
  | EmptyString => default
  | String _ _ => msg
  end.

(** The four lists of the add loop. *)
Record add_state : Type := AddState {
  a_repos : list string;
  a_added : list string;
  a_skipped : list string;
  a_failed : list string
}.

(** [skipped.append(repo)] *)
Definition skip (repo : string) (st : add_state) : add_state :=
  AddState (a_repos st) (a_added st) (a_skipped st ++ [repo]) (a_failed st).

(** [repos.append(repo); added.append(repo)] *)
Definition accept (repo : string) (st : add_state) : add_state :=
  AddState (a_repos st ++ [repo]) (a_added st ++ [repo]) (a_skipped st) (a_failed st).

(** [failed.append(entry)] *)
Definition fail (entry : string) (st : add_state) : add_state :=
  AddState (a_repos st) (a_added st) (a_skipped st) (a_failed st ++ [entry]).

(** [f"{repo} (error: {str(e)})"] *)
Definition error_entry (repo : string) (e : exn) : string :=
  repo +:+ " (error: " +:+ exn_str e +:+ ")".

(** The body of the [for] loop of [process_repo_addition], for one [repo]. *)
Definition add_step {net : Http.Network} (repo : string) (st : add_state) : M net add_state :=
  if bool_decide (repo ∈ a_repos st) then mret (skip repo st)
  else
    try_except
      (exists_ ← validate_repo_exists repo;
       if (exists_ : bool) then mret (accept repo st) else mret (fail repo st))
      (fun e => mret (fail (error_entry repo e) st)).

Fixpoint add_loop {net : Http.Network} (repos_to_check : list string) (st : add_state)
  : M net add_state :=
  match repos_to_check with
  | [] => mret st
  | repo :: rest => st' ← add_step repo st; add_loop rest st'
  end.

Definition add_message (st : add_state) : string :=
  or_default
    (section ("✅ Added:" +:+ NL) (a_added st)
     +:+ section (NL +:+ "⏭ Already tracking:" +:+ NL) (a_skipped st)
     +:+ section (NL +:+ "❌ Invalid or inaccessible:" +:+ NL) (a_failed st))
    "No new repositories added.".

(** [process_repo_addition(update, text)] *)
Definition process_repo_addition {net : Http.Network} (cfg : config) (it : set_iter)
    (text : string) : M net unit :=
  let repos_to_check := extract_repos_from_text text in
  if bool_decide (repos_to_check = ∅) then reply_text MSG_NONE_FOUND
  else if (20 <? size repos_to_check)%nat then reply_text MSG_TOO_MANY
  else
    '(repos, sha) ← load_tracked cfg;
    st ← add_loop (it repos_to_check) (AddState repos [] [] []);
    (match a_added st with
     | [] => mret tt
     | _ :: _ => save_tracked cfg (a_repos st) sha;; mret tt
     end);;
    reply_text (add_message st).

(** [add_cmd]: [args] is [context.args]. *)
Definition add_cmd {net : Http.Network} (cfg : config) (it : set_iter) (args : list string)
  : M net unit :=
  match args with
  | [] => reply_text MSG_ADD_USAGE
  | _ :: _ => process_repo_addition cfg it (Text.join " " args)
  end.

(** [any_message]: [text] is [update.message.text]. *)
Definition any_message {net : Http.Network} (cfg : config) (it : set_iter) (text : string)
  : M net unit :=
  match Text.strip_prefix "/" text with
  | Some _ => mret tt
  | None => process_repo_addition cfg it text
  end.

(** [repos.remove(repo)]: the first occurrence goes. *)
Fixpoint list_remove (repo : string) (repos : list string) : list string :=
  match repos with
  | [] => []
  | x :: l => if bool_decide (x = repo) then l else x :: list_remove repo l
  end.

(** The three lists of the remove loop. *)
Record remove_state : Type := RemoveState {
  r_repos : list string;
  r_removed : list string;
  r_not_found : list string
}.

Definition remove_step (repo : string) (st : remove_state) : remove_state :=
  if bool_decide (repo ∈ r_repos st) then
    RemoveState (list_remove repo (r_repos st)) (r_removed st ++ [repo]) (r_not_found st)
  else
    RemoveState (r_repos st) (r_removed st) (r_not_found st ++ [repo]).

Fixpoint remove_loop (repos_to_remove : list string) (st : remove_state) : remove_state :=
  match repos_to_remove with
  | [] => st
  | repo :: rest => remove_loop rest (remove_step repo st)
  end.

Definition remove_message (st : remove_state) : string :=
  or_default
    (section ("❌ Removed:" +:+ NL) (r_removed st)
     +:+ section (NL +:+ "ℹ️ Not tracked:" +:+ NL) (r_not_found st))
    "Nothing to remove.".

(** [remove_cmd]: [args] is [context.args]. *)
Definition remove_cmd {net : Http.Network} (cfg : config) (it : set_iter) (args : list string)
  : M net unit :=
  match args with
  | [] => reply_text MSG_REMOVE_USAGE
  | _ :: _ =>
      let repos_to_remove := extract_repos_from_text (Text.join " " args) in
      if bool_decide (repos_to_remove = ∅) then reply_text MSG_NONE_FOR_REMOVAL
      else
        '(repos, sha) ← load_tracked cfg;
        let st := remove_loop (it repos_to_remove) (RemoveState repos [] []) in
        (match r_removed st with
         | [] => mret tt
         | _ :: _ => save_tracked cfg (r_repos st) sha;; mret tt
         end);;
        reply_text (remove_message st)
  end.

(** [clearall_cmd]: [user_id] is [update.effective_user.id]. *)
Definition clearall_cmd {net : Http.Network} (cfg : config) (user_id : Z) : M net unit :=
  if bool_decide (user_id ≠ ADMIN_ID cfg) then reply_text MSG_NOT_ADMIN
  else
    '(_, sha) ← load_tracked cfg;
    save_tracked cfg [] sha;;
    reply_text MSG_CLEARED.

(** ** The list handler *)

Definition MSG_NONE_TRACKED : string := "No repositories currently tracked.".

(** [update.message.reply_text(msg, parse_mode="Markdown")]: the trace keeps
    the text of a reply, not the way the client is asked to render it. *)
Definition reply_markdown {net : Http.Network} (msg : string) : M net unit :=
  reply_text msg.

(** [f"- `{r}`"] *)
Definition list_line (r : string) : string := "- `" +:+ r +:+ "`".

Definition list_message (repos : list string) : string :=
  "📋 Tracked repos:" +:+ NL +:+ Text.join NL (map list_line repos).

(** [list_cmd] *)
Definition list_cmd {net : Http.Network} (cfg : config) : M net unit :=
  '(repos, _) ← load_tracked cfg;
  match repos with
  | [] => reply_text MSG_NONE_TRACKED
  | _ :: _ => reply_markdown (list_message repos)
  end.

(** ** Measures used in the statements *)

(** The number of slashes of a text. *)
Fixpoint slashes (s : string) : nat :=
  match s with
  | EmptyString => 0
  | String c s' => (if Ascii.eqb c "/" then 1 else 0) + slashes s'
  end.

(** A character that no match of the pattern holds: no name character, and
    neither the colon nor the slash of a URL. *)
Definition separator (c : ascii) : bool :=
  negb (name_char c) && negb (Ascii.eqb c ":") && negb (Ascii.eqb c "/").

(** ** The outside world of the tests *)

Module Fake.

(** The remote document (its Base64 content and version token), the number
    of writes so far, and an outage of the store: the answer it then gives to
    every request. *)
Record state : Type := State {
  document : option (string * string);
  writes : N;
  outage : option Http.answer
}.

Section Fake.

Context (cfg : config).
(** The token of the [n]-th write of a content. *)
Context (mint : N -> string -> string).
(** The hosting provider's answer to the lookup of a repository. *)
Context (provider : string -> Http.answer).

Definition answer_json (status : Z) (reason : string) (v : Json.value) : Http.answer :=
  Http.Answered (Http.Response status reason (Some v)).

Definition not_found : Http.answer :=
  answer_json 404 "Not Found" (Json.Obj [("message", Json.Str "Not Found")]).

Definition store_get (st : state) : Http.answer * state :=
  match document st with
  | None => (not_found, st)
  | Some (c, t) =>
      (answer_json 200 "OK" (Json.Obj [("content", Json.Str c); ("sha", Json.Str t)]), st)
  end.

(** The expected version of a write is the current one: none for no
    document, the document's token otherwise. *)
Definition is_current (expected : Json.value) (st : state) : bool :=
  match expected, document st with
  | Json.Null, None => true
  | Json.Str t, Some (_, t') => String.eqb t t'
  | _, _ => false
  end.

Definition store_put (payload : option Json.value) (st : state) : Http.answer * state :=
  match payload with
  | Some (Json.Obj l) =>
      match Json.lookup "content" l, Json.lookup "sha" l with
      | Some (Json.Str c), Some expected =>
          if is_current expected st then
            let t := mint (writes st) c in
            (answer_json 200 "OK" (Json.Obj [("content", Json.Obj [("sha", Json.Str t)])]),
             State (Some (c, t)) (writes st + 1) (outage st))
          else
            (answer_json 409 "Conflict" (Json.Obj [("message", Json.Str "Conflict")]), st)
      | _, _ =>
          (answer_json 422 "Unprocessable Entity"
             (Json.Obj [("message", Json.Str "Invalid request")]), st)
      end
  | _ =>
      (answer_json 422 "Unprocessable Entity"
         (Json.Obj [("message", Json.Str "Invalid request")]), st)
  end.

Definition send (rq : Http.request) (st : state) : Http.answer * state :=
  if String.eqb (Http.rq_url rq) (github_file_url cfg) then
    match outage st with
    | Some a => (a, st)
    | None =>
        match Http.rq_method rq with
        | Http.GET => store_get st
        | Http.PUT => store_put (Http.rq_json rq) st
        end
    end
  else
    match Http.rq_method rq, Text.strip_prefix "https://api.github.com/repos/" (Http.rq_url rq) with
    | Http.GET, Some repo => (provider repo, st)
    | _, _ => (not_found, st)
    end.

(** Modelled from the spec: the remote document store and the hosting
    provider behind the network, which are not code of the bot. The store
    keeps one document under a version token: a read answers 404 while there
    is none and the content with its token otherwise; a write is accepted
    when its expected token is the current one, gets a new token and answers
    with it, and is refused with a conflict status otherwise. The provider
    answers lookups of [/repos/{owner}/{name}]. *)
Definition network : Http.Network :=
  {| Http.net_state := state; Http.net_send := send |}.

End Fake.

(** A configuration, a token scheme and a provider to run examples on. *)
Definition cfg0 : config :=
  {| BOT_TOKEN := "bot-token"; GITHUB_OWNER := "octo"; GITHUB_REPO := "tracker";
     GITHUB_TOKEN := "gh-token"; ADMIN_ID := 123456 |}.

Definition mint0 (n : N) (content : string) : string := "v" +:+ pretty n.

Definition provider0 (repo : string) : Http.answer :=
  if String.eqb repo "octocat/Hello-World" then
    answer_json 200 "OK" (Json.Obj [("full_name", Json.Str repo)])
  else if String.eqb repo "octocat/Spoon-Knife" then
    answer_json 200 "OK" (Json.Obj [("full_name", Json.Str repo)])
  else if String.eqb repo "flaky/net" then Http.Failed "Connection aborted."
  else if String.eqb repo "cached/repo" then Http.Answered (Http.Response 304 "Not Modified" None)
  else not_found.

Definition net0 : Http.Network := network cfg0 mint0 provider0.

Definition empty_state : state := State None 0 None.

(** The state in which the document holds [repos] under the token [t]. *)
Definition state_of (repos : list string) (t : string) : state :=
  State (Some (Codec.b64encode (Codec.utf8_encode (new_data repos)), t)) 1 None.

(** The same after [n] writes. *)
Definition state_after (n : N) (repos : list string) (t : string) : state :=
  State (Some (Codec.b64encode (Codec.utf8_encode (new_data repos)), t)) n None.

Definition start (st : state) : world net0 := World (st : Http.net_state net0) [].

End Fake.

(** The order of [elements], an order a loop may take. *)
Definition iter_elements : set_iter :=
  {| iter := elements; iter_perm := fun X => reflexivity (elements X) |}.

(** Twenty-one identifiers, and the first twenty of them. *)
Definition text21 : string :=
  "a/1 a/2 a/3 a/4 a/5 a/6 a/7 a/8 a/9 a/10 a/11 a/12 a/13 a/14 a/15 a/16 a/17 a/18 a/19 a/20 a/21".
Definition text20 : string :=
  "a/1 a/2 a/3 a/4 a/5 a/6 a/7 a/8 a/9 a/10 a/11 a/12 a/13 a/14 a/15 a/16 a/17 a/18 a/19 a/20".

(** ** Views of the store of the tests *)

(** The registry and the token that a read of the store returns in the
    state [st]: nothing and no token while there is no document. *)
Definition stored (st : Fake.state) (repos : list string) (sha : Json.value) : Prop :=
  match Fake.document st with
  | None => repos = [] /\ sha = Json.Null
  | Some (c, t) => registry_of_content c = Some repos /\ sha = Json.Str t
  end.

(** The state of the store after the write of [repos] to the state [st]. *)
Definition written (mint : N -> string -> string) (st : Fake.state) (repos : list string)
  : Fake.state :=
  let content := Codec.b64encode (Codec.utf8_encode (new_data repos)) in
  Fake.State (Some (content, mint (Fake.writes st) content)) (Fake.writes st + 1)
    (Fake.outage st).

(** Whether the provider's answer to the lookup of [repo] makes the
    validator return true. *)
Definition found_at (provider : string -> Http.answer) (repo : string) : bool :=
  match provider repo with
  | Http.Answered r => Http.ok r
  | Http.Failed _ => false
  end.

(** * Properties *)

(** ** Text and spans *)

Section TextFacts.

Lemma append_assoc (a b c : string) : (a +:+ b) +:+ c = a +:+ (b +:+ c).
Proof. induction a as [|x a IH]; simpl; [reflexivity | now rewrite IH]. Qed.

Lemma append_empty_r (a : string) : a +:+ EmptyString = a.
Proof. induction a as [|x a IH]; simpl; [reflexivity | now rewrite IH]. Qed.

Lemma length_append (a b : string) :
  String.length (a +:+ b) = (String.length a + String.length b)%nat.
Proof. induction a as [|x a IH]; simpl; [reflexivity | now rewrite IH]. Qed.

Lemma strip_prefix_spec (p s t : string) :
  Text.strip_prefix p s = Some t <-> s = p +:+ t.
Proof.
  revert s. induction p as [|a p IH]; intros s; simpl.
  - split; [intros [= ->]; reflexivity | intros ->; reflexivity].
  - destruct s as [|b s]; [split; discriminate |].
    destruct (Ascii.eqb_spec a b) as [->|Hne].
    + rewrite IH. split; [intros ->; reflexivity | intros [= ->]; reflexivity].
    + split; [discriminate | intros [= <- _]; contradiction].
Qed.

Lemma strip_prefix_append (p t : string) : Text.strip_prefix p (p +:+ t) = Some t.
Proof. now apply strip_prefix_spec. Qed.

Lemma replace_append (old new : ascii) (a b : string) :
  Text.replace old new (a +:+ b) = Text.replace old new a +:+ Text.replace old new b.
Proof. induction a as [|x a IH]; simpl; [reflexivity | now rewrite IH]. Qed.

Lemma replace_idempotent (old new : ascii) (s : string) :
  old <> new -> Text.replace old new (Text.replace old new s) = Text.replace old new s.
Proof.
  intros Hne. induction s as [|c s IH]; simpl; [reflexivity |].
  rewrite IH. f_equal.
  destruct (Ascii.eqb_spec c old) as [->|Hc].
  - destruct (Ascii.eqb_spec new old); congruence.
  - destruct (Ascii.eqb_spec c old); congruence.
Qed.

Lemma replace_commute (o1 o2 new : ascii) (s : string) :
  o1 <> new -> o2 <> new ->
  Text.replace o1 new (Text.replace o2 new s) = Text.replace o2 new (Text.replace o1 new s).
Proof.
  intros H1 H2. induction s as [|c s IH]; simpl; [reflexivity |].
  rewrite IH. f_equal.
  destruct (Ascii.eqb_spec c o1), (Ascii.eqb_spec c o2); subst;
    repeat match goal with
      | |- context [Ascii.eqb ?a ?b] => destruct (Ascii.eqb_spec a b); subst
      end; congruence.
Qed.

Lemma replace_without (old new : ascii) (s : string) :
  all_chars (fun c => negb (Ascii.eqb c old)) s = true -> Text.replace old new s = s.
Proof.
  induction s as [|c s IH]; simpl; [reflexivity |].
  intros [Hc Hs]%andb_true_iff. rewrite (IH Hs).
  now destruct (Ascii.eqb c old).
Qed.

Lemma all_chars_append (p : ascii -> bool) (a b : string) :
  all_chars p (a +:+ b) = all_chars p a && all_chars p b.
Proof.
  induction a as [|x a IH]; simpl; [reflexivity |].
  now rewrite IH, andb_assoc.
Qed.

Lemma all_chars_impl (p q : ascii -> bool) (s : string) :
  (forall c, p c = true -> q c = true) -> all_chars p s = true -> all_chars q s = true.
Proof.
  intros Hpq. induction s as [|c s IH]; simpl; [reflexivity |].
  intros [Hc Hs]%andb_true_iff. now rewrite (Hpq c Hc), (IH Hs).
Qed.

(** *** [span] *)

Lemma span_append (p : ascii -> bool) (s u r : string) :
  span p s = (u, r) -> s = u +:+ r.
Proof.
  revert u r. induction s as [|c s IH]; simpl; intros u r.
  - intros [= <- <-]. reflexivity.
  - destruct (p c).
    + destruct (span p s) as [u' r'] eqn:E. intros [= <- <-].
      simpl. f_equal. now apply IH.
    + intros [= <- <-]. reflexivity.
Qed.

Lemma span_all (p : ascii -> bool) (s u r : string) :
  span p s = (u, r) -> all_chars p u = true.
Proof.
  revert u r. induction s as [|c s IH]; simpl; intros u r.
  - intros [= <- <-]. reflexivity.
  - destruct (p c) eqn:Hc.
    + destruct (span p s) as [u' r'] eqn:E. intros [= <- <-].
      simpl. rewrite Hc. simpl. now apply (IH u' r').
    + intros [= <- <-]. reflexivity.
Qed.

Lemma span_rest (p : ascii -> bool) (s u r : string) :
  span p s = (u, r) -> match r with String c _ => p c = false | EmptyString => True end.
Proof.
  revert u r. induction s as [|c s IH]; simpl; intros u r.
  - intros [= <- <-]. exact I.
  - destruct (p c) eqn:Hc.
    + destruct (span p s) as [u' r'] eqn:E. intros [= <- <-]. now apply (IH u' r').
    + intros [= <- <-]. exact Hc.
Qed.

(** A run of [p] characters followed by a text that starts with none. *)
Lemma span_run (p : ascii -> bool) (u r : string) :
  all_chars p u = true ->
  match r with String c _ => p c = false | EmptyString => True end ->
  span p (u +:+ r) = (u, r).
Proof.
  intros Hu Hr. induction u as [|c u IH]; simpl in *.
  - destruct r as [|c r]; simpl; [reflexivity | now rewrite Hr].
  - apply andb_true_iff in Hu as [Hc Hu]. now rewrite Hc, (IH Hu).
Qed.

Lemma span_all_chars (p : ascii -> bool) (s : string) :
  all_chars p s = true -> span p s = (s, EmptyString).
Proof.
  intros H. rewrite <- (append_empty_r s) at 1. now apply span_run.
Qed.

Lemma take_append (u r : string) :
  Text.take (String.length (u +:+ r) - String.length r) (u +:+ r) = u.
Proof.
  rewrite length_append.
  replace (String.length u + String.length r - String.length r)%nat
    with (String.length u) by lia.
  induction u as [|c u IH]; simpl.
  - now destruct r.
  - now rewrite IH.
Qed.

End TextFacts.

(** ** The matcher on the bot's pattern *)

Section ReFacts.

(** A greedy [p+] whose continuation fails on every text that starts with a
    [p] character can only stop at the end of the run. *)
Lemma plus_greedy_blocked (p : ascii -> bool) (k : string -> option Re.result) (s : string) :
  (forall c t, p c = true -> k (String c t) = None) ->
  Re.plus_greedy p s k =
    match span p s with
    | (String _ _, r) => k r
    | (EmptyString, _) => None
    end.
Proof.
  intros Hk. induction s as [|c s IH]; simpl; [reflexivity |].
  destruct (p c) eqn:Hc; [| reflexivity].
  rewrite IH. destruct (span p s) as [u r] eqn:E.
  destruct u as [|c' u].
  - pose proof (span_append _ _ _ _ E) as ->. simpl. reflexivity.
  - destruct (k r) eqn:Ek; [reflexivity |].
    pose proof (span_append _ _ _ _ E) as ->. simpl.
    apply Hk. pose proof (span_all _ _ _ _ E) as Hall. simpl in Hall.
    now apply andb_true_iff in Hall as [? _].
Qed.

(** A greedy [p+] whose continuation never fails stops at the end of the
    run. *)
Lemma plus_greedy_last (p : ascii -> bool) (k : string -> option Re.result) (s : string) :
  (forall t, k t <> None) ->
  Re.plus_greedy p s k =
    match span p s with
    | (String _ _, r) => k r
    | (EmptyString, _) => None
    end.
Proof.
  intros Hk. induction s as [|c s IH]; simpl; [reflexivity |].
  destruct (p c) eqn:Hc; [| reflexivity].
  rewrite IH. destruct (span p s) as [u r] eqn:E.
  destruct u as [|c' u].
  - pose proof (span_append _ _ _ _ E) as ->. simpl. reflexivity.
  - destruct (k r) eqn:Ek; [reflexivity | now apply Hk in Ek].
Qed.

Lemma consumed_span (p : ascii -> bool) (s u r : string) :
  span p s = (u, r) -> Re.consumed s r = u.
Proof.
  intros E. pose proof (span_append _ _ _ _ E) as ->. apply take_append.
Qed.

Lemma name_char_slash : name_char "/" = false.
Proof. reflexivity. Qed.

Lemma run_pair (s : string) :
  Re.run pair_re s [] (fun s' caps => Some (caps, s')) = match_pair s.
Proof.
  unfold pair_re, match_pair. cbn [Re.run app].
  rewrite plus_greedy_blocked.
  - destruct (span name_char s) as [u r] eqn:E. destruct u as [|c u]; [reflexivity |].
    destruct r as [|c1 s2]; [reflexivity |].
    cbn [Text.strip_prefix]. rewrite (Ascii.eqb_sym "/" c1).
    destruct (Ascii.eqb c1 "/"); [| reflexivity].
    rewrite plus_greedy_last by discriminate.
    destruct (span name_char s2) as [r s3] eqn:E2. destruct r as [|c2 r]; [reflexivity |].
    rewrite (consumed_span _ _ _ _ E), (consumed_span _ _ _ _ E2). reflexivity.
  - intros c t Hc. cbn [Text.strip_prefix].
    destruct (Ascii.eqb_spec "/" c) as [<-|]; [| reflexivity].
    rewrite name_char_slash in Hc. discriminate.
Qed.

Lemma strip_prefix_compose (p q s : string) :
  Text.strip_prefix (p +:+ q) s =
    match Text.strip_prefix p s with
    | Some s' => Text.strip_prefix q s'
    | None => None
    end.
Proof.
  revert s. induction p as [|a p IH]; intros s; simpl; [reflexivity |].
  destruct s as [|b s]; [reflexivity |]. destruct (Ascii.eqb a b); [apply IH | reflexivity].
Qed.

(** The matcher on [pattern] is [match_here]. *)
Lemma match_at_pattern (s : string) : Re.match_at pattern s = match_here s.
Proof.
  unfold Re.match_at, match_here, match_after.
  change pattern with
    (Re.Seq (Re.Opt (Re.Seq (Re.Lit "http")
                       (Re.Seq (Re.Opt (Re.Lit "s")) (Re.Lit "://github.com/"))))
       pair_re).
  change "https://github.com/" with ("http" +:+ "s" +:+ "://github.com/").
  change "http://github.com/" with ("http" +:+ "://github.com/").
  rewrite !strip_prefix_compose.
  cbn [Re.run].
  destruct (Text.strip_prefix "http" s) as [s1|] eqn:E1; [| apply run_pair].
  rewrite strip_prefix_compose.
  destruct (Text.strip_prefix "s" s1) as [s2|] eqn:E2.
  - destruct (Text.strip_prefix "://github.com/" s2) as [s3|] eqn:E3.
    + rewrite run_pair.
      destruct (match_pair s3); [reflexivity |].
      assert (Text.strip_prefix "://github.com/" s1 = None) as ->.
      { apply strip_prefix_spec in E2 as ->. reflexivity. }
      apply run_pair.
    + assert (Text.strip_prefix "://github.com/" s1 = None) as ->.
      { apply strip_prefix_spec in E2 as ->. reflexivity. }
      apply run_pair.
  - destruct (Text.strip_prefix "://github.com/" s1) as [s3|] eqn:E3.
    + rewrite run_pair. destruct (match_pair s3); [reflexivity | apply run_pair].
    + apply run_pair.
Qed.

(** *** What a match is and how far it reaches *)

Lemma match_pair_inv (s : string) (caps : list string) (s' : string) :
  match_pair s = Some (caps, s') ->
  exists u r, caps = [u; r] /\ token u = true /\ token r = true
              /\ s = u +:+ "/" +:+ r +:+ s' /\ ends_token s' = true.
Proof.
  unfold match_pair. destruct (span name_char s) as [u r1] eqn:E1.
  destruct u as [|c u]; [discriminate |]. destruct r1 as [|c1 s2]; [discriminate |].
  destruct (Ascii.eqb_spec c1 "/") as [->|]; [| discriminate].
  destruct (span name_char s2) as [r s3] eqn:E2. destruct r as [|c2 r]; [discriminate |].
  intros [= <- <-]. exists (String c u), (String c2 r). split; [reflexivity |].
  split; [apply (span_all _ _ _ _ E1) |]. split; [apply (span_all _ _ _ _ E2) |].
  split.
  - rewrite (span_append _ _ _ _ E1), (span_append _ _ _ _ E2). reflexivity.
  - pose proof (span_rest _ _ _ _ E2) as H. destruct s3; [reflexivity |].
    simpl. now rewrite H.
Qed.

Lemma match_pair_tokens (u r rest : string) :
  token u = true -> token r = true -> ends_token rest = true ->
  match_pair (u +:+ "/" +:+ r +:+ rest) = Some ([u; r], rest).
Proof.
  intros [Hu1 Hu2]%andb_true_iff [Hr1 Hr2]%andb_true_iff Hrest.
  unfold match_pair. rewrite (span_run name_char u) by (assumption || reflexivity).
  destruct u as [|c u]; [discriminate |]. simpl.
  rewrite (span_run name_char r).
  - destruct r; [discriminate | reflexivity].
  - assumption.
  - destruct rest as [|c' rest]; [exact I |]. simpl in Hrest. now destruct (name_char c').
Qed.

Lemma match_pair_all_names (s : string) :
  all_chars name_char s = true -> match_pair s = None.
Proof.
  intros H. unfold match_pair. rewrite (span_all_chars _ _ H). now destruct s.
Qed.

Lemma match_after_inv (p s : string) (caps : list string) (s' : string) :
  match_after p s = Some (caps, s') ->
  exists t, s = p +:+ t /\ match_pair t = Some (caps, s').
Proof.
  unfold match_after. destruct (Text.strip_prefix p s) as [t|] eqn:E; [| discriminate].
  intros H. exists t. split; [now apply strip_prefix_spec | exact H].
Qed.

(** A text whose first character outside the names is not a colon does not
    start with one of the URL prefixes. *)
Lemma match_after_none (p u r : string) (s : string) :
  span name_char p = (u, String ":" r) ->
  (forall v w, span name_char s = (v, String ":" w) -> False) ->
  match_after p s = None.
Proof.
  intros Hp Hs. unfold match_after.
  destruct (Text.strip_prefix p s) as [t|] eqn:E; [| reflexivity].
  exfalso. apply strip_prefix_spec in E as ->.
  pose proof (span_append _ _ _ _ Hp) as Ep. rewrite Ep in Hs.
  rewrite append_assoc in Hs. simpl in Hs.
  apply (Hs u (r +:+ t)). apply span_run; [apply (span_all _ _ _ _ Hp) | reflexivity].
Qed.

Lemma match_here_no_colon (s : string) :
  (forall v w, span name_char s = (v, String ":" w) -> False) ->
  match_here s = match_pair s.
Proof.
  intros Hs. unfold match_here.
  rewrite (match_after_none "https://github.com/" "https" "//github.com/" s eq_refl Hs).
  rewrite (match_after_none "http://github.com/" "http" "//github.com/" s eq_refl Hs).
  reflexivity.
Qed.

(** A match leaves less text than it was given. *)
Lemma match_here_shorter (s : string) (caps : list string) (s' : string) :
  match_here s = Some (caps, s') -> (String.length s' < String.length s)%nat.
Proof.
  assert (Hpair : forall t, match_pair t = Some (caps, s') ->
                            (String.length s' < String.length t)%nat).
  { intros t (u & r & _ & _ & _ & -> & _)%match_pair_inv.
    rewrite !length_append. simpl. lia. }
  unfold match_here.
  destruct (match_after "https://github.com/" s) as [x|] eqn:E1.
  - intros [= ->]. apply match_after_inv in E1 as (t & -> & Ht).
    apply Hpair in Ht. rewrite length_append. lia.
  - destruct (match_after "http://github.com/" s) as [x|] eqn:E2.
    + intros [= ->]. apply match_after_inv in E2 as (t & -> & Ht).
      apply Hpair in Ht. rewrite length_append. lia.
    + apply Hpair.
Qed.

Lemma match_here_tokens (s : string) (caps : list string) (s' : string) :
  match_here s = Some (caps, s') ->
  exists u r, caps = [u; r] /\ token u = true /\ token r = true.
Proof.
  assert (Hpair : forall t, match_pair t = Some (caps, s') ->
                            exists u r, caps = [u; r] /\ token u = true /\ token r = true).
  { intros t (u & r & ? & ? & ? & _)%match_pair_inv. eauto. }
  unfold match_here.
  destruct (match_after "https://github.com/" s) as [x|] eqn:E1.
  - intros [= ->]. apply match_after_inv in E1 as (t & _ & Ht). eauto.
  - destruct (match_after "http://github.com/" s) as [x|] eqn:E2.
    + intros [= ->]. apply match_after_inv in E2 as (t & _ & Ht). eauto.
    + apply Hpair.
Qed.

End ReFacts.

(** ** [re.findall] on the bot's pattern *)

Section FindallFacts.

(** More fuel than the text is long changes nothing. *)
Lemma findall_from_fuel (r : Re.regex) (f1 f2 : nat) (s : string) :
  (String.length s < f1)%nat -> (String.length s < f2)%nat ->
  Re.findall_from f1 r s = Re.findall_from f2 r s.
Proof.
  revert f2 s. induction f1 as [|f1 IH]; intros f2 s H1 H2; [lia |].
  destruct f2 as [|f2]; [lia |]. simpl.
  assert (Hnext : match s with
                  | EmptyString => []
                  | String _ t => Re.findall_from f1 r t
                  end =
                  match s with
                  | EmptyString => []
                  | String _ t => Re.findall_from f2 r t
                  end).
  { destruct s as [|c t]; [reflexivity |]. simpl in H1, H2. apply IH; lia. }
  destruct (Re.match_at r s) as [[caps s']|]; [| exact Hnext].
  f_equal. destruct (String.length s' <? String.length s)%nat eqn:E; [| exact Hnext].
  apply Nat.ltb_lt in E. apply IH; lia.
Qed.

Lemma findall_hit (s : string) (caps : list string) (s' : string) :
  match_here s = Some (caps, s') ->
  Re.findall pattern s = caps :: Re.findall pattern s'.
Proof.
  intros H. pose proof (match_here_shorter _ _ _ H) as Hlt.
  unfold Re.findall at 1. cbn [Re.findall_from]. rewrite match_at_pattern, H.
  apply Nat.ltb_lt in Hlt as Hb. rewrite Hb. f_equal.
  apply findall_from_fuel; lia.
Qed.

Lemma findall_skip (c : ascii) (t : string) :
  match_here (String c t) = None ->
  Re.findall pattern (String c t) = Re.findall pattern t.
Proof.
  intros H. unfold Re.findall at 1. cbn [Re.findall_from].
  rewrite match_at_pattern, H. apply findall_from_fuel; simpl; lia.
Qed.

Lemma findall_empty : Re.findall pattern EmptyString = [].
Proof. reflexivity. Qed.

Lemma match_here_all_names (s : string) :
  all_chars name_char s = true -> match_here s = None.
Proof.
  intros H. rewrite match_here_no_colon.
  - now apply match_pair_all_names.
  - intros v w E. rewrite (span_all_chars _ _ H) in E. discriminate.
Qed.

(** A run of name characters holds no identifier. *)
Lemma findall_names (s : string) :
  all_chars name_char s = true -> Re.findall pattern s = [].
Proof.
  induction s as [|c s IH]; [reflexivity |].
  intros H. rewrite findall_skip by now apply match_here_all_names.
  simpl in H. apply andb_true_iff in H as [_ H]. now apply IH.
Qed.

(** Every tuple that [findall] returns is a match of the pattern somewhere
    in the text. *)
Lemma findall_from_matches (f : nat) (s : string) (caps : list string) :
  In caps (Re.findall_from f pattern s) ->
  exists t s', match_here t = Some (caps, s').
Proof.
  revert s. induction f as [|f IH]; intros s; simpl; [contradiction |].
  assert (Hnext : In caps match s with
                          | EmptyString => []
                          | String _ t => Re.findall_from f pattern t
                          end -> exists t s', match_here t = Some (caps, s')).
  { destruct s as [|c t]; [contradiction | apply IH]. }
  rewrite match_at_pattern. destruct (match_here s) as [[caps' s']|] eqn:E; [| exact Hnext].
  intros [<-|H]; [eauto |].
  destruct (String.length s' <? String.length s)%nat; [now apply (IH s') | now apply Hnext].
Qed.

End FindallFacts.

(** ** Identifiers *)

Section IdentifierFacts.

Lemma is_identifier_inv (x : string) :
  is_identifier x = true ->
  exists u r, x = u +:+ "/" +:+ r /\ token u = true /\ token r = true.
Proof.
  unfold is_identifier. destruct (span name_char x) as [u r1] eqn:E.
  destruct u as [|c u]; [discriminate |]. destruct r1 as [|c1 r]; [discriminate |].
  intros [Hc Hr]%andb_true_iff. apply Ascii.eqb_eq in Hc as ->.
  exists (String c u), r. split; [apply (span_append _ _ _ _ E) |].
  split; [apply (span_all _ _ _ _ E) | exact Hr].
Qed.

Lemma is_identifier_tokens (u r : string) :
  token u = true -> token r = true -> is_identifier (u +:+ "/" +:+ r) = true.
Proof.
  intros [Hu1 Hu2]%andb_true_iff Hr. unfold is_identifier.
  rewrite (span_run name_char u) by (assumption || reflexivity).
  destruct u; [discriminate | exact Hr].
Qed.

(** An identifier, in any of its forms, followed by the end of the text or
    by a character that is no name character, is the next match. *)
Lemma match_here_render (f : form) (u r rest : string) :
  token u = true -> token r = true -> ends_token rest = true ->
  match_here (render f (u +:+ "/" +:+ r) +:+ rest) = Some ([u; r], rest).
Proof.
  intros Hu Hr Hrest.
  pose proof (match_pair_tokens u r rest Hu Hr Hrest) as Hpair.
  unfold render. rewrite !append_assoc.
  destruct f; cbn [url_prefix].
  - cbn [String.append]. rewrite match_here_no_colon; [exact Hpair |].
    intros v w. apply andb_true_iff in Hu as [_ Hu].
    rewrite (span_run name_char u) by (assumption || reflexivity). discriminate.
  - unfold match_here, match_after.
    replace (Text.strip_prefix "https://github.com/" _) with (@None string) by reflexivity.
    now rewrite strip_prefix_append, Hpair.
  - unfold match_here, match_after.
    now rewrite strip_prefix_append, Hpair.
Qed.

Lemma findall_render (f : form) (x rest : string) :
  is_identifier x = true -> ends_token rest = true ->
  exists caps, format_pair caps = [x]
               /\ Re.findall pattern (render f x +:+ rest) = caps :: Re.findall pattern rest.
Proof.
  intros (u & r & -> & Hu & Hr)%is_identifier_inv Hrest.
  exists [u; r]. split; [reflexivity |].
  apply findall_hit. now apply match_here_render.
Qed.

Lemma identifiers_in_render (f : form) (x rest : string) :
  is_identifier x = true -> ends_token rest = true ->
  identifiers_in (render f x +:+ rest) = x :: identifiers_in rest.
Proof.
  intros Hx Hrest. unfold identifiers_in.
  destruct (findall_render f x rest Hx Hrest) as (caps & Hcaps & ->).
  simpl. now rewrite Hcaps.
Qed.

Lemma identifiers_in_space (t : string) :
  identifiers_in (String " " t) = identifiers_in t.
Proof. unfold identifiers_in. now rewrite findall_skip. Qed.

(** Identifiers in any forms, separated by spaces: each is found, in order. *)
Lemma identifiers_in_join (l : list (form * string)) :
  Forall (fun fx => is_identifier (snd fx) = true) l ->
  identifiers_in (Text.join " " (render_all l)) = map snd l.
Proof.
  induction l as [|[f x] l IH]; [reflexivity |].
  intros H. inversion H as [|? ? Hx Hl]; subst. simpl in Hx.
  destruct l as [|fy l].
  - simpl. rewrite <- (append_empty_r (render f x)).
    now rewrite identifiers_in_render.
  - change (Text.join " " (render_all ((f, x) :: fy :: l)))
      with (render f x +:+ String " " (Text.join " " (render_all (fy :: l)))).
    rewrite identifiers_in_render by (assumption || reflexivity).
    rewrite identifiers_in_space, (IH Hl). reflexivity.
Qed.

(** What is found is an identifier. *)
Lemma identifiers_in_canonical (t x : string) :
  In x (identifiers_in t) -> is_identifier x = true.
Proof.
  unfold identifiers_in. rewrite in_concat.
  intros (l & Hl & Hx). apply in_map_iff in Hl as (caps & <- & Hcaps).
  apply findall_from_matches in Hcaps as (t' & s' & Hm).
  apply match_here_tokens in Hm as (u & r & -> & Hu & Hr).
  destruct Hx as [<-|[]]. now apply is_identifier_tokens.
Qed.

End IdentifierFacts.

(** ** The extractor *)

Section ExtractFacts.

Lemma extract_unfold (text : string) :
  extract_repos_from_text text = list_to_set (identifiers_in (normalize text)).
Proof. reflexivity. Qed.

Lemma normalize_idempotent (text : string) : normalize (normalize text) = normalize text.
Proof.
  unfold normalize.
  rewrite (replace_commute "," "010" " " (Text.replace "," " " text)) by discriminate.
  rewrite (replace_idempotent "," " ") by discriminate.
  now rewrite (replace_idempotent "010" " ") by discriminate.
Qed.

Lemma normalize_commas (text : string) :
  normalize (Text.replace "," " " text) = normalize text.
Proof. unfold normalize. now rewrite replace_idempotent by discriminate. Qed.

Lemma normalize_newlines (text : string) :
  normalize (Text.replace "010" " " text) = normalize text.
Proof.
  unfold normalize.
  rewrite (replace_commute "," "010" " ") by discriminate.
  now rewrite replace_idempotent by discriminate.
Qed.

Lemma normalize_plain (text : string) :
  all_chars plain text = true -> normalize text = text.
Proof.
  intros H. unfold normalize. rewrite (replace_without "," " " text).
  - apply replace_without. revert H. apply all_chars_impl.
    intros c. unfold plain. now intros [_ ?]%andb_true_iff.
  - revert H. apply all_chars_impl.
    intros c. unfold plain. now intros [? _]%andb_true_iff.
Qed.

Lemma name_char_plain (c : ascii) : name_char c = true -> plain c = true.
Proof.
  unfold plain. intros H.
  destruct (Ascii.eqb_spec c ",") as [->|_]; [discriminate |].
  destruct (Ascii.eqb_spec c "010") as [->|_]; [discriminate | reflexivity].
Qed.

Lemma token_plain (s : string) : token s = true -> all_chars plain s = true.
Proof.
  intros [_ H]%andb_true_iff. revert H. apply all_chars_impl, name_char_plain.
Qed.

Lemma identifier_plain (x : string) : is_identifier x = true -> all_chars plain x = true.
Proof.
  intros (u & r & -> & Hu & Hr)%is_identifier_inv.
  rewrite !all_chars_append, (token_plain u Hu), (token_plain r Hr). reflexivity.
Qed.

Lemma render_plain (f : form) (x : string) :
  is_identifier x = true -> all_chars plain (render f x) = true.
Proof.
  intros Hx. unfold render. rewrite all_chars_append, (identifier_plain x Hx).
  now destruct f.
Qed.

Lemma join_plain (l : list string) :
  Forall (fun s => all_chars plain s = true) l -> all_chars plain (Text.join " " l) = true.
Proof.
  induction l as [|x l IH]; [reflexivity |].
  intros H. inversion H as [|? ? Hx Hl]; subst.
  destruct l as [|y l]; [exact Hx |].
  change (Text.join " " (x :: y :: l)) with (x +:+ " " +:+ Text.join " " (y :: l)).
  rewrite !all_chars_append, Hx, (IH Hl). reflexivity.
Qed.

(** Identifiers in any forms, separated by spaces, are extracted: all of
    them and nothing else. *)
Lemma extract_join_forms (l : list (form * string)) :
  Forall (fun fx => is_identifier (snd fx) = true) l ->
  extract_repos_from_text (Text.join " " (render_all l)) = list_to_set (map snd l).
Proof.
  intros H. rewrite extract_unfold, normalize_plain.
  - now rewrite identifiers_in_join.
  - apply join_plain. unfold render_all. apply List.Forall_map.
    revert H. apply List.Forall_impl. intros [f x]. apply render_plain.
Qed.

Lemma extract_join (l : list string) :
  Forall (fun x => is_identifier x = true) l ->
  extract_repos_from_text (Text.join " " l) = list_to_set l.
Proof.
  intros H.
  pose proof (extract_join_forms (map (fun x => (Bare, x)) l)) as E.
  unfold render_all in E. rewrite !map_map in E. simpl in E. rewrite !map_id in E.
  apply E. apply List.Forall_map. exact H.
Qed.

Lemma extract_canonical (text x : string) :
  x ∈ extract_repos_from_text text -> is_identifier x = true.
Proof.
  rewrite extract_unfold, elem_of_list_to_set, list_elem_of_In.
  apply identifiers_in_canonical.
Qed.

Lemma list_to_set_iter (it : set_iter) (X : gset string) : list_to_set (it X) = X.
Proof.
  rewrite (list_to_set_perm_L _ _ (iter_perm it X)). apply list_to_set_elements_L.
Qed.

Lemma elem_of_iter (it : set_iter) (X : gset string) (x : string) : x ∈ it X <-> x ∈ X.
Proof. rewrite (iter_perm it X). apply elem_of_elements. Qed.

Lemma NoDup_iter (it : set_iter) (X : gset string) : NoDup (it X).
Proof. rewrite (iter_perm it X). apply NoDup_elements. Qed.

Lemma length_iter (it : set_iter) (X : gset string) : length (it X) = size X.
Proof. now rewrite (iter_perm it X). Qed.

End ExtractFacts.

(** C8. Extraction canonicalizes: the extractor is a function into sets of
    strings; making the commas, the newlines or both of a text spaces does
    not change what is extracted, and the two sample texts of the
    specification both give the set of a/b, c/d and e/f; the text with a/b
    twice and once as a https URL gives the set of a/b alone, and in general
    identifiers given in any forms (bare, http or https URL), any number of
    times, separated by spaces, give the set of those identifiers; extracting
    from the canonical identifiers of a set, joined by spaces in any order,
    gives that set again, in particular for a set that was extracted. *)
Theorem extract_canonicalization :
  (forall text : string,
      extract_repos_from_text (Text.replace "," " " text) = extract_repos_from_text text
      /\ extract_repos_from_text (Text.replace "010" " " text) = extract_repos_from_text text
      /\ extract_repos_from_text (normalize text) = extract_repos_from_text text)
  /\ extract_repos_from_text sample_separated = {[ "a/b"; "c/d"; "e/f" ]}
  /\ extract_repos_from_text sample_spaced = {[ "a/b"; "c/d"; "e/f" ]}
  /\ extract_repos_from_text "a/b a/b https://github.com/a/b" = {[ "a/b" ]}
  /\ (forall l : list (form * string),
        Forall (fun fx => is_identifier (snd fx) = true) l ->
        extract_repos_from_text (Text.join " " (render_all l)) = list_to_set (map snd l))
  /\ (forall l : list string,
        Forall (fun x => is_identifier x = true) l ->
        extract_repos_from_text (Text.join " " l) = list_to_set l)
  /\ (forall (it : set_iter) (text : string),
        extract_repos_from_text (Text.join " " (it (extract_repos_from_text text)))
        = extract_repos_from_text text).
Proof.
  split; [| split; [| split; [| split; [| split; [| split]]]]].
  - intros text. rewrite !extract_unfold.
    now rewrite normalize_commas, normalize_newlines, normalize_idempotent.
  - vm_compute. reflexivity.
  - vm_compute. reflexivity.
  - vm_compute. reflexivity.
  - apply extract_join_forms.
  - apply extract_join.
  - intros it text. rewrite extract_join; [apply list_to_set_iter |].
    apply List.Forall_forall. intros x Hx. apply list_elem_of_In, elem_of_iter in Hx.
    now apply extract_canonical in Hx.
Qed.

(** The identifiers octocat/Hello-World, bare and as a URL, and a/b. *)
Lemma extract_canonicalization_witness :
  extract_repos_from_text
    (Text.join " " (render_all [(Bare, "octocat/Hello-World"); (HttpsUrl, "a/b");
                                (HttpUrl, "octocat/Hello-World")]))
  = list_to_set ["octocat/Hello-World"; "a/b"; "octocat/Hello-World"].
Proof.
  apply (proj1 (proj2 (proj2 (proj2 (proj2 extract_canonicalization))))).
  repeat constructor.
Defined.

(** C10, as the code has it. For tokens [x] and [y], the text
    github.com/x/y without a scheme gives exactly the set of the identifier
    github.com/x; the identifier x/y is not in it, unless [x] and [y] are
    both the text github.com, where the two identifiers are one string. *)
Theorem extract_schemeless_url (x y : string) :
  token x = true -> token y = true ->
  extract_repos_from_text ("github.com/" +:+ x +:+ "/" +:+ y) = {[ "github.com/" +:+ x ]}
  /\ (~ (x = "github.com" /\ y = "github.com") ->
      x +:+ "/" +:+ y ∉ extract_repos_from_text ("github.com/" +:+ x +:+ "/" +:+ y)).
Proof.
  intros Hx Hy.
  assert (E : extract_repos_from_text ("github.com/" +:+ x +:+ "/" +:+ y)
              = {[ "github.com/" +:+ x ]}).
  { rewrite extract_unfold, normalize_plain.
    - change ("github.com/" +:+ x +:+ "/" +:+ y)
        with (render Bare ("github.com" +:+ "/" +:+ x) +:+ String "/" y).
      rewrite identifiers_in_render; [| now apply is_identifier_tokens | reflexivity].
      unfold identifiers_in at 1. rewrite findall_skip by reflexivity.
      rewrite findall_names by (now apply andb_true_iff in Hy as [_ ?]).
      simpl. apply (right_id_L ∅ (∪)).
    - change ("github.com/" +:+ x +:+ "/" +:+ y)
        with ("github.com/" +:+ (x +:+ "/" +:+ y)).
      rewrite !all_chars_append, (token_plain x Hx), (token_plain y Hy). reflexivity. }
  split; [exact E |].
  intros Hne. rewrite E, elem_of_singleton. intros Heq. apply Hne.
  assert (Hs : span name_char (x +:+ "/" +:+ y) = span name_char ("github.com/" +:+ x))
    by now rewrite Heq.
  apply andb_true_iff in Hx as [_ Hx].
  rewrite (span_run name_char x) in Hs by (assumption || reflexivity).
  change ("github.com/" +:+ x) with ("github.com" +:+ String "/" x) in Hs.
  rewrite (span_run name_char "github.com") in Hs by reflexivity.
  injection Hs as -> ->. split; reflexivity.
Qed.

Lemma extract_schemeless_url_witness :
  extract_repos_from_text ("github.com/" +:+ "x" +:+ "/" +:+ "y") = {[ "github.com/" +:+ "x" ]}
  /\ (~ ("x" = "github.com" /\ "y" = "github.com") ->
      "x" +:+ "/" +:+ "y" ∉ extract_repos_from_text ("github.com/" +:+ "x" +:+ "/" +:+ "y")).
Proof. apply (extract_schemeless_url "x" "y"); reflexivity. Defined.

(** C10 as stated fails where [x] and [y] are both github.com: the
    extracted set is the set of x/y. *)
Lemma extract_schemeless_url_counterexample :
  token "github.com" = true
  /\ extract_repos_from_text ("github.com/" +:+ "github.com" +:+ "/" +:+ "github.com")
     = {[ "github.com" +:+ "/" +:+ "github.com" ]}.
Proof. split; [reflexivity | vm_compute; reflexivity]. Qed.

(** ** The monad *)

Section MonadFacts.

Context {net : Http.Network}.

Lemma bind_returns {A B : Type} (m : M net A) (k : A -> M net B) (w w' : world net) (a : A) :
  m w = (Returns a, w') -> (m ≫= k) w = k a w'.
Proof. intros H. unfold mbind, M_bind, bind. now rewrite H. Qed.

Lemma bind_raises {A B : Type} (m : M net A) (k : A -> M net B) (w w' : world net) (e : exn) :
  m w = (Raises e, w') -> (m ≫= k) w = (Raises e, w').
Proof. intros H. unfold mbind, M_bind, bind. now rewrite H. Qed.

Lemma send_answered (rq : Http.request) (w : world net) (r : Http.response)
    (st : Http.net_state net) :
  Http.net_send net rq (w_net w) = (Http.Answered r, st) ->
  send rq w = (Returns r, after w rq st).
Proof. intros H. unfold send. now rewrite H. Qed.

Lemma send_failed (rq : Http.request) (w : world net) (msg : string)
    (st : Http.net_state net) :
  Http.net_send net rq (w_net w) = (Http.Failed msg, st) ->
  send rq w = (Raises (RequestException msg), after w rq st).
Proof. intros H. unfold send. now rewrite H. Qed.

Lemma raise_for_status_ok (url : string) (r : Http.response) (w : world net) :
  http_failure (Http.status_code r) = false ->
  raise_for_status url r w = (Returns tt, w).
Proof.
  unfold http_failure, raise_for_status. intros H.
  destruct ((400 <=? Http.status_code r)%Z && (Http.status_code r <? 500)%Z) eqn:E1.
  - apply andb_true_iff in E1 as [E1 E2]. rewrite E1 in H. simpl in H.
    apply Z.ltb_lt in E2. apply Z.ltb_ge in H. lia.
  - destruct ((500 <=? Http.status_code r)%Z && (Http.status_code r <? 600)%Z) eqn:E2;
      [| reflexivity].
    apply andb_true_iff in E2 as [E2 E3]. rewrite E3, andb_true_r in H.
    apply Z.leb_le in E2. apply Z.leb_gt in H. lia.
Qed.

Lemma raise_for_status_failure (url : string) (r : Http.response) (w : world net) :
  http_failure (Http.status_code r) = true ->
  exists msg, raise_for_status url r w = (Raises (HTTPError msg), w).
Proof.
  unfold http_failure, raise_for_status. intros [H1 H2]%andb_true_iff.
  rewrite H1. simpl.
  destruct (Http.status_code r <? 500)%Z eqn:E; [eauto |].
  rewrite H2, andb_true_r.
  destruct (500 <=? Http.status_code r)%Z eqn:E2; [eauto |].
  apply Z.ltb_ge in E. apply Z.leb_gt in E2. lia.
Qed.

Lemma ok_http_failure (r : Http.response) :
  Http.ok r = negb (http_failure (Http.status_code r)).
Proof. reflexivity. Qed.

End MonadFacts.

(** ** The validator *)

(** C4, as the code has it. The validator sends one lookup and returns
    whether the status of the response is outside the range 400 to 599 of
    HTTP failures: true for every 2xx status, false for every 4xx and 5xx
    status, and true as well for the other statuses (1xx, 3xx). A failure of
    the transport is raised to the caller. *)
Theorem validate_repo_exists_status (net : Http.Network) (repo : string) (w : world net) :
  (forall r st,
      Http.net_send net (lookup_request repo) (w_net w) = (Http.Answered r, st) ->
      validate_repo_exists repo w
      = (Returns (negb (http_failure (Http.status_code r))), after w (lookup_request repo) st)
      /\ ((200 <= Http.status_code r < 300)%Z ->
          validate_repo_exists repo w = (Returns true, after w (lookup_request repo) st))
      /\ ((400 <= Http.status_code r < 600)%Z ->
          validate_repo_exists repo w = (Returns false, after w (lookup_request repo) st))
      /\ ((Http.status_code r < 400)%Z \/ (600 <= Http.status_code r)%Z ->
          validate_repo_exists repo w = (Returns true, after w (lookup_request repo) st)))
  /\ (forall msg st,
        Http.net_send net (lookup_request repo) (w_net w) = (Http.Failed msg, st) ->
        validate_repo_exists repo w
        = (Raises (RequestException msg), after w (lookup_request repo) st)).
Proof.
  split.
  - intros r st H.
    assert (E : validate_repo_exists repo w
                = (Returns (negb (http_failure (Http.status_code r))),
                   after w (lookup_request repo) st)).
    { unfold validate_repo_exists, requests_get.
      erewrite bind_returns by (apply send_answered, H). reflexivity. }
    split; [exact E |]. rewrite E. unfold http_failure.
    repeat split; intros Hs; do 2 f_equal.
    + destruct (400 <=? Http.status_code r)%Z eqn:E1; [| reflexivity].
      apply Z.leb_le in E1. lia.
    + destruct Hs as [H1 H2]. apply Z.leb_le in H1. apply Z.ltb_lt in H2.
      now rewrite H1, H2.
    + destruct (400 <=? Http.status_code r)%Z eqn:E1; [| reflexivity].
      destruct (Http.status_code r <? 600)%Z eqn:E2; [| reflexivity].
      apply Z.leb_le in E1. apply Z.ltb_lt in E2. lia.
  - intros msg st H. unfold validate_repo_exists, requests_get.
    erewrite bind_raises by (apply send_failed, H). reflexivity.
Qed.

(** A lookup that the provider answers with 200. *)
Lemma validate_repo_exists_status_witness :
  validate_repo_exists "octocat/Hello-World" (Fake.start Fake.empty_state)
  = (Returns true,
     after (Fake.start Fake.empty_state) (lookup_request "octocat/Hello-World")
       Fake.empty_state).
Proof.
  refine (proj1 (proj2 (proj1 (validate_repo_exists_status Fake.net0 "octocat/Hello-World"
                                 (Fake.start Fake.empty_state)) _ _ _)) _).
  - reflexivity.
  - simpl. lia.
Defined.

(** C4 as stated fails on a status that is neither 2xx nor a failure: the
    provider of the tests answers the lookup of cached/repo with 304, and the
    validator returns true. *)
Lemma validate_repo_exists_counterexample :
  Fake.provider0 "cached/repo" = Http.Answered (Http.Response 304 "Not Modified" None)
  /\ fst (validate_repo_exists "cached/repo" (Fake.start Fake.empty_state)) = Returns true.
Proof. split; reflexivity. Qed.

(** ** Reading the registry *)

Section LoadFacts.

Context {net : Http.Network}.

Lemma decode_document_registry (c : string) (repos : list string) (w : world net) :
  registry_of_content c = Some repos ->
  exists data,
    decode_document (Json.Str c) w = (Returns data, w)
    /\ forall w' : world net, get_repos data w' = (Returns repos, w').
Proof.
  unfold registry_of_content, decode_document.
  destruct (Codec.b64decode (c +:+ "===")) as [bytes|]; [| discriminate].
  destruct (Codec.utf8_decode bytes) as [text|]; [| discriminate].
  destruct (Json.loads text) as [[| | | | |l]|]; try discriminate.
  intros H. exists (Json.Obj l). split; [reflexivity |].
  intros w'. unfold get_repos. unfold registry_of_members in H.
  destruct (Json.lookup "repos" l) as [[| | | |items|]|]; try discriminate.
  - now rewrite H.
  - now injection H as <-.
Qed.

Lemma getitem_member (l : list (string * Json.value)) (key : string) (v : Json.value)
    (w : world net) :
  Json.lookup key l = Some v -> getitem (Json.Obj l) key w = (Returns v, w).
Proof. intros H. unfold getitem. now rewrite H. Qed.

End LoadFacts.

(** C6. [load_tracked] sends one request, the read of the document, and
    nothing more. Answered with status 404 it returns the empty list and the
    null token. Answered with a status that is no failure and a body whose
    content member decodes (Base64, UTF-8, JSON, repos member) to a list of
    identifiers, it returns that list and the sha member of the body.
    Answered with any other failure status (400 to 599) it raises the HTTP
    error, and a failure of the transport is raised as it is: in both cases
    after that one request, with no second attempt. *)
Theorem load_tracked_cases (net : Http.Network) (cfg : config) (w : world net) :
  (forall r st,
      Http.net_send net (store_read cfg) (w_net w) = (Http.Answered r, st) ->
      Http.status_code r = 404%Z ->
      load_tracked cfg w = (Returns ([], Json.Null), after w (store_read cfg) st))
  /\ (forall r st members c sha repos,
        Http.net_send net (store_read cfg) (w_net w) = (Http.Answered r, st) ->
        http_failure (Http.status_code r) = false ->
        Http.body r = Some (Json.Obj members) ->
        Json.lookup "content" members = Some (Json.Str c) ->
        Json.lookup "sha" members = Some sha ->
        registry_of_content c = Some repos ->
        load_tracked cfg w = (Returns (repos, sha), after w (store_read cfg) st))
  /\ (forall r st,
        Http.net_send net (store_read cfg) (w_net w) = (Http.Answered r, st) ->
        http_failure (Http.status_code r) = true ->
        Http.status_code r <> 404%Z ->
        exists msg,
          load_tracked cfg w = (Raises (HTTPError msg), after w (store_read cfg) st))
  /\ (forall msg st,
        Http.net_send net (store_read cfg) (w_net w) = (Http.Failed msg, st) ->
        load_tracked cfg w = (Raises (RequestException msg), after w (store_read cfg) st)).
Proof.
  repeat split.
  - intros r st H Hs. unfold load_tracked, requests_get.
    cbv beta; erewrite bind_returns by (apply send_answered, H). now rewrite Hs.
  - intros r st members c sha repos H Hok Hbody Hc Hsha Hreg.
    unfold load_tracked, requests_get.
    cbv beta; erewrite bind_returns by (apply send_answered, H).
    destruct (Http.status_code r =? 404)%Z eqn:E.
    { apply Z.eqb_eq in E. rewrite E in Hok. discriminate. }
    cbv beta; erewrite bind_returns by (now apply raise_for_status_ok).
    cbv beta; erewrite bind_returns by (unfold response_json; rewrite Hbody; reflexivity).
    cbv beta; erewrite bind_returns by (apply getitem_member; eassumption).
    destruct (decode_document_registry c repos (after w (store_read cfg) st) Hreg)
      as (data & Hdata & Hrepos).
    cbv beta; erewrite bind_returns by exact Hdata.
    cbv beta; erewrite bind_returns by (apply getitem_member; eassumption).
    cbv beta; erewrite bind_returns by apply Hrepos.
    reflexivity.
  - intros r st H Hf Hs. unfold load_tracked, requests_get.
    cbv beta; erewrite bind_returns by (apply send_answered, H).
    apply Z.eqb_neq in Hs. rewrite Hs.
    destruct (raise_for_status_failure (github_file_url cfg) r
                (after w (store_read cfg) st) Hf) as [msg Hmsg].
    exists msg. cbv beta. erewrite bind_raises by exact Hmsg. reflexivity.
  - intros msg st H. unfold load_tracked, requests_get.
    erewrite bind_raises by (apply send_failed, H). reflexivity.
Qed.

(** A document that holds a/b under the token t1. *)
Lemma load_tracked_cases_witness :
  load_tracked Fake.cfg0 (Fake.start (Fake.state_of ["a/b"] "t1"))
  = (Returns (["a/b"], Json.Str "t1"),
     after (Fake.start (Fake.state_of ["a/b"] "t1")) (store_read Fake.cfg0)
       (Fake.state_of ["a/b"] "t1")).
Proof.
  refine (proj1 (proj2 (load_tracked_cases Fake.net0 Fake.cfg0
                          (Fake.start (Fake.state_of ["a/b"] "t1"))))
            _ _ _ _ _ _ _ _ _ _ _ _); reflexivity.
Defined.

(** ** UTF-8 and Base64 round trips *)

Section CodecFacts.

Import Codec.

Lemma byte_of_N_of_byte (b : byte) : byte_of_N (N_of_byte b) = b.
Proof.
  unfold byte_of_N, N_of_byte. now rewrite ascii_N_embedding, byte_of_ascii_of_byte.
Qed.

Lemma all_bytes_complete (b : byte) : In b all_bytes.
Proof.
  unfold all_bytes. apply in_map_iff. exists (N.to_nat (N_of_byte b)). split.
  - now rewrite N2Nat.id, byte_of_N_of_byte.
  - apply in_seq. split; [lia |].
    assert (N_of_byte b < 256)%N by apply N_ascii_bounded. lia.
Qed.

Lemma forall_bytes (f : byte -> bool) :
  forallb f all_bytes = true -> forall b, f b = true.
Proof. intros H b. eapply forallb_forall in H; [exact H | apply all_bytes_complete]. Qed.

Lemma check_ab_all (a b : byte) : check_ab a b = true.
Proof.
  revert b. revert a.
  assert (H : forallb (fun a => forallb (check_ab a) all_bytes) all_bytes = true)
    by (vm_compute; reflexivity).
  intros a. apply forall_bytes. revert a. now apply forall_bytes.
Qed.

Lemma check_bc_all (b c : byte) : check_bc b c = true.
Proof.
  revert c. revert b.
  assert (H : forallb (fun b => forallb (check_bc b) all_bytes) all_bytes = true)
    by (vm_compute; reflexivity).
  intros b. apply forall_bytes. revert b. now apply forall_bytes.
Qed.

(** *** UTF-8 *)

Lemma utf8_decode_char (c : ascii) (s : string) :
  utf8_decode (utf8_encode (String c s)) =
    match utf8_decode (utf8_encode s) with
    | Some r => Some (String c r)
    | None => None
    end.
Proof. destruct c as [[] [] [] [] [] [] [] []]; reflexivity. Qed.

Lemma utf8_roundtrip (s : string) : utf8_decode (utf8_encode s) = Some s.
Proof.
  induction s as [|c s IH]; [reflexivity |].
  now rewrite utf8_decode_char, IH.
Qed.

(** *** Base64 *)

(** What the loop does with a digit. *)
Lemma a2b_digit (n : N) (s : string) (quad_pos : nat) (leftchar : N) (pads : nat) :
  digit_ok n = true ->
  a2b_loop (String (table_b2a n) s) quad_pos leftchar pads =
    match quad_pos with
    | 0%nat => a2b_loop s 1 n 0
    | 1%nat => emit (N.lor (N.shiftl leftchar 2) (N.shiftr n 4)) (a2b_loop s 2 (N.land n 15) 0)
    | 2%nat => emit (N.lor (N.shiftl leftchar 4) (N.shiftr n 2)) (a2b_loop s 3 (N.land n 3) 0)
    | _ => emit (N.lor (N.shiftl leftchar 6) n) (a2b_loop s 0 0 0)
    end.
Proof.
  unfold digit_ok. intros [H1 H2]%andb_true_iff.
  apply negb_true_iff in H2.
  destruct (table_a2b (table_b2a n)) as [m|] eqn:E; [| discriminate].
  apply N.eqb_eq in H1 as ->.
  cbn [a2b_loop]. now rewrite H2, E.
Qed.

Lemma emit_byte (x : N) (b : byte) (r : option (list byte)) :
  Ascii.eqb (ascii_of_N x) (ascii_of_byte b) = true ->
  emit x r = match r with Some l => Some (b :: l) | None => None end.
Proof.
  intros H%Ascii.eqb_eq. unfold emit, byte_of_N.
  now rewrite H, byte_of_ascii_of_byte.
Qed.

(** The four characters of three bytes decode to them. *)
Lemma a2b_group (a b c : byte) (rest : string) :
  a2b_loop (b64encode [a; b; c] +:+ rest) 0 0 0 =
    match a2b_loop rest 0 0 0 with
    | Some l => Some (a :: b :: c :: l)
    | None => None
    end.
Proof.
  pose proof (check_ab_all a b) as Hab. pose proof (check_bc_all b c) as Hbc.
  unfold check_ab in Hab. unfold check_bc in Hbc. cbv zeta in Hab, Hbc.
  apply andb_true_iff in Hab as [[[Hd0 Hd1]%andb_true_iff Ha]%andb_true_iff Hl1].
  apply andb_true_iff in Hbc as [[[Hd2 Hd3]%andb_true_iff Hb]%andb_true_iff Hc].
  apply N.eqb_eq in Hl1.
  cbn [b64encode String.append].
  rewrite (a2b_digit _ _ _ _ _ Hd0), (a2b_digit _ _ _ _ _ Hd1),
    (a2b_digit _ _ _ _ _ Hd2), (a2b_digit _ _ _ _ _ Hd3).
  rewrite Hl1.
  rewrite (emit_byte _ _ _ Ha), (emit_byte _ _ _ Hb), (emit_byte _ _ _ Hc).
  now destruct (a2b_loop rest 0 0 0).
Qed.

(** A last group of one byte, whatever padding follows its own. *)
Lemma a2b_last1 (a : byte) (rest : string) :
  a2b_loop (b64encode [a] +:+ rest) 0 0 0 = Some [a].
Proof.
  pose proof (check_ab_all a Byte.x00) as Hab.
  unfold check_ab in Hab. cbv zeta in Hab.
  apply andb_true_iff in Hab as [[[Hd0 Hd1]%andb_true_iff Ha]%andb_true_iff _].
  cbn [b64encode String.append].
  rewrite (a2b_digit _ _ _ _ _ Hd0). 
  change (sextet1 (N_of_byte a) 0) with (sextet1 (N_of_byte a) (N_of_byte Byte.x00)).
  rewrite (a2b_digit _ _ _ _ _ Hd1), (emit_byte _ _ _ Ha).
  reflexivity.
Qed.

(** A last group of two bytes. *)
Lemma a2b_last2 (a b : byte) (rest : string) :
  a2b_loop (b64encode [a; b] +:+ rest) 0 0 0 = Some [a; b].
Proof.
  pose proof (check_ab_all a b) as Hab. pose proof (check_bc_all b Byte.x00) as Hbc.
  unfold check_ab in Hab. unfold check_bc in Hbc. cbv zeta in Hab, Hbc.
  apply andb_true_iff in Hab as [[[Hd0 Hd1]%andb_true_iff Ha]%andb_true_iff Hl1].
  apply andb_true_iff in Hbc as [[[Hd2 _]%andb_true_iff Hb]%andb_true_iff _].
  apply N.eqb_eq in Hl1.
  cbn [b64encode String.append].
  rewrite (a2b_digit _ _ _ _ _ Hd0), (a2b_digit _ _ _ _ _ Hd1).
  change (sextet2 (N_of_byte b) 0) with (sextet2 (N_of_byte b) (N_of_byte Byte.x00)).
  rewrite (a2b_digit _ _ _ _ _ Hd2), Hl1, (emit_byte _ _ _ Ha), (emit_byte _ _ _ Hb).
  reflexivity.
Qed.

(** Lists, three elements at a time. *)
Lemma list_ind3 {A : Type} (P : list A -> Prop) :
  P [] -> (forall a, P [a]) -> (forall a b, P [a; b]) ->
  (forall a b c l, P l -> P (a :: b :: c :: l)) ->
  forall l, P l.
Proof.
  intros H0 H1 H2 H3.
  assert (H : forall l, P l /\ (forall a, P (a :: l)) /\ (forall a b, P (a :: b :: l))).
  { induction l as [|x l (IH0 & IH1 & IH2)].
    - repeat split; auto.
    - repeat split; auto. }
  intros l. apply H.
Qed.

Lemma b64encode_group (a b c : byte) (l : list byte) :
  b64encode (a :: b :: c :: l) = b64encode [a; b; c] +:+ b64encode l.
Proof. reflexivity. Qed.

Lemma a2b_roundtrip (l : list byte) (pad : string) :
  a2b_loop pad 0 0 0 = Some [] ->
  a2b_loop (b64encode l +:+ pad) 0 0 0 = Some l.
Proof.
  intros Hpad. induction l as [| a | a b | a b c l IH] using list_ind3.
  - exact Hpad.
  - apply a2b_last1.
  - apply a2b_last2.
  - rewrite b64encode_group, append_assoc, a2b_group. now rewrite IH.
Qed.

Lemma table_b2a_ascii (n : N) : (N_of_ascii (table_b2a n) <? 128)%N = true.
Proof.
  unfold table_b2a. generalize (N.to_nat n). intros i.
  do 64 (destruct i as [|i]; [reflexivity |]). reflexivity.
Qed.

Lemma is_ascii_append (a b : string) : is_ascii (a +:+ b) = is_ascii a && is_ascii b.
Proof.
  induction a as [|c a IH]; [reflexivity |].
  cbn [String.append is_ascii]. now rewrite IH, andb_assoc.
Qed.

Lemma b64encode_ascii (l : list byte) : is_ascii (b64encode l) = true.
Proof.
  induction l as [| a | a b | a b c l IH] using list_ind3;
    cbn [b64encode is_ascii]; rewrite ?table_b2a_ascii, ?IH; reflexivity.
Qed.

(** Decoding what was encoded, with the three more padding characters that
    [load_tracked] appends, gives the bytes back. *)
Lemma b64_roundtrip (l : list byte) : b64decode (b64encode l +:+ "===") = Some l.
Proof.
  unfold b64decode. rewrite is_ascii_append, b64encode_ascii. simpl andb.
  apply a2b_roundtrip. reflexivity.
Qed.

End CodecFacts.

(** ** Reading back the document that was written *)

Section JsonFacts.

Import Json.

Lemma encode_string_quoted (s k : string) : encode_string s +:+ k = quoted s k.
Proof. unfold encode_string, quoted. cbn [String.append]. now rewrite append_assoc. Qed.

Lemma newline_indent_indented (level : nat) (k : string) :
  newline_indent level +:+ k = indented level k.
Proof. reflexivity. Qed.

Lemma encode_items (l : list string) (k : string) :
  (fix items (l : list value) : string :=
     match l with
     | [] => EmptyString
     | y :: l' => "," +:+ newline_indent 2 +:+ encode 2 y +:+ items l'
     end) (map Str l) +:+ k
  = more_items l k.
Proof.
  induction l as [|y l IH]; [reflexivity |].
  cbn -[String.append newline_indent indented quoted encode_string].
  rewrite !append_assoc. cbn [String.append]. f_equal.
  change (indented 2 ?x) with (newline_indent 2 +:+ x).
  f_equal. rewrite <- encode_string_quoted. f_equal. exact IH.
Qed.
Lemma new_data_text (l : list string) : new_data l = document_text l.
Proof.
  unfold new_data, dumps, document_text, of_strings.
  cbn -[String.append newline_indent indented quoted encode_string map].
  cbn [String.append]. f_equal.
  change (indented 1 ?x) with (newline_indent 1 +:+ x). f_equal.
  rewrite <- encode_string_quoted. f_equal. cbn [String.append]. do 2 f_equal.
  destruct l as [|x l]; [reflexivity |].
  cbn -[String.append newline_indent indented quoted encode_string].
  cbn [String.append]. rewrite !append_assoc. f_equal.
  change (indented 2 ?x) with (newline_indent 2 +:+ x). f_equal.
  rewrite <- encode_string_quoted. f_equal.
  apply (encode_items l (indented 1 (String "]" (indented 0 (String "}" EmptyString))))).
Qed.

(** *** Scanning *)

Lemma scanstring_char (c : ascii) (t : string) :
  scanstring (escape_char c +:+ t) =
    match scanstring t with
    | Some (r, rest) => Some (String c r, rest)
    | None => None
    end.
Proof. destruct c as [[] [] [] [] [] [] [] []]; reflexivity. Qed.

Lemma scanstring_quoted (s k : string) :
  scanstring (escape s +:+ String "034" k) = Some (s, k).
Proof.
  induction s as [|c s IH]; [reflexivity |].
  cbn [escape]. now rewrite append_assoc, scanstring_char, IH.
Qed.

Lemma skip_ws_spaces (n : nat) (k : string) : skip_ws (spaces n +:+ k) = skip_ws k.
Proof. induction n as [|n IH]; [reflexivity | exact IH]. Qed.

Lemma skip_ws_indented (level : nat) (k : string) : skip_ws (indented level k) = skip_ws k.
Proof. unfold indented. cbn [skip_ws]. apply skip_ws_spaces. Qed.

Lemma scan_once_quoted (f : nat) (s k : string) :
  scan_once (S f) (quoted s k) = Some (Str s, k).
Proof. unfold quoted. cbn [scan_once]. now rewrite scanstring_quoted. Qed.

Lemma scan_items_eq (f : nat) (s : string) :
  scan_items (S f) s =
    match scan_once f s with
    | Some (v, rest) =>
        match skip_ws rest with
        | String c s1 =>
            if Ascii.eqb c "]" then Some ([v], s1)
            else if Ascii.eqb c "," then
              match scan_items f (skip_ws s1) with
              | Some (l, rest') => Some (v :: l, rest')
              | None => None
              end
            else None
        | EmptyString => None
        end
    | None => None
    end.
Proof. reflexivity. Qed.

Lemma skip_ws_quoted (s k : string) : skip_ws (quoted s k) = quoted s k.
Proof. reflexivity. Qed.

Lemma scan_items_text (l : list string) (x : string) (k : string) (f : nat) :
  (length l + 2 <= f)%nat ->
  scan_items f (quoted x (more_items l (indented 1 (String "]" k))))
  = Some (Str x :: map Str l, k).
Proof.
  revert x f. induction l as [|y l IH]; intros x f Hf.
  - destruct f as [|[|f]]; [simpl in Hf; lia .. |].
    rewrite scan_items_eq, scan_once_quoted. cbn [more_items].
    now rewrite skip_ws_indented.
  - destruct f as [|[|f]]; [simpl in Hf; lia .. |].
    rewrite scan_items_eq, scan_once_quoted. cbn [more_items skip_ws].
    change (is_ws ",") with false. cbv iota.
    change (Ascii.eqb "," "]") with false. change (Ascii.eqb "," ",") with true. cbv iota.
    rewrite skip_ws_indented, skip_ws_quoted.
    rewrite IH by (simpl in Hf |- *; lia). reflexivity.
Qed.

Lemma scan_once_array (l : list string) (k : string) (f : nat) :
  (length l + 3 <= f)%nat ->
  scan_once f (array_text l k) = Some (Arr (map Str l), k).
Proof.
  intros Hf. destruct f as [|f]; [lia |].
  destruct l as [|x l].
  - reflexivity.
  - unfold array_text.
    change (scan_once (S f) (String "[" ?s)) with
      (match skip_ws s with
       | String c1 s2 =>
           if Ascii.eqb c1 "]" then Some (Arr [], s2)
           else match scan_items f (skip_ws s) with
                | Some (l, rest) => Some (Arr l, rest)
                | None => None
                end
       | EmptyString => None
       end).
    rewrite skip_ws_indented, skip_ws_quoted.
    unfold quoted at 1. change (Ascii.eqb "034" "]") with false. cbv iota.
    fold (quoted x (more_items l (indented 1 (String "]" k)))).
    rewrite scan_items_text by (simpl in Hf |- *; lia). reflexivity.
Qed.

Lemma scan_once_document (l : list string) (f : nat) :
  (length l + 5 <= f)%nat ->
  scan_once f (document_text l) = Some (Obj [("repos", Arr (map Str l))], EmptyString).
Proof.
  intros Hf. destruct f as [|[|f]]; [lia .. |].
  unfold document_text.
  change (scan_once (S (S f)) (String "{" ?s)) with
    (match skip_ws s with
     | String c1 s2 =>
         if Ascii.eqb c1 "}" then Some (Obj [], s2)
         else if Ascii.eqb c1 "034" then
           match scan_members (S f) s2 with
           | Some (l, rest) => Some (Obj l, rest)
           | None => None
           end
         else None
     | EmptyString => None
     end).
  rewrite skip_ws_indented. unfold quoted at 1.
  cbn [skip_ws]. change (is_ws "034") with false. cbv iota.
  change (Ascii.eqb "034" "}") with false. change (Ascii.eqb "034" "034") with true. cbv iota.
  cbn [scan_members]. rewrite scanstring_quoted.
  cbn [skip_ws]. change (is_ws ":") with false. cbv iota.
  change (Ascii.eqb ":" ":") with true. cbv iota.
  change (skip_ws (String " " ?x)) with (skip_ws x).
  replace (skip_ws (array_text l (indented 0 (String "}" EmptyString))))
    with (array_text l (indented 0 (String "}" EmptyString))) by now destruct l.
  rewrite scan_once_array by lia.
  now rewrite skip_ws_indented.
Qed.

Lemma length_indented (level : nat) (k : string) :
  (String.length k < String.length (indented level k))%nat.
Proof. unfold indented. cbn [String.length]. rewrite length_append. lia. Qed.

Lemma length_quoted (s k : string) :
  (String.length k + 2 <= String.length (quoted s k))%nat.
Proof. unfold quoted. cbn [String.length]. rewrite length_append. cbn [String.length]. lia. Qed.

Lemma length_more_items (l : list string) (k : string) :
  (length l + String.length k <= String.length (more_items l k))%nat.
Proof.
  induction l as [|y l IH]; [simpl; lia |].
  cbn [more_items String.length length].
  pose proof (length_indented 2 (quoted y (more_items l k))).
  pose proof (length_quoted y (more_items l k)). lia.
Qed.

Lemma length_array_text (l : list string) (k : string) :
  (length l + String.length k < String.length (array_text l k))%nat.
Proof.
  destruct l as [|x l]; [simpl; lia |].
  cbn [array_text String.length length].
  pose proof (length_indented 2 (quoted x (more_items l (indented 1 (String "]" k))))).
  pose proof (length_quoted x (more_items l (indented 1 (String "]" k)))).
  pose proof (length_more_items l (indented 1 (String "]" k))).
  pose proof (length_indented 1 (String "]" k)).
  cbn [String.length] in *. lia.
Qed.

Lemma length_document_text (l : list string) :
  (length l + 4 <= String.length (document_text l))%nat.
Proof.
  unfold document_text. cbn [String.length].
  pose proof (length_indented 1 (quoted "repos" (String ":" (String " "
    (array_text l (indented 0 (String "}" EmptyString))))))).
  pose proof (length_quoted "repos" (String ":" (String " "
    (array_text l (indented 0 (String "}" EmptyString)))))).
  pose proof (length_array_text l (indented 0 (String "}" EmptyString))).
  cbn [String.length] in *. lia.
Qed.

(** [json.loads] of what [json.dumps] wrote for a registry. *)
Lemma loads_new_data (l : list string) :
  loads (new_data l) = Some (Obj [("repos", of_strings l)]).
Proof.
  rewrite new_data_text. unfold loads.
  replace (skip_ws (document_text l)) with (document_text l) by reflexivity.
  rewrite scan_once_document; [reflexivity |].
  pose proof (length_document_text l). lia.
Qed.

Lemma to_strings_map (l : list string) : to_strings (map Str l) = Some l.
Proof. induction l as [|x l IH]; [reflexivity |]. cbn [map to_strings]. now rewrite IH. Qed.

End JsonFacts.

(** A registry that was encoded for a write decodes to itself. *)
Lemma registry_roundtrip (l : list string) :
  registry_of_content (Codec.b64encode (Codec.utf8_encode (new_data l))) = Some l.
Proof.
  unfold registry_of_content.
  rewrite b64_roundtrip, utf8_roundtrip, loads_new_data.
  unfold registry_of_members, Json.of_strings. cbn [Json.lookup].
  change (String.eqb "repos" "repos") with true. cbv iota.
  apply to_strings_map.
Qed.

(** ** Writing the registry, and reading it back *)

Section StoreFacts.

Context {net : Http.Network}.

Lemma quiet_ret {A : Type} (a : A) : quiet (mret a : M net A).
Proof. intros w. reflexivity. Qed.

Lemma quiet_raise {A : Type} (e : exn) : quiet (raise e : M net A).
Proof. intros w. reflexivity. Qed.

Lemma quiet_bind {A B : Type} (m : M net A) (k : A -> M net B) :
  quiet m -> (forall a, quiet (k a)) -> quiet (m ≫= k).
Proof.
  intros Hm Hk w. unfold mbind, M_bind, bind. specialize (Hm w).
  destruct (m w) as [[a|e] w']; simpl in Hm; subst w'; [apply Hk | reflexivity].
Qed.

Lemma quiet_raise_for_status (url : string) (r : Http.response) :
  quiet (raise_for_status url r : M net unit).
Proof.
  intros w. unfold raise_for_status.
  repeat match goal with |- context [if ?b then _ else _] => destruct b end; reflexivity.
Qed.

Lemma quiet_response_json (r : Http.response) : quiet (response_json r : M net Json.value).
Proof. intros w. unfold response_json. now destruct (Http.body r). Qed.

Lemma quiet_getitem (v : Json.value) (key : string) : quiet (getitem v key : M net Json.value).
Proof.
  intros w. unfold getitem. destruct v; try reflexivity.
  now destruct (Json.lookup key l).
Qed.

Lemma quiet_decode_document (c : Json.value) : quiet (decode_document c : M net Json.value).
Proof.
  intros w. unfold decode_document. destruct c; try reflexivity.
  destruct (Codec.b64decode _); [| reflexivity].
  destruct (Codec.utf8_decode _); [| reflexivity].
  now destruct (Json.loads _).
Qed.

Lemma quiet_get_repos (data : Json.value) : quiet (get_repos data : M net (list string)).
Proof.
  intros w. unfold get_repos. destruct data; try reflexivity.
  destruct (Json.lookup "repos" l) as [[]|]; try reflexivity.
  now destruct (Json.to_strings _).
Qed.

Lemma quiet_run {A : Type} (m : M net A) (w : world net) :
  quiet m -> exists o, m w = (o, w).
Proof. intros H. specialize (H w). destruct (m w) as [o w']. simpl in H. subst. eauto. Qed.

(** After a request, whatever came back, a quiet rest changes nothing more. *)
Lemma send_then_quiet {A : Type} (rq : Http.request) (k : Http.response -> M net A)
    (w : world net) (a : Http.answer) (st : Http.net_state net) :
  (forall r, quiet (k r)) ->
  Http.net_send net rq (w_net w) = (a, st) ->
  exists o, (send rq ≫= k) w = (o, after w rq st).
Proof.
  intros Hk H. destruct a as [r|msg].
  - erewrite bind_returns by (apply send_answered, H). apply quiet_run, Hk.
  - erewrite bind_raises by (apply send_failed, H). eauto.
Qed.

(** [save_tracked] sends the write, once, and nothing else. *)
Lemma save_tracked_sends (cfg : config) (repos : list string) (sha : Json.value)
    (w : world net) (a : Http.answer) (st : Http.net_state net) :
  Http.net_send net (store_write cfg repos sha) (w_net w) = (a, st) ->
  exists o, save_tracked cfg repos sha w = (o, after w (store_write cfg repos sha) st).
Proof.
  intros H. unfold save_tracked, requests_put. eapply send_then_quiet; [| exact H].
  intros r. apply quiet_bind; [apply quiet_raise_for_status |]. intros _.
  apply quiet_bind; [apply quiet_response_json |]. intros j.
  apply quiet_bind; [apply quiet_getitem |]. intros c. apply quiet_getitem.
Qed.

(** [load_tracked] sends the read, once, and nothing else. *)
Lemma load_tracked_sends (cfg : config) (w : world net) (a : Http.answer)
    (st : Http.net_state net) :
  Http.net_send net (store_read cfg) (w_net w) = (a, st) ->
  exists o, load_tracked cfg w = (o, after w (store_read cfg) st).
Proof.
  intros H. unfold load_tracked, requests_get. eapply send_then_quiet; [| exact H].
  intros r. destruct (Http.status_code r =? 404)%Z; [apply quiet_ret |].
  apply quiet_bind; [apply quiet_raise_for_status |]. intros _.
  apply quiet_bind; [apply quiet_response_json |]. intros content.
  apply quiet_bind; [apply quiet_getitem |]. intros c.
  apply quiet_bind; [apply quiet_decode_document |]. intros data.
  apply quiet_bind; [apply quiet_getitem |]. intros s.
  apply quiet_bind; [apply quiet_get_repos |]. intros repos. apply quiet_ret.
Qed.

(** A write that the store accepts returns the token of its answer. *)
Lemma save_tracked_accepted (cfg : config) (repos : list string) (sha : Json.value)
    (w : world net) (r : Http.response) (st : Http.net_state net)
    (members inner : list (string * Json.value)) (t : Json.value) :
  Http.net_send net (store_write cfg repos sha) (w_net w) = (Http.Answered r, st) ->
  http_failure (Http.status_code r) = false ->
  Http.body r = Some (Json.Obj members) ->
  Json.lookup "content" members = Some (Json.Obj inner) ->
  Json.lookup "sha" inner = Some t ->
  save_tracked cfg repos sha w = (Returns t, after w (store_write cfg repos sha) st).
Proof.
  intros H Hok Hbody Hc Hsha. unfold save_tracked, requests_put.
  erewrite bind_returns by (apply send_answered, H).
  cbv beta; erewrite bind_returns by (now apply raise_for_status_ok).
  cbv beta; erewrite bind_returns by (unfold response_json; rewrite Hbody; reflexivity).
  cbv beta; erewrite bind_returns by (apply getitem_member; eassumption).
  now apply getitem_member.
Qed.

(** A read answered with a document returns its registry and token. *)
Lemma load_tracked_present (cfg : config) (w : world net) (r : Http.response)
    (st : Http.net_state net) (members : list (string * Json.value)) (c : string)
    (sha : Json.value) (repos : list string) :
  Http.net_send net (store_read cfg) (w_net w) = (Http.Answered r, st) ->
  http_failure (Http.status_code r) = false ->
  Http.body r = Some (Json.Obj members) ->
  Json.lookup "content" members = Some (Json.Str c) ->
  Json.lookup "sha" members = Some sha ->
  registry_of_content c = Some repos ->
  load_tracked cfg w = (Returns (repos, sha), after w (store_read cfg) st).
Proof.
  intros H Hok Hbody Hc Hsha Hreg.
  unfold load_tracked, requests_get.
  erewrite bind_returns by (apply send_answered, H).
  destruct (Http.status_code r =? 404)%Z eqn:E.
  { apply Z.eqb_eq in E. rewrite E in Hok. discriminate. }
  cbv beta; erewrite bind_returns by (now apply raise_for_status_ok).
  cbv beta; erewrite bind_returns by (unfold response_json; rewrite Hbody; reflexivity).
  cbv beta; erewrite bind_returns by (apply getitem_member; eassumption).
  destruct (decode_document_registry c repos (after w (store_read cfg) st) Hreg)
    as (data & Hdata & Hrepos).
  cbv beta; erewrite bind_returns by exact Hdata.
  cbv beta; erewrite bind_returns by (apply getitem_member; eassumption).
  cbv beta; erewrite bind_returns by apply Hrepos.
  reflexivity.
Qed.

End StoreFacts.

(** C7. Store round trip. For every list of identifiers: when the store
    accepts the write of [save_tracked] and answers with a token, and then
    answers the read of [load_tracked] with the content that was written and
    that token, [save_tracked] returns the token and [load_tracked] returns
    exactly the list that was written, with the token. On the store of the
    specification this is what happens for every list, whenever the store is
    up and the expected version is the current one: the write returns the
    token that the store issued for it, and the read returns the list and
    that token. *)
Theorem store_roundtrip :
  (forall (net : Http.Network) (cfg : config) (repos : list string) (sha : Json.value)
          (w : world net) r1 st1 members1 inner t r2 st2 members2,
      Http.net_send net (store_write cfg repos sha) (w_net w) = (Http.Answered r1, st1) ->
      http_failure (Http.status_code r1) = false ->
      Http.body r1 = Some (Json.Obj members1) ->
      Json.lookup "content" members1 = Some (Json.Obj inner) ->
      Json.lookup "sha" inner = Some t ->
      Http.net_send net (store_read cfg) st1 = (Http.Answered r2, st2) ->
      http_failure (Http.status_code r2) = false ->
      Http.body r2 = Some (Json.Obj members2) ->
      Json.lookup "content" members2
        = Some (Json.Str (Codec.b64encode (Codec.utf8_encode (new_data repos)))) ->
      Json.lookup "sha" members2 = Some t ->
      save_tracked cfg repos sha w = (Returns t, after w (store_write cfg repos sha) st1)
      /\ load_tracked cfg (after w (store_write cfg repos sha) st1)
         = (Returns (repos, t),
            after (after w (store_write cfg repos sha) st1) (store_read cfg) st2))
  /\ (forall (cfg : config) (mint : N -> string -> string) (provider : string -> Http.answer)
             (repos : list string) (sha : Json.value)
             (w : world (Fake.network cfg mint provider)),
        Fake.outage (w_net w) = None ->
        Fake.is_current sha (w_net w) = true ->
        let content := Codec.b64encode (Codec.utf8_encode (new_data repos)) in
        let t := mint (Fake.writes (w_net w)) content in
        let st1 := Fake.State (Some (content, t)) (Fake.writes (w_net w) + 1) None in
        let w1 := after w (store_write cfg repos sha) st1 in
        save_tracked cfg repos sha w = (Returns (Json.Str t), w1)
        /\ load_tracked cfg w1 = (Returns (repos, Json.Str t), after w1 (store_read cfg) st1)).
Proof.
  split.
  - intros net cfg repos sha w r1 st1 members1 inner t r2 st2 members2
      H1 Hok1 Hb1 Hc1 Ht1 H2 Hok2 Hb2 Hc2 Ht2.
    split.
    + eapply save_tracked_accepted; eassumption.
    + eapply load_tracked_present; try eassumption. apply registry_roundtrip.
  - intros cfg mint provider repos sha w Hup Hcur content t st1 w1.
    assert (Hurl : String.eqb (github_file_url cfg) (github_file_url cfg) = true)
      by apply String.eqb_refl.
    split.
    + eapply save_tracked_accepted.
      * cbn [Http.net_send Fake.network]. unfold Fake.send, store_write.
        cbn [Http.rq_url Http.rq_method Http.rq_json]. rewrite Hurl, Hup.
        unfold Fake.store_put, payload. cbn [Json.lookup].
        change (String.eqb "content" "content") with true.
        change (String.eqb "sha" "sha") with true.
        change (String.eqb "sha" "content") with false.
        change (String.eqb "message" "sha") with false.
        change (String.eqb "message" "content") with false.
        change (String.eqb "content" "sha") with false.
        cbv iota. rewrite Hcur. rewrite Hup. reflexivity.
      * reflexivity.
      * reflexivity.
      * reflexivity.
      * reflexivity.
    + eapply load_tracked_present.
      * cbn [Http.net_send Fake.network]. unfold Fake.send, store_read.
        cbn [Http.rq_url Http.rq_method Http.rq_json]. rewrite Hurl.
        reflexivity.
      * reflexivity.
      * reflexivity.
      * reflexivity.
      * reflexivity.
      * apply registry_roundtrip.
Qed.

(** The write of two identifiers over the document of one, and the read
    after it, on the store of the tests. *)
Lemma store_roundtrip_witness :
  save_tracked Fake.cfg0 ["a/b"; "octocat/Hello-World"] (Json.Str "t1")
    (Fake.start (Fake.state_of ["a/b"] "t1"))
  = (Returns (Json.Str "v1"),
     after (Fake.start (Fake.state_of ["a/b"] "t1"))
       (store_write Fake.cfg0 ["a/b"; "octocat/Hello-World"] (Json.Str "t1"))
       (Fake.state_after 2 ["a/b"; "octocat/Hello-World"] "v1"))
  /\ load_tracked Fake.cfg0
       (after (Fake.start (Fake.state_of ["a/b"] "t1"))
          (store_write Fake.cfg0 ["a/b"; "octocat/Hello-World"] (Json.Str "t1"))
          (Fake.state_after 2 ["a/b"; "octocat/Hello-World"] "v1"))
     = (Returns (["a/b"; "octocat/Hello-World"], Json.Str "v1"),
        after (after (Fake.start (Fake.state_of ["a/b"] "t1"))
                 (store_write Fake.cfg0 ["a/b"; "octocat/Hello-World"] (Json.Str "t1"))
                 (Fake.state_after 2 ["a/b"; "octocat/Hello-World"] "v1"))
          (store_read Fake.cfg0)
          (Fake.state_after 2 ["a/b"; "octocat/Hello-World"] "v1")).
Proof.
  refine (proj1 store_roundtrip Fake.net0 Fake.cfg0 ["a/b"; "octocat/Hello-World"]
            (Json.Str "t1") (Fake.start (Fake.state_of ["a/b"] "t1"))
            _ _ _ _ _ _ _ _ _ _ _ _ _ _ _ _ _ _); reflexivity.
Defined.

(** ** Traces only grow *)

Section GrowFacts.

Context {net : Http.Network}.

Lemma grows_quiet {A : Type} (m : M net A) : quiet m -> grows m.
Proof. intros H w. exists []. now rewrite H, app_nil_r. Qed.

Lemma grows_ret {A : Type} (a : A) : grows (mret a : M net A).
Proof. apply grows_quiet, quiet_ret. Qed.

Lemma grows_bind {A B : Type} (m : M net A) (k : A -> M net B) :
  grows m -> (forall a, grows (k a)) -> grows (m ≫= k).
Proof.
  intros Hm Hk w. unfold mbind, M_bind, bind. destruct (Hm w) as [evs Hevs].
  destruct (m w) as [[a|e] w']; simpl in Hevs.
  - destruct (Hk a w') as [evs' Hevs']. exists (evs ++ evs').
    now rewrite Hevs', Hevs, app_assoc.
  - exists evs. exact Hevs.
Qed.

Lemma grows_try_except {A : Type} (m : M net A) (h : exn -> M net A) :
  grows m -> (forall e, grows (h e)) -> grows (try_except m h).
Proof.
  intros Hm Hh w. unfold try_except. destruct (Hm w) as [evs Hevs].
  destruct (m w) as [[a|e] w']; simpl in Hevs.
  - exists evs. exact Hevs.
  - destruct (Hh e w') as [evs' Hevs']. exists (evs ++ evs').
    now rewrite Hevs', Hevs, app_assoc.
Qed.

Lemma grows_send (rq : Http.request) : grows (send rq : M net Http.response).
Proof.
  intros w. unfold send. destruct (Http.net_send net rq (w_net w)) as [[r|msg] st];
    exists [Sent rq]; reflexivity.
Qed.

Lemma grows_reply_text (msg : string) : grows (reply_text msg : M net unit).
Proof. intros w. exists [Replied msg]. reflexivity. Qed.

Lemma grows_save_tracked (cfg : config) (repos : list string) (sha : Json.value) :
  grows (save_tracked cfg repos sha : M net Json.value).
Proof.
  intros w. destruct (Http.net_send net (store_write cfg repos sha) (w_net w)) as [a st] eqn:E.
  destruct (save_tracked_sends cfg repos sha w a st E) as [o ->]. eexists. reflexivity.
Qed.

Lemma grows_validate_repo_exists (repo : string) :
  grows (validate_repo_exists repo : M net bool).
Proof.
  unfold validate_repo_exists, requests_get.
  apply grows_bind; [apply grows_send | intros r; apply grows_ret].
Qed.

Lemma grows_add_step (repo : string) (st : add_state) : grows (add_step repo st : M net _).
Proof.
  unfold add_step. destruct (bool_decide _); [apply grows_ret |].
  apply grows_try_except.
  - apply grows_bind; [apply grows_validate_repo_exists |].
    intros []; apply grows_ret.
  - intros e. apply grows_ret.
Qed.

Lemma grows_add_loop (l : list string) (st : add_state) : grows (add_loop l st : M net _).
Proof.
  revert st. induction l as [|repo l IH]; intros st; [apply grows_ret |].
  cbn [add_loop]. apply grows_bind; [apply grows_add_step | exact IH].
Qed.

End GrowFacts.

(** ** The clear path *)

(** C9. Clear. For a caller that is not the admin, [clearall_cmd] replies
    with the denial and does nothing else: no request is sent and the network
    is as before. For the admin it reads the registry afresh (one read
    request) and, whatever list that read returned, sends the write of the
    empty list under the token of that read; it replies that all is cleared
    when the write succeeds, and the error of a failed read or write goes to
    the caller. *)
Theorem clearall_cmd_cases (net : Http.Network) (cfg : config) (user_id : Z) (w : world net) :
  (user_id <> ADMIN_ID cfg ->
   clearall_cmd cfg user_id w
   = (Returns tt, World (w_net w) (w_trace w ++ [Replied MSG_NOT_ADMIN])))
  /\ (user_id = ADMIN_ID cfg ->
      (forall a st, Http.net_send net (store_read cfg) (w_net w) = (a, st) ->
                    exists o, load_tracked cfg w = (o, after w (store_read cfg) st))
      /\ (forall repos sha w1 a st2,
             load_tracked cfg w = (Returns (repos, sha), w1) ->
             Http.net_send net (store_write cfg [] sha) (w_net w1) = (a, st2) ->
             exists o,
               save_tracked cfg [] sha w1 = (o, after w1 (store_write cfg [] sha) st2)
               /\ clearall_cmd cfg user_id w
                  = match o with
                    | Returns _ =>
                        (Returns tt,
                         World st2 (w_trace w1 ++ [Sent (store_write cfg [] sha);
                                                   Replied MSG_CLEARED]))
                    | Raises e => (Raises e, after w1 (store_write cfg [] sha) st2)
                    end)
      /\ (forall e w1, load_tracked cfg w = (Raises e, w1) ->
                       clearall_cmd cfg user_id w = (Raises e, w1))).
Proof.
  split.
  - intros Hne. unfold clearall_cmd. now rewrite bool_decide_eq_true_2.
  - intros ->. repeat split.
    + intros a st. apply load_tracked_sends.
    + intros repos sha w1 a st2 Hload Hsend.
      destruct (save_tracked_sends cfg [] sha w1 a st2 Hsend) as [o Ho].
      exists o. split; [exact Ho |].
      unfold clearall_cmd. rewrite bool_decide_eq_false_2 by tauto.
      erewrite bind_returns by exact Hload. cbv beta iota.
      destruct o as [t|e].
      * erewrite bind_returns by exact Ho. unfold reply_text, after. cbn [w_net w_trace].
        now rewrite <- app_assoc.
      * erewrite bind_raises by exact Ho. reflexivity.
    + intros e w1 Hload. unfold clearall_cmd. rewrite bool_decide_eq_false_2 by tauto.
      erewrite bind_raises by exact Hload. reflexivity.
Qed.

(** A caller that is not the admin of the tests. *)
Lemma clearall_cmd_cases_witness :
  clearall_cmd Fake.cfg0 5 (Fake.start (Fake.state_of ["a/b"] "t1"))
  = (Returns tt, World (Fake.state_of ["a/b"] "t1" : Http.net_state Fake.net0)
                   ([] ++ [Replied MSG_NOT_ADMIN])).
Proof.
  apply (proj1 (clearall_cmd_cases Fake.net0 Fake.cfg0 5
                  (Fake.start (Fake.state_of ["a/b"] "t1")))).
  discriminate.
Defined.

(** ** The add path *)

Section AddFacts.

Context {net : Http.Network}.

Lemma process_too_many (cfg : config) (it : set_iter) (text : string) (w : world net) :
  (20 < size (extract_repos_from_text text))%nat ->
  process_repo_addition cfg it text w = reply_text MSG_TOO_MANY w.
Proof.
  intros H. unfold process_repo_addition. cbv zeta.
  rewrite bool_decide_eq_false_2.
  - apply Nat.ltb_lt in H. now rewrite H.
  - intros E. rewrite E, size_empty in H. lia.
Qed.

Lemma process_accepted (cfg : config) (it : set_iter) (text : string) (w : world net) :
  extract_repos_from_text text <> ∅ ->
  (size (extract_repos_from_text text) <= 20)%nat ->
  process_repo_addition cfg it text w
  = ('(repos, sha) ← load_tracked cfg;
     st ← add_loop (it (extract_repos_from_text text)) (AddState repos [] [] []);
     (match a_added st with
      | [] => mret tt
      | _ :: _ => save_tracked cfg (a_repos st) sha;; mret tt
      end);;
     reply_text (add_message st)) w.
Proof.
  intros Hne Hle. unfold process_repo_addition. cbv zeta.
  rewrite bool_decide_eq_false_2 by exact Hne.
  apply Nat.ltb_ge in Hle. now rewrite Hle.
Qed.

End AddFacts.

(** C3. The batch ceiling. A text with more than 20 distinct identifiers is
    rejected as a whole: the handler replies that there are too many and does
    nothing else, so no request (validation or store) is sent and the network
    is as before. A text with exactly 20 is not rejected: the handler goes on
    and its first act is the read of the registry. *)
Theorem batch_ceiling (net : Http.Network) (cfg : config) (it : set_iter) (text : string)
    (w : world net) :
  ((20 < size (extract_repos_from_text text))%nat ->
   process_repo_addition cfg it text w
   = (Returns tt, World (w_net w) (w_trace w ++ [Replied MSG_TOO_MANY])))
  /\ (size (extract_repos_from_text text) = 20%nat ->
      forall a st, Http.net_send net (store_read cfg) (w_net w) = (a, st) ->
      exists o w' evs,
        process_repo_addition cfg it text w = (o, w')
        /\ w_trace w' = w_trace w ++ Sent (store_read cfg) :: evs).
Proof.
  split.
  - intros H. now rewrite process_too_many.
  - intros H a st Hsend. rewrite process_accepted.
    + destruct (load_tracked_sends cfg w a st Hsend) as [[[repos sha]|e] Hload].
      * erewrite bind_returns by exact Hload. cbv beta iota.
        match goal with |- context [?m (after w (store_read cfg) st)] =>
          assert (Hg : grows m)
        end.
        { apply grows_bind; [apply grows_add_loop |]. intros fs.
          apply grows_bind; [| intros _; apply grows_reply_text].
          destruct (a_added fs); [apply grows_ret |].
          apply grows_bind; [apply grows_save_tracked | intros _; apply grows_ret]. }
        destruct (Hg (after w (store_read cfg) st)) as [evs Hevs].
        match goal with |- context [?m (after w (store_read cfg) st)] =>
          destruct (m (after w (store_read cfg) st)) as [o w'] end.
        exists o, w', evs. split; [reflexivity |].
        simpl in Hevs. rewrite Hevs. unfold after. cbn [w_trace].
        now rewrite <- app_assoc.
      * erewrite bind_raises by exact Hload.
        exists (Raises e), (after w (store_read cfg) st), []. split; reflexivity.
    + intros E. rewrite E, size_empty in H. discriminate.
    + lia.
Qed.

(** Twenty-one identifiers in one message, and twenty. *)
Lemma batch_ceiling_witness :
  process_repo_addition Fake.cfg0 iter_elements text21
    (Fake.start (Fake.state_of ["a/b"] "t1"))
  = (Returns tt, World (Fake.state_of ["a/b"] "t1" : Http.net_state Fake.net0)
                   ([] ++ [Replied MSG_TOO_MANY]))
  /\ exists o w' evs,
       process_repo_addition Fake.cfg0 iter_elements text20
         (Fake.start (Fake.state_of ["a/b"] "t1")) = (o, w')
       /\ w_trace w' = [] ++ Sent (store_read Fake.cfg0) :: evs.
Proof.
  split.
  - apply (proj1 (batch_ceiling Fake.net0 Fake.cfg0 iter_elements text21
                    (Fake.start (Fake.state_of ["a/b"] "t1")))).
    apply Nat.ltb_lt. vm_compute. reflexivity.
  - apply (proj2 (batch_ceiling Fake.net0 Fake.cfg0 iter_elements text20
                    (Fake.start (Fake.state_of ["a/b"] "t1")))
             (eq_refl : size (extract_repos_from_text text20) = 20%nat)
             (Fake.answer_json 200 "OK"
                (Json.Obj [("content",
                            Json.Str (Codec.b64encode (Codec.utf8_encode (new_data ["a/b"]))));
                           ("sha", Json.Str "t1")]))
             (Fake.state_of ["a/b"] "t1")).
    reflexivity.
Defined.

(** ** The loop of the add path *)

Section AddLoopFacts.

Context {net : Http.Network}.

Lemma validate_repo_exists_sends (repo : string) (w : world net) (a : Http.answer)
    (st : Http.net_state net) :
  Http.net_send net (lookup_request repo) (w_net w) = (a, st) ->
  validate_repo_exists repo w
  = (match a with
     | Http.Answered r => Returns (Http.ok r)
     | Http.Failed msg => Raises (RequestException msg)
     end, after w (lookup_request repo) st).
Proof.
  intros H. unfold validate_repo_exists, requests_get. destruct a as [r|msg].
  - erewrite bind_returns by (apply send_answered, H). reflexivity.
  - erewrite bind_raises by (apply send_failed, H). reflexivity.
Qed.

Lemma add_step_present (repo : string) (st : add_state) (w : world net) :
  repo ∈ a_repos st -> add_step repo st w = (Returns (skip repo st), w).
Proof. intros H. unfold add_step. now rewrite bool_decide_eq_true_2. Qed.

Lemma add_step_absent (repo : string) (st : add_state) (w : world net) :
  repo ∉ a_repos st ->
  add_step repo st w
  = match validate_repo_exists repo w with
    | (Returns true, w') => (Returns (accept repo st), w')
    | (Returns false, w') => (Returns (fail repo st), w')
    | (Raises e, w') => (Returns (fail (error_entry repo e) st), w')
    end.
Proof.
  intros H. unfold add_step. rewrite bool_decide_eq_false_2 by exact H.
  unfold try_except, mbind, M_bind, bind.
  destruct (validate_repo_exists repo w) as [[[]|e] w']; reflexivity.
Qed.

(** One step returns, with the request it sent (if any) added to the trace
    and the lists extended by at most the candidate. *)
Lemma add_step_cases (repo : string) (st : add_state) (w : world net) :
  exists st' w', add_step repo st w = (Returns st', w')
    /\ ((repo ∈ a_repos st /\ st' = skip repo st /\ w' = w)
        \/ ((repo ∉ a_repos st)
            /\ w_trace w' = w_trace w ++ [Sent (lookup_request repo)]
            /\ (st' = accept repo st \/ exists entry, st' = fail entry st))).
Proof.
  destruct (decide (repo ∈ a_repos st)) as [Hin|Hout].
  - exists (skip repo st), w. split; [now apply add_step_present | left; auto].
  - rewrite (add_step_absent _ _ _ Hout).
    destruct (Http.net_send net (lookup_request repo) (w_net w)) as [a s] eqn:E.
    rewrite (validate_repo_exists_sends _ _ _ _ E).
    destruct a as [r|msg]; [destruct (Http.ok r) |]; eexists _, _;
      (split; [reflexivity |]); right; (split; [exact Hout |]);
      (split; [reflexivity |]); eauto.
Qed.

Lemma add_loop_cons (repo : string) (l : list string) (st st' : add_state) (w w' : world net) :
  add_step repo st w = (Returns st', w') ->
  add_loop (repo :: l) st w = add_loop l st' w'.
Proof. intros H. cbn [add_loop]. now erewrite bind_returns by exact H. Qed.

(** The loop never raises. *)
Lemma add_loop_returns (l : list string) (st : add_state) (w : world net) :
  exists fs wl, add_loop l st w = (Returns fs, wl).
Proof.
  revert st w. induction l as [|c l IH]; intros st w; [now exists st, w |].
  destruct (add_step_cases c st w) as (st' & w' & Hstep & _).
  rewrite (add_loop_cons _ _ _ _ _ _ Hstep). apply IH.
Qed.

Lemma add_loop_app (l1 l2 : list string) (st st1 : add_state) (w w1 : world net) :
  add_loop l1 st w = (Returns st1, w1) ->
  add_loop (l1 ++ l2) st w = add_loop l2 st1 w1.
Proof.
  revert st w. induction l1 as [|c l1 IH]; intros st w H.
  - cbn in H. injection H as <- <-. reflexivity.
  - destruct (add_step_cases c st w) as (st' & w' & Hstep & _).
    rewrite (add_loop_cons _ _ _ _ _ _ Hstep) in H.
    cbn [app]. rewrite (add_loop_cons _ _ _ _ _ _ Hstep). now apply IH.
Qed.

(** What the loop leaves behind: the lists only grow, the working list by
    the added candidates, and these were not in it. *)
Lemma add_loop_extends (l : list string) (st fs : add_state) (w wl : world net) :
  add_loop l st w = (Returns fs, wl) ->
  exists x y z,
    a_repos fs = a_repos st ++ x /\ a_added fs = a_added st ++ x
    /\ a_skipped fs = a_skipped st ++ y /\ a_failed fs = a_failed st ++ z
    /\ (forall c, c ∈ x -> c ∈ l /\ c ∉ a_repos st)
    /\ (forall c, c ∈ y -> c ∈ l)
    /\ (NoDup (a_repos st) -> NoDup (a_repos fs)).
Proof.
  revert st w. induction l as [|c l IH]; intros st w H.
  - cbn in H. injection H as <- <-. exists [], [], [].
    rewrite !app_nil_r. repeat split; try easy; intros ? []%elem_of_nil.
  - destruct (add_step_cases c st w) as (st' & w' & Hstep & Hcases).
    rewrite (add_loop_cons _ _ _ _ _ _ Hstep) in H.
    destruct (IH _ _ H) as (x & y & z & Hr & Ha & Hs & Hf & Hx & Hy & Hnd).
    destruct Hcases as [(Hin & -> & ->) | (Hout & _ & [-> | [entry ->]])];
      cbn [skip accept fail a_repos a_added a_skipped a_failed] in *.
    + exists x, (c :: y), z. rewrite <- !app_assoc in *. cbn [app] in *.
      repeat split; try assumption.
      * apply elem_of_cons; right; apply (Hx _ H0).
      * apply (Hx _ H0).
      * intros c' [->|Hc']%elem_of_cons; [left | right; now apply Hy].
    + exists (c :: x), y, z. rewrite <- !app_assoc in *. cbn [app] in *.
      repeat split; try assumption.
      * apply elem_of_cons in H0 as [->|H0]; [left | right; apply (Hx _ H0)].
      * apply elem_of_cons in H0 as [->|H0]; [exact Hout |].
        intros Hc. apply (Hx _ H0). apply elem_of_app. now left.
      * intros c' Hc'. right. now apply Hy.
      * intros Hst. apply Hnd. apply NoDup_app. repeat split; [exact Hst | | apply NoDup_singleton].
        intros c' Hc' ->%list_elem_of_singleton. contradiction.
    + exists x, y, (entry :: z). rewrite <- !app_assoc in *. cbn [app] in *.
      repeat split; try assumption.
      * apply elem_of_cons; right; apply (Hx _ H0).
      * apply (Hx _ H0).
      * intros c' Hc'. right. now apply Hy.
Qed.

End AddLoopFacts.

(** ** Each candidate of the add loop *)

Section AddCandidates.

Context {net : Http.Network}.

Lemma filter_agree (P Q : string -> Prop) `{!forall x, Decision (P x)}
    `{!forall x, Decision (Q x)} (l : list string) :
  (forall x, x ∈ l -> P x <-> Q x) -> filter P l = filter Q l.
Proof.
  induction l as [|c l IH]; intros Hpq; [reflexivity |].
  rewrite !filter_cons.
  rewrite IH by (intros x Hx; apply Hpq; apply elem_of_cons; now right).
  assert (Hc : P c <-> Q c) by (apply Hpq; apply elem_of_cons; now left).
  destruct (decide (P c)), (decide (Q c)); tauto || reflexivity.
Qed.

(** The requests of the loop: one lookup for each candidate that is not in
    the working list, in the order of the loop. *)
Lemma add_loop_trace (l : list string) (st fs : add_state) (w wl : world net) :
  NoDup l ->
  add_loop l st w = (Returns fs, wl) ->
  w_trace wl
  = w_trace w ++ map (fun c => Sent (lookup_request c)) (filter (fun c => c ∉ a_repos st) l).
Proof.
  revert st w. induction l as [|c l IH]; intros st w Hnd H.
  - cbn in H. injection H as <- <-. now rewrite app_nil_r.
  - apply NoDup_cons in Hnd as [Hc Hnd].
    destruct (add_step_cases c st w) as (st' & w' & Hstep & Hcases).
    rewrite (add_loop_cons _ _ _ _ _ _ Hstep) in H.
    rewrite (IH _ _ Hnd H).
    destruct Hcases as [(Hin & -> & ->) | (Hout & Htr & Hst)].
    + rewrite filter_cons_False by tauto. reflexivity.
    + rewrite filter_cons_True by exact Hout. rewrite Htr, <- app_assoc. cbn [map app].
      do 3 f_equal. apply filter_agree. intros x Hx.
      destruct Hst as [-> | [entry ->]]; cbn [accept fail a_repos]; [| tauto].
      rewrite elem_of_app, list_elem_of_singleton.
      split; [tauto |]. intros Hn [Hr | ->]; [tauto | contradiction].
Qed.

(** The state in which the loop reaches a candidate, and where the candidate
    ends up: a candidate of the registry that was read is skipped, another
    one is looked up and added or failed. *)
Lemma add_loop_candidate (before rest : list string) (c : string) (repos0 : list string)
    (fs : add_state) (w0 wl : world net) :
  NoDup (before ++ c :: rest) ->
  add_loop (before ++ c :: rest) (AddState repos0 [] [] []) w0 = (Returns fs, wl) ->
  exists sb wb,
    add_loop before (AddState repos0 [] [] []) w0 = (Returns sb, wb)
    /\ (c ∈ a_repos sb <-> c ∈ repos0)
    /\ (c ∈ repos0 ->
        add_step c sb wb = (Returns (skip c sb), wb)
        /\ c ∈ a_skipped fs /\ c ∉ a_added fs)
    /\ (c ∉ repos0 ->
        (forall w', validate_repo_exists c wb = (Returns true, w') ->
                    add_step c sb wb = (Returns (accept c sb), w')
                    /\ c ∈ a_added fs /\ c ∈ a_repos fs)
        /\ (forall w', validate_repo_exists c wb = (Returns false, w') ->
                       add_step c sb wb = (Returns (fail c sb), w')
                       /\ c ∈ a_failed fs /\ (c ∉ a_added fs) /\ c ∉ a_repos fs)
        /\ (forall e w', validate_repo_exists c wb = (Raises e, w') ->
                         add_step c sb wb = (Returns (fail (error_entry c e) sb), w')
                         /\ error_entry c e ∈ a_failed fs
                         /\ (c ∉ a_added fs) /\ c ∉ a_repos fs)).
Proof.
  intros Hnd H.
  apply NoDup_app in Hnd as (_ & Hbefore & [Hrest _]%NoDup_cons).
  assert (Hcb : c ∉ before).
  { intros Hc. apply (Hbefore c Hc). apply elem_of_cons. now left. }
  destruct (add_loop_returns before (AddState repos0 [] [] []) w0) as (sb & wb & Hb).
  exists sb, wb. split; [exact Hb |].
  rewrite (add_loop_app _ _ _ _ _ _ Hb) in H.
  destruct (add_loop_extends _ _ _ _ _ Hb) as (x & _ & _ & Hr & Ha & _ & _ & Hx & _).
  cbn [a_repos a_added app] in Hr, Ha, Hx.
  assert (Hcx : c ∉ x) by (intros Hc; now apply Hx in Hc as [? _]).
  assert (Hiff : c ∈ a_repos sb <-> c ∈ repos0).
  { rewrite Hr, elem_of_app. tauto. }
  split; [exact Hiff |].
  (* what follows the candidate *)
  assert (Hafter : forall sc wc, add_step c sb wb = (Returns sc, wc) ->
            exists x' y' z',
              a_repos fs = a_repos sc ++ x' /\ a_added fs = a_added sc ++ x'
              /\ a_skipped fs = a_skipped sc ++ y' /\ a_failed fs = a_failed sc ++ z'
              /\ c ∉ x').
  { intros sc wc Hstep. rewrite (add_loop_cons _ _ _ _ _ _ Hstep) in H.
    destruct (add_loop_extends _ _ _ _ _ H) as (x' & y' & z' & ? & ? & ? & ? & Hx' & _).
    exists x', y', z'. repeat split; try assumption.
    intros Hc. now apply Hx' in Hc as [? _]. }
  split.
  - intros Hin. pose proof (add_step_present c sb wb (proj2 Hiff Hin)) as Hstep.
    split; [exact Hstep |].
    destruct (Hafter _ _ Hstep) as (x' & y' & z' & _ & Ha' & Hs' & _ & Hcx').
    cbn [skip a_added a_skipped] in Ha', Hs'. split.
    + rewrite Hs', !elem_of_app, list_elem_of_singleton. tauto.
    + rewrite Ha', Ha, elem_of_app. tauto.
  - intros Hout.
    assert (Hsb : c ∉ a_repos sb) by tauto.
    pose proof (add_step_absent c sb wb Hsb) as Hstep.
    repeat split; intros; rewrite H0 in Hstep;
      destruct (Hafter _ _ Hstep) as (x' & y' & z' & Hr' & Ha' & _ & Hf' & Hcx');
      cbn [accept fail a_repos a_added a_failed] in Hr', Ha', Hf';
      rewrite ?Hr', ?Ha', ?Hf', ?Hr, ?Ha, ?elem_of_app, ?list_elem_of_singleton;
      tauto.
Qed.

End AddCandidates.

(** ** The add path *)

(** C1. The add path, for a text with at least one and at most 20
    identifiers, after the read of the registry [repos0] under the token
    [sha]. The loop over the candidates returns; its working list is the
    registry followed by the added candidates, and it has no duplicate when
    the registry has none. The loop sends one lookup for each candidate
    that is not in the registry and nothing else. Each candidate [c], reached
    in the state [sb] and world [wb]: when [c] is in the registry it is
    skipped (already tracked) and not appended; when it is not, it is added
    and appended if the validator returns true, and failed, without being
    appended, if the validator returns false or raises. When no candidate was
    added the handler replies and sends no write, and the working list is the
    registry; when one was, the write of the working list under [sha] is the
    next request. In particular a single candidate that is already tracked
    gives no request at all after the read. *)
Theorem add_path (net : Http.Network) (cfg : config) (it : set_iter) (text : string)
    (w w0 : world net) (repos0 : list string) (sha : Json.value) :
  extract_repos_from_text text <> ∅ ->
  (size (extract_repos_from_text text) <= 20)%nat ->
  load_tracked cfg w = (Returns (repos0, sha), w0) ->
  exists fs wl,
    add_loop (it (extract_repos_from_text text)) (AddState repos0 [] [] []) w0
    = (Returns fs, wl)
    /\ a_repos fs = repos0 ++ a_added fs
    /\ (NoDup repos0 -> NoDup (a_repos fs))
    /\ w_trace wl
       = w_trace w0 ++ map (fun c => Sent (lookup_request c))
                         (filter (fun c => c ∉ repos0) (it (extract_repos_from_text text)))
    /\ (forall before c rest,
          it (extract_repos_from_text text) = before ++ c :: rest ->
          exists sb wb,
            add_loop before (AddState repos0 [] [] []) w0 = (Returns sb, wb)
            /\ (c ∈ a_repos sb <-> c ∈ repos0)
            /\ (c ∈ repos0 ->
                add_step c sb wb = (Returns (skip c sb), wb)
                /\ c ∈ a_skipped fs /\ c ∉ a_added fs)
            /\ (c ∉ repos0 ->
                (forall w', validate_repo_exists c wb = (Returns true, w') ->
                            add_step c sb wb = (Returns (accept c sb), w')
                            /\ c ∈ a_added fs /\ c ∈ a_repos fs)
                /\ (forall w', validate_repo_exists c wb = (Returns false, w') ->
                               add_step c sb wb = (Returns (fail c sb), w')
                               /\ c ∈ a_failed fs /\ (c ∉ a_added fs) /\ c ∉ a_repos fs)
                /\ (forall e w', validate_repo_exists c wb = (Raises e, w') ->
                                 add_step c sb wb = (Returns (fail (error_entry c e) sb), w')
                                 /\ error_entry c e ∈ a_failed fs
                                 /\ (c ∉ a_added fs) /\ c ∉ a_repos fs)))
    /\ (a_added fs = [] ->
        a_repos fs = repos0
        /\ process_repo_addition cfg it text w
           = (Returns tt, World (w_net wl) (w_trace wl ++ [Replied (add_message fs)])))
    /\ (a_added fs <> [] ->
        forall a st,
          Http.net_send net (store_write cfg (a_repos fs) sha) (w_net wl) = (a, st) ->
          exists o,
            save_tracked cfg (a_repos fs) sha wl
            = (o, after wl (store_write cfg (a_repos fs) sha) st)
            /\ process_repo_addition cfg it text w
               = match o with
                 | Returns _ =>
                     (Returns tt,
                      World st (w_trace wl ++ [Sent (store_write cfg (a_repos fs) sha);
                                               Replied (add_message fs)]))
                 | Raises e => (Raises e, after wl (store_write cfg (a_repos fs) sha) st)
                 end)
    /\ (forall c, it (extract_repos_from_text text) = [c] -> c ∈ repos0 ->
                  fs = AddState repos0 [] [c] [] /\ wl = w0).
Proof.
  intros Hne Hle Hload.
  set (l := it (extract_repos_from_text text)).
  assert (Hnd : NoDup l) by apply NoDup_iter.
  destruct (add_loop_returns l (AddState repos0 [] [] []) w0) as (fs & wl & Hloop).
  exists fs, wl. split; [exact Hloop |].
  destruct (add_loop_extends _ _ _ _ _ Hloop) as (x & _ & _ & Hr & Ha & _ & _ & _ & _ & Hdup).
  cbn [a_repos a_added app] in Hr, Ha, Hdup.
  assert (Hrun : process_repo_addition cfg it text w
                 = ((match a_added fs with
                     | [] => mret tt
                     | _ :: _ => save_tracked cfg (a_repos fs) sha;; mret tt
                     end);; reply_text (add_message fs)) wl).
  { rewrite process_accepted by assumption.
    erewrite bind_returns by exact Hload. cbv beta iota.
    fold l. erewrite bind_returns by exact Hloop. reflexivity. }
  split; [now rewrite Ha |]. split; [exact Hdup |].
  split; [exact (add_loop_trace _ _ _ _ _ Hnd Hloop) |].
  split.
  { intros before c rest E. apply (add_loop_candidate before rest c repos0 fs w0 wl).
    - now rewrite <- E.
    - now rewrite <- E. }
  split; [| split].
  - intros Hnone. split; [now rewrite Hr, <- Ha, Hnone, app_nil_r |].
    rewrite Hrun, Hnone. reflexivity.
  - intros Hsome a st Hsend.
    destruct (save_tracked_sends cfg (a_repos fs) sha wl a st Hsend) as [o Ho].
    exists o. split; [exact Ho |]. rewrite Hrun.
    destruct (a_added fs) as [|c added]; [contradiction |].
    destruct o as [t|e].
    + erewrite bind_returns; cycle 1.
      { erewrite bind_returns by exact Ho. reflexivity. }
      unfold reply_text, after. cbn [w_net w_trace]. now rewrite <- app_assoc.
    + erewrite bind_raises; [reflexivity |].
      erewrite bind_raises by exact Ho. reflexivity.
  - intros c E Hin. fold l in E. rewrite E in Hloop.
    rewrite (add_loop_cons c [] _ _ _ _
               (add_step_present c (AddState repos0 [] [] []) w0 Hin)) in Hloop.
    cbn in Hloop. now injection Hloop as <- <-.
Qed.

(** A message with a tracked and an untracked repository, the registry
    holding a/b under the token t1. *)
Lemma add_path_witness :
  exists fs wl,
    add_loop (iter_elements (extract_repos_from_text "a/b octocat/Hello-World"))
      (AddState ["a/b"] [] [] [])
      (after (Fake.start (Fake.state_of ["a/b"] "t1")) (store_read Fake.cfg0)
         (Fake.state_of ["a/b"] "t1"))
    = (Returns fs, wl)
    /\ a_repos fs = ["a/b"] ++ a_added fs
    /\ NoDup (a_repos fs).
Proof.
  destruct (add_path Fake.net0 Fake.cfg0 iter_elements "a/b octocat/Hello-World"
              (Fake.start (Fake.state_of ["a/b"] "t1"))
              (after (Fake.start (Fake.state_of ["a/b"] "t1")) (store_read Fake.cfg0)
                 (Fake.state_of ["a/b"] "t1"))
              ["a/b"] (Json.Str "t1"))
    as (fs & wl & Hloop & Hrepos & Hdup & _).
  - intros E. apply (f_equal size) in E. vm_compute in E. discriminate.
  - apply Nat.leb_le. vm_compute. reflexivity.
  - vm_compute. reflexivity.
  - exists fs, wl. split; [exact Hloop |]. split; [exact Hrepos |].
    apply Hdup. apply NoDup_singleton.
Defined.

(** ** The report of the add path *)

Section ReportFacts.

Lemma append_nonempty (a b : string) : b <> EmptyString -> a +:+ b <> EmptyString.
Proof. destruct a; [now simpl | discriminate]. Qed.

Lemma or_default_nonempty (msg default : string) :
  msg <> EmptyString -> or_default msg default = msg.
Proof. now destruct msg. Qed.

Lemma join_contains (sep : string) (l : list string) (x : string) :
  x ∈ l -> exists p q, Text.join sep l = p +:+ x +:+ q.
Proof.
  induction l as [|y l IH]; [intros []%elem_of_nil |].
  intros [->|Hx]%elem_of_cons.
  - destruct l as [|y' l].
    + exists EmptyString, EmptyString. cbn [Text.join String.append].
      now rewrite append_empty_r.
    + exists EmptyString, (sep +:+ Text.join sep (y' :: l)). reflexivity.
  - destruct (IH Hx) as (p & q & E). destruct l as [|y' l]; [now apply elem_of_nil in Hx |].
    exists (y +:+ sep +:+ p), q. change (Text.join sep (y :: y' :: l))
      with (y +:+ sep +:+ Text.join sep (y' :: l)).
    now rewrite E, !append_assoc.
Qed.

Lemma section_contains (title : string) (l : list string) (x : string) :
  x ∈ l -> exists p q, section title l = p +:+ x +:+ q.
Proof.
  intros Hx. destruct (join_contains NL l x Hx) as (p & q & E).
  destruct l as [|y l]; [now apply elem_of_nil in Hx |].
  exists (title +:+ p), q. cbn [section]. now rewrite E, append_assoc.
Qed.

(** Every entry of the three lists is in the message. *)
Lemma add_message_contains (st : add_state) (x : string) :
  x ∈ a_added st \/ x ∈ a_skipped st \/ x ∈ a_failed st ->
  exists p q, add_message st = p +:+ x +:+ q.
Proof.
  intros H. unfold add_message.
  set (s1 := section _ (a_added st)). set (s2 := section _ (a_skipped st)).
  set (s3 := section _ (a_failed st)).
  assert (Hne : forall l : list string, x ∈ l -> l <> []).
  { intros l Hx ->. now apply elem_of_nil in Hx. }
  destruct H as [H | [H | H]].
  - rewrite or_default_nonempty.
    + destruct (section_contains ("✅ Added:" +:+ NL) _ _ H) as (p & q & E).
      exists p, (q +:+ s2 +:+ s3). subst s1. now rewrite E, !append_assoc.
    + subst s1. destruct (a_added st); [now apply Hne in H | discriminate].
  - rewrite or_default_nonempty.
    + destruct (section_contains (NL +:+ "⏭ Already tracking:" +:+ NL) _ _ H) as (p & q & E).
      exists (s1 +:+ p), (q +:+ s3). subst s2. now rewrite E, !append_assoc.
    + apply append_nonempty. subst s2.
      destruct (a_skipped st); [now apply Hne in H | discriminate].
  - rewrite or_default_nonempty.
    + destruct (section_contains (NL +:+ "❌ Invalid or inaccessible:" +:+ NL) _ _ H)
        as (p & q & E).
      exists (s1 +:+ s2 +:+ p), q. subst s3. now rewrite E, !append_assoc.
    + apply append_nonempty, append_nonempty. subst s3.
      destruct (a_failed st); [now apply Hne in H | discriminate].
Qed.

End ReportFacts.

Section AddRunFacts.

Context {net : Http.Network}.

(** The handler after the read and the loop: the write where a candidate
    was added, then the one reply. *)
Lemma process_after_loop (cfg : config) (it : set_iter) (text : string) (w w0 wl : world net)
    (repos0 : list string) (sha : Json.value) (fs : add_state) :
  extract_repos_from_text text <> ∅ ->
  (size (extract_repos_from_text text) <= 20)%nat ->
  load_tracked cfg w = (Returns (repos0, sha), w0) ->
  add_loop (it (extract_repos_from_text text)) (AddState repos0 [] [] []) w0 = (Returns fs, wl) ->
  process_repo_addition cfg it text w
  = ((match a_added fs with
      | [] => mret tt
      | _ :: _ => save_tracked cfg (a_repos fs) sha;; mret tt
      end);; reply_text (add_message fs)) wl.
Proof.
  intros Hne Hle Hload Hloop. rewrite process_accepted by assumption.
  erewrite bind_returns by exact Hload. cbv beta iota.
  erewrite bind_returns by exact Hloop. reflexivity.
Qed.

(** Every candidate of the loop ends in one of the three lists. *)
Lemma add_loop_covers (l : list string) (repos0 : list string) (fs : add_state)
    (w0 wl : world net) (c : string) :
  NoDup l -> add_loop l (AddState repos0 [] [] []) w0 = (Returns fs, wl) -> c ∈ l ->
  c ∈ a_added fs \/ c ∈ a_skipped fs \/ c ∈ a_failed fs
  \/ exists e, error_entry c e ∈ a_failed fs.
Proof.
  intros Hnd Hloop (before & rest & ->)%list_elem_of_split.
  destruct (add_loop_candidate before rest c repos0 fs w0 wl Hnd Hloop)
    as (sb & wb & _ & _ & Hin & Hout).
  destruct (decide (c ∈ repos0)) as [Hc|Hc].
  - right; left. now apply Hin.
  - destruct (Hout Hc) as (Htrue & Hfalse & Hraise).
    destruct (validate_repo_exists c wb) as [[[]|e] w'] eqn:E.
    + left. now apply (Htrue w').
    + right; right; left. now apply (Hfalse w').
    + right; right; right. exists e. now apply (Hraise e w').
Qed.

End AddRunFacts.

(** ** Failures of the validation stay with their candidate *)

(** C5. Per-item failure containment. An exception of the validation call
    for a candidate is caught in the step of the loop: the step returns, with
    the candidate's entry and the text of the error appended to the failed
    list, and the loop goes on with the candidates that remain; so does a
    failure of the transport of the lookup. The loop as a whole never raises
    and keeps the entries it had. After a successful read, every candidate
    of the batch ends in one of the three lists (added, already tracked,
    failed, the last with or without an error text), the handler goes on to
    the write (when a candidate was added) and the one reply, and the text
    of that reply contains every entry of the three lists. *)
Theorem validation_failure_contained (net : Http.Network) :
  (forall (c : string) (st : add_state) (w w' : world net) (e : exn),
      c ∉ a_repos st ->
      validate_repo_exists c w = (Raises e, w') ->
      add_step c st w = (Returns (fail (error_entry c e) st), w')
      /\ forall rest, add_loop (c :: rest) st w = add_loop rest (fail (error_entry c e) st) w')
  /\ (forall (c : string) (st : add_state) (w : world net) (msg : string)
             (s : Http.net_state net),
         c ∉ a_repos st ->
         Http.net_send net (lookup_request c) (w_net w) = (Http.Failed msg, s) ->
         add_step c st w
         = (Returns (fail (c +:+ " (error: " +:+ msg +:+ ")") st),
            after w (lookup_request c) s))
  /\ (forall (l : list string) (st : add_state) (w : world net),
         exists fs wl, add_loop l st w = (Returns fs, wl)
                       /\ forall x, x ∈ a_failed st -> x ∈ a_failed fs)
  /\ (forall (cfg : config) (it : set_iter) (text : string) (w w0 : world net)
             (repos0 : list string) (sha : Json.value),
         extract_repos_from_text text <> ∅ ->
         (size (extract_repos_from_text text) <= 20)%nat ->
         load_tracked cfg w = (Returns (repos0, sha), w0) ->
         exists fs wl,
           add_loop (it (extract_repos_from_text text)) (AddState repos0 [] [] []) w0
           = (Returns fs, wl)
           /\ (forall c, c ∈ extract_repos_from_text text ->
                         c ∈ a_added fs \/ c ∈ a_skipped fs \/ c ∈ a_failed fs
                         \/ exists e, error_entry c e ∈ a_failed fs)
           /\ process_repo_addition cfg it text w
              = ((match a_added fs with
                  | [] => mret tt
                  | _ :: _ => save_tracked cfg (a_repos fs) sha;; mret tt
                  end);; reply_text (add_message fs)) wl
           /\ (forall x, x ∈ a_added fs \/ x ∈ a_skipped fs \/ x ∈ a_failed fs ->
                         exists p q, add_message fs = p +:+ x +:+ q)).
Proof.
  repeat apply conj.
  - intros c st w w' e Hc Hv.
    assert (Hstep : add_step c st w = (Returns (fail (error_entry c e) st), w')).
    { rewrite (add_step_absent _ _ _ Hc), Hv. reflexivity. }
    split; [exact Hstep |]. intros rest. now apply add_loop_cons.
  - intros c st w msg s Hc Hsend.
    rewrite (add_step_absent _ _ _ Hc), (validate_repo_exists_sends _ _ _ _ Hsend).
    reflexivity.
  - intros l st w. destruct (add_loop_returns l st w) as (fs & wl & Hloop).
    exists fs, wl. split; [exact Hloop |].
    destruct (add_loop_extends _ _ _ _ _ Hloop) as (_ & _ & z & _ & _ & _ & Hf & _).
    intros x Hx. rewrite Hf, elem_of_app. now left.
  - intros cfg it text w w0 repos0 sha Hne Hle Hload.
    destruct (add_loop_returns (it (extract_repos_from_text text)) (AddState repos0 [] [] []) w0)
      as (fs & wl & Hloop).
    exists fs, wl. split; [exact Hloop |]. split; [| split].
    + intros c Hc. apply (add_loop_covers _ _ _ _ _ _ (NoDup_iter it _) Hloop).
      now apply elem_of_iter.
    + now apply (process_after_loop cfg it text w w0 wl repos0 sha fs).
    + apply add_message_contains.
Qed.

(** The lookup of flaky/net fails in the transport. *)
Lemma validation_failure_contained_witness :
  add_step "flaky/net" (AddState [] [] [] []) (Fake.start Fake.empty_state)
  = (Returns (fail "flaky/net (error: Connection aborted.)" (AddState [] [] [] [])),
     after (Fake.start Fake.empty_state) (lookup_request "flaky/net") Fake.empty_state).
Proof.
  apply (proj1 (proj2 (validation_failure_contained Fake.net0))
           "flaky/net" (AddState [] [] [] []) (Fake.start Fake.empty_state)
           "Connection aborted." Fake.empty_state).
  - apply not_elem_of_nil.
  - reflexivity.
Defined.

(** ** The loop of the remove path *)

Section RemoveFacts.

Lemma list_remove_subset (c x : string) (l : list string) :
  x ∈ list_remove c l -> x ∈ l.
Proof.
  induction l as [|y l IH]; cbn [list_remove]; [easy |].
  destruct (bool_decide (y = c)).
  - intros Hx. apply elem_of_cons. now right.
  - rewrite !elem_of_cons. intros [->|Hx]; [now left | right; now apply IH].
Qed.

Lemma list_remove_other (c x : string) (l : list string) :
  x <> c -> x ∈ l -> x ∈ list_remove c l.
Proof.
  intros Hne. induction l as [|y l IH]; cbn [list_remove]; [easy |].
  destruct (bool_decide_reflect (y = c)) as [->|Hy].
  - rewrite elem_of_cons. intros [->|Hx]; [contradiction | exact Hx].
  - rewrite !elem_of_cons. intros [->|Hx]; [now left | right; now apply IH].
Qed.

(** [repos.remove(repo)] takes one entry away. *)
Lemma list_remove_length (c : string) (l : list string) :
  c ∈ l -> S (length (list_remove c l)) = length l.
Proof.
  induction l as [|y l IH]; cbn [list_remove]; [intros []%elem_of_nil |].
  destruct (bool_decide_reflect (y = c)) as [->|Hy]; [reflexivity |].
  intros [->|Hc]%elem_of_cons; [contradiction |]. cbn [length]. now rewrite IH.
Qed.

Lemma list_remove_NoDup (c : string) (l : list string) :
  NoDup l -> NoDup (list_remove c l) /\ c ∉ list_remove c l.
Proof.
  induction l as [|y l IH]; cbn [list_remove].
  - intros _. split; [constructor | apply not_elem_of_nil].
  - intros [Hy Hl]%NoDup_cons. destruct (bool_decide_reflect (y = c)) as [->|Hne].
    + split; assumption.
    + destruct (IH Hl) as [Hnd Hc]. split.
      * apply NoDup_cons. split; [| exact Hnd].
        intros Hin. apply Hy. now apply list_remove_subset in Hin.
      * rewrite elem_of_cons. intros [->|Hin]; [contradiction | contradiction].
Qed.

(** The loop on candidates without repetition: the removed candidates are
    those of the working list, the others are not found; each removal takes
    one entry away, and entries that are no candidates stay. *)
Lemma remove_loop_spec (l : list string) (st : remove_state) :
  NoDup l ->
  r_removed (remove_loop l st) = r_removed st ++ filter (fun c => c ∈ r_repos st) l
  /\ r_not_found (remove_loop l st) = r_not_found st ++ filter (fun c => c ∉ r_repos st) l
  /\ (length (r_repos (remove_loop l st)) + length (filter (fun c => c ∈ r_repos st) l)
      = length (r_repos st))%nat
  /\ (forall x, x ∈ r_repos (remove_loop l st) -> x ∈ r_repos st)
  /\ (forall x, x ∉ l -> x ∈ r_repos st -> x ∈ r_repos (remove_loop l st))
  /\ (NoDup (r_repos st) ->
      NoDup (r_repos (remove_loop l st))
      /\ forall x, x ∈ l -> x ∉ r_repos (remove_loop l st)).
Proof.
  revert st. induction l as [|c l IH]; intros st Hnd.
  - cbn [remove_loop]. rewrite !filter_nil, !app_nil_r. cbn [length].
    repeat split; easy.
  - apply NoDup_cons in Hnd as [Hc Hnd]. cbn [remove_loop].
    destruct (IH (remove_step c st) Hnd) as (Hrem & Hnf & Hlen & Hsub & Hkeep & Hdup).
    unfold remove_step in *.
    destruct (bool_decide_reflect (c ∈ r_repos st)) as [Hin|Hout];
      cbn [r_repos r_removed r_not_found] in *.
    + assert (Hf : filter (fun x => x ∈ list_remove c (r_repos st)) l
                   = filter (fun x => x ∈ r_repos st) l).
      { apply filter_agree. intros x Hx. split; [apply list_remove_subset |].
        apply list_remove_other. now intros ->. }
      assert (Hg : filter (fun x => x ∉ list_remove c (r_repos st)) l
                   = filter (fun x => x ∉ r_repos st) l).
      { apply filter_agree. intros x Hx.
        assert (x <> c) by now intros ->.
        split; intros Hn Hx'; apply Hn;
          [now apply list_remove_other | now apply list_remove_subset in Hx']. }
      rewrite Hf in Hrem, Hlen. rewrite Hg in Hnf.
      rewrite filter_cons_True by exact Hin.
      rewrite filter_cons_False by tauto.
      rewrite Hrem, Hnf, <- app_assoc. cbn [app length].
      pose proof (list_remove_length c _ Hin) as Hl1.
      repeat split; try reflexivity.
      * lia.
      * intros x Hx. now apply Hsub, list_remove_subset in Hx.
      * intros x Hx Hr. apply Hkeep.
        -- intros Hl. apply Hx. apply elem_of_cons. now right.
        -- apply list_remove_other; [| exact Hr]. intros ->. apply Hx. apply elem_of_cons. now left.
      * apply Hdup. now apply list_remove_NoDup.
      * intros x [->|Hx]%elem_of_cons Hst.
        -- destruct (list_remove_NoDup c _ H) as [Hnd' Hx'].
           destruct (Hdup Hnd') as [_ Hno]. apply Hx'. now apply Hsub.
        -- destruct (list_remove_NoDup c _ H) as [Hnd' _].
           destruct (Hdup Hnd') as [_ Hno]. now apply (Hno x).
    + rewrite filter_cons_False by tauto.
      rewrite filter_cons_True by exact Hout.
      rewrite Hrem, Hnf, <- app_assoc. cbn [app].
      repeat split; try reflexivity; try assumption.
      * intros x Hx Hr. apply Hkeep; [| exact Hr].
        intros Hl. apply Hx. apply elem_of_cons. now right.
      * now apply Hdup.
      * intros x [->|Hx]%elem_of_cons Hst.
        -- apply Hout. now apply Hsub.
        -- destruct (Hdup H) as [_ Hno]. now apply (Hno x).
Qed.

End RemoveFacts.

(** ** The remove path *)

Section RemoveRunFacts.

Context {net : Http.Network}.

Lemma remove_loop_unchanged (l : list string) (st : remove_state) :
  (forall c, c ∈ l -> c ∉ r_repos st) -> r_repos (remove_loop l st) = r_repos st.
Proof.
  revert st. induction l as [|c l IH]; intros st H; [reflexivity |].
  cbn [remove_loop]. unfold remove_step.
  rewrite bool_decide_eq_false_2 by (apply H, elem_of_cons; now left).
  rewrite IH; [reflexivity |]. cbn [r_repos]. intros x Hx. apply H, elem_of_cons. now right.
Qed.

Lemma remove_cmd_accepted (cfg : config) (it : set_iter) (args : list string) (w : world net) :
  args <> [] ->
  extract_repos_from_text (Text.join " " args) <> ∅ ->
  remove_cmd cfg it args w
  = ('(repos, sha) ← load_tracked cfg;
     let st := remove_loop (it (extract_repos_from_text (Text.join " " args)))
                 (RemoveState repos [] []) in
     (match r_removed st with
      | [] => mret tt
      | _ :: _ => save_tracked cfg (r_repos st) sha;; mret tt
      end);;
     reply_text (remove_message st)) w.
Proof.
  intros Hargs Hne. unfold remove_cmd. destruct args as [|a args]; [contradiction |].
  cbv zeta. now rewrite bool_decide_eq_false_2 by exact Hne.
Qed.

End RemoveRunFacts.

(** C2. The remove path, for arguments with at least one identifier, after
    the read of the registry [repos0] under the token [sha]; [l] is the
    candidates in the order of the loop and [fs] the state the loop ends in.
    The removed candidates are those of the registry and the others are not
    tracked. Each removal takes one entry of the working list away, entries
    that are no candidates stay and no entry comes in; in a registry without
    duplicates no candidate is left in the working list. When no candidate
    was removed the working list is the registry and the handler replies
    without a write; when one was, the write of the working list under [sha]
    is the next request. *)
Theorem remove_path (net : Http.Network) (cfg : config) (it : set_iter) (args : list string)
    (w w0 : world net) (repos0 : list string) (sha : Json.value) :
  args <> [] ->
  extract_repos_from_text (Text.join " " args) <> ∅ ->
  load_tracked cfg w = (Returns (repos0, sha), w0) ->
  let l := it (extract_repos_from_text (Text.join " " args)) in
  let fs := remove_loop l (RemoveState repos0 [] []) in
  r_removed fs = filter (fun c => c ∈ repos0) l
  /\ r_not_found fs = filter (fun c => c ∉ repos0) l
  /\ (forall c, c ∈ l -> c ∈ repos0 -> c ∈ r_removed fs /\ c ∉ r_not_found fs)
  /\ (forall c, c ∈ l -> c ∉ repos0 ->
                c ∈ r_not_found fs /\ (c ∉ r_removed fs) /\ c ∉ r_repos fs)
  /\ (length (r_repos fs) + length (r_removed fs) = length repos0)%nat
  /\ (forall x, x ∈ r_repos fs -> x ∈ repos0)
  /\ (forall x, x ∉ l -> x ∈ repos0 -> x ∈ r_repos fs)
  /\ (NoDup repos0 -> NoDup (r_repos fs) /\ forall c, c ∈ l -> c ∉ r_repos fs)
  /\ (r_removed fs = [] ->
      r_repos fs = repos0
      /\ remove_cmd cfg it args w
         = (Returns tt, World (w_net w0) (w_trace w0 ++ [Replied (remove_message fs)])))
  /\ (r_removed fs <> [] ->
      forall a st,
        Http.net_send net (store_write cfg (r_repos fs) sha) (w_net w0) = (a, st) ->
        exists o,
          save_tracked cfg (r_repos fs) sha w0
          = (o, after w0 (store_write cfg (r_repos fs) sha) st)
          /\ remove_cmd cfg it args w
             = match o with
               | Returns _ =>
                   (Returns tt,
                    World st (w_trace w0 ++ [Sent (store_write cfg (r_repos fs) sha);
                                             Replied (remove_message fs)]))
               | Raises e => (Raises e, after w0 (store_write cfg (r_repos fs) sha) st)
               end).
Proof.
  intros Hargs Hne Hload l fs.
  assert (Hnd : NoDup l) by apply NoDup_iter.
  destruct (remove_loop_spec l (RemoveState repos0 [] []) Hnd)
    as (Hrem & Hnf & Hlen & Hsub & Hkeep & Hdup).
  fold fs in Hrem, Hnf, Hlen, Hsub, Hkeep, Hdup.
  cbn [r_repos r_removed r_not_found app] in Hrem, Hnf, Hlen, Hsub, Hkeep, Hdup.
  assert (Hrun : remove_cmd cfg it args w
                 = ((match r_removed fs with
                     | [] => mret tt
                     | _ :: _ => save_tracked cfg (r_repos fs) sha;; mret tt
                     end);; reply_text (remove_message fs)) w0).
  { rewrite remove_cmd_accepted by assumption.
    erewrite bind_returns by exact Hload. reflexivity. }
  split; [exact Hrem |]. split; [exact Hnf |].
  split.
  { intros c Hc Hin. rewrite Hrem, Hnf, !list_elem_of_filter. tauto. }
  split.
  { intros c Hc Hout. rewrite Hrem, Hnf, !list_elem_of_filter.
    split; [tauto |]. split; [tauto |]. intros Hr. now apply Hout, Hsub. }
  split; [now rewrite Hrem |].
  split; [exact Hsub |]. split; [exact Hkeep |]. split; [exact Hdup |].
  split.
  - intros Hnone. split.
    + apply (remove_loop_unchanged l (RemoveState repos0 [] [])). cbn [r_repos].
      intros c Hc Hin. rewrite Hrem in Hnone.
      now apply (filter_nil_not_elem_of _ _ c Hnone).
    + rewrite Hrun, Hnone. reflexivity.
  - intros Hsome a st Hsend.
    destruct (save_tracked_sends cfg (r_repos fs) sha w0 a st Hsend) as [o Ho].
    exists o. split; [exact Ho |]. rewrite Hrun.
    destruct (r_removed fs) as [|c removed]; [contradiction |].
    destruct o as [t|e].
    + erewrite bind_returns; cycle 1.
      { erewrite bind_returns by exact Ho. reflexivity. }
      unfold reply_text, after. cbn [w_net w_trace]. now rewrite <- app_assoc.
    + erewrite bind_raises; [reflexivity |].
      erewrite bind_raises by exact Ho. reflexivity.
Qed.

(** The removal of a tracked and an untracked repository, the registry
    holding a/b and c/d under the token t1. *)
Lemma remove_path_witness :
  r_removed (remove_loop
               (iter_elements (extract_repos_from_text (Text.join " " ["a/b"; "x/y"])))
               (RemoveState ["a/b"; "c/d"] [] []))
  = filter (fun c => c ∈ ["a/b"; "c/d"])
      (iter_elements (extract_repos_from_text (Text.join " " ["a/b"; "x/y"]))).
Proof.
  refine (proj1 (remove_path Fake.net0 Fake.cfg0 iter_elements ["a/b"; "x/y"]
                   (Fake.start (Fake.state_of ["a/b"; "c/d"] "t1"))
                   (after (Fake.start (Fake.state_of ["a/b"; "c/d"] "t1"))
                      (store_read Fake.cfg0) (Fake.state_of ["a/b"; "c/d"] "t1"))
                   ["a/b"; "c/d"] (Json.Str "t1") _ _ _)).
  - discriminate.
  - intros E. apply (f_equal size) in E. vm_compute in E. discriminate.
  - vm_compute. reflexivity.
Defined.

(** * Further properties *)

(** ** What the extractor finds is in the text *)

Section OccurrenceFacts.

Lemma match_here_inv (s : string) (caps : list string) (s' : string) :
  match_here s = Some (caps, s') ->
  exists pre u r, caps = [u; r] /\ token u = true /\ token r = true
                  /\ s = pre +:+ (u +:+ "/" +:+ r) +:+ s' /\ ends_token s' = true.
Proof.
  assert (Hpair : forall pre t, s = pre +:+ t -> match_pair t = Some (caps, s') ->
            exists pre u r, caps = [u; r] /\ token u = true /\ token r = true
                            /\ s = pre +:+ (u +:+ "/" +:+ r) +:+ s' /\ ends_token s' = true).
  { intros pre t -> (u & r & ? & ? & ? & -> & ?)%match_pair_inv.
    exists pre, u, r. repeat split; try assumption. now rewrite !append_assoc. }
  unfold match_here.
  destruct (match_after "https://github.com/" s) as [x|] eqn:E1.
  - intros [= ->]. apply match_after_inv in E1 as (t & E & Ht). now apply (Hpair _ _ E).
  - destruct (match_after "http://github.com/" s) as [x|] eqn:E2.
    + intros [= ->]. apply match_after_inv in E2 as (t & E & Ht). now apply (Hpair _ _ E).
    + apply (Hpair EmptyString s). reflexivity.
Qed.

(** Every tuple of [findall] is a match at some place of the text. *)
Lemma findall_from_occurs (f : nat) (s : string) (caps : list string) :
  In caps (Re.findall_from f pattern s) ->
  exists p t s', s = p +:+ t /\ match_here t = Some (caps, s').
Proof.
  revert s. induction f as [|f IH]; intros s; simpl; [contradiction |].
  assert (Hnext : In caps match s with
                          | EmptyString => []
                          | String _ t => Re.findall_from f pattern t
                          end ->
                  exists p t s', s = p +:+ t /\ match_here t = Some (caps, s')).
  { destruct s as [|c t]; [contradiction |].
    intros (p & t' & s' & -> & Hm)%IH. exists (String c p), t', s'. now split. }
  rewrite match_at_pattern. destruct (match_here s) as [[caps' s']|] eqn:E; [| exact Hnext].
  intros [<-|H]; [exists EmptyString, s, s'; now split |].
  destruct (String.length s' <? String.length s)%nat; [| now apply Hnext].
  apply IH in H as (p & t & s'' & -> & Hm).
  apply match_here_inv in E as (pre & u & r & _ & _ & _ & -> & _).
  exists (pre +:+ (u +:+ "/" +:+ r) +:+ p), t, s''. split; [| exact Hm].
  now rewrite !append_assoc.
Qed.

Lemma identifiers_in_occurs (t x : string) :
  In x (identifiers_in t) ->
  exists u r p q, x = u +:+ "/" +:+ r /\ token u = true /\ token r = true
                  /\ t = p +:+ x +:+ q /\ ends_token q = true.
Proof.
  unfold identifiers_in. rewrite in_concat.
  intros (l & Hl & Hx). apply in_map_iff in Hl as (caps & <- & Hcaps).
  apply findall_from_occurs in Hcaps as (p & t' & s' & -> & Hm).
  apply match_here_inv in Hm as (pre & u & r & -> & Hu & Hr & -> & Hs').
  destruct Hx as [<-|[]]. exists u, r, (p +:+ pre), s'.
  repeat split; try assumption. now rewrite !append_assoc.
Qed.

Lemma replace_split (o n : ascii) (s a b : string) :
  Text.replace o n s = a +:+ b ->
  exists a' b', s = a' +:+ b' /\ Text.replace o n a' = a /\ Text.replace o n b' = b.
Proof.
  revert s. induction a as [|c a IH]; intros s H.
  - exists EmptyString, s. now repeat split.
  - destruct s as [|c' s]; [discriminate |]. simpl in H. injection H as Hc H.
    destruct (IH _ H) as (a' & b' & -> & Ha & Hb).
    exists (String c' a'), b'. repeat split; [| exact Hb]. simpl. now rewrite Hc, Ha.
Qed.

(** A text without the new character was not changed by the replacement. *)
Lemma replace_inv (o n : ascii) (s x : string) :
  Text.replace o n s = x -> all_chars (fun c => negb (Ascii.eqb c n)) x = true -> s = x.
Proof.
  revert x. induction s as [|c s IH]; intros x <-; [reflexivity |].
  simpl. intros [Hc Hs]%andb_true_iff. rewrite <- (IH _ eq_refl Hs) at 1.
  destruct (Ascii.eqb c o); [| reflexivity].
  rewrite Ascii.eqb_refl in Hc. discriminate.
Qed.

Lemma ends_token_replace (o : ascii) (s : string) :
  name_char o = false ->
  ends_token (Text.replace o " " s) = true -> ends_token s = true.
Proof.
  intros Ho. destruct s as [|c s]; [reflexivity |]. simpl.
  destruct (Ascii.eqb_spec c o) as [->|_]; [now rewrite Ho | trivial].
Qed.

Lemma name_char_no_space (c : ascii) : name_char c = true -> negb (Ascii.eqb c " ") = true.
Proof. intros H. destruct (Ascii.eqb_spec c " ") as [->|_]; [discriminate | reflexivity]. Qed.

Lemma identifier_no_space (u r : string) :
  token u = true -> token r = true ->
  all_chars (fun c => negb (Ascii.eqb c " ")) (u +:+ "/" +:+ r) = true.
Proof.
  intros [_ Hu]%andb_true_iff [_ Hr]%andb_true_iff.
  rewrite !all_chars_append.
  rewrite (all_chars_impl _ _ u name_char_no_space Hu).
  rewrite (all_chars_impl _ _ r name_char_no_space Hr). reflexivity.
Qed.

(** An occurrence in the text whose separators were made spaces is one in
    the text itself. *)
Lemma occurs_replace (o : ascii) (s p x q : string) :
  name_char o = false ->
  all_chars (fun c => negb (Ascii.eqb c " ")) x = true ->
  Text.replace o " " s = p +:+ x +:+ q -> ends_token q = true ->
  exists p' q', s = p' +:+ x +:+ q' /\ ends_token q' = true.
Proof.
  intros Ho Hx H Hq.
  apply replace_split in H as (p' & t & -> & _ & H).
  apply replace_split in H as (x' & q' & -> & Hx' & Hq').
  apply replace_inv in Hx' as ->; [| exact Hx].
  exists p', q'. split; [reflexivity |].
  apply (ends_token_replace o); [exact Ho | now rewrite Hq'].
Qed.

Lemma extract_occurs (text x : string) :
  x ∈ extract_repos_from_text text ->
  exists u r p q, x = u +:+ "/" +:+ r /\ token u = true /\ token r = true
                  /\ text = p +:+ x +:+ q /\ ends_token q = true.
Proof.
  rewrite extract_unfold, elem_of_list_to_set, list_elem_of_In.
  intros (u & r & p & q & -> & Hu & Hr & E & Hq)%identifiers_in_occurs.
  pose proof (identifier_no_space u r Hu Hr) as Hx.
  unfold normalize in E.
  apply occurs_replace in E as (p1 & q1 & E & Hq1); [| reflexivity | exact Hx | exact Hq].
  apply occurs_replace in E as (p2 & q2 & E & Hq2); [| reflexivity | exact Hx | exact Hq1].
  exists u, r, p2, q2. now repeat split.
Qed.

Lemma slashes_append (a b : string) : slashes (a +:+ b) = (slashes a + slashes b)%nat.
Proof. induction a as [|c a IH]; simpl; [reflexivity | rewrite IH; lia]. Qed.

Lemma slashes_none (s : string) :
  all_chars (fun c => negb (Ascii.eqb c "/")) s = true <-> slashes s = 0%nat.
Proof.
  induction s as [|c s IH]; simpl; [easy |].
  rewrite andb_true_iff, IH. destruct (Ascii.eqb c "/"); simpl; split; try lia; easy.
Qed.

Lemma slashes_token (s : string) : token s = true -> slashes s = 0%nat.
Proof.
  intros [_ H]%andb_true_iff. apply slashes_none. revert H. apply all_chars_impl.
  intros c Hc. destruct (Ascii.eqb_spec c "/") as [->|_]; [discriminate | reflexivity].
Qed.

Lemma extract_no_slash (text : string) :
  slashes text = 0%nat -> extract_repos_from_text text = ∅.
Proof.
  intros H. apply elem_of_equiv_empty_L. intros x Hx.
  apply extract_occurs in Hx as (u & r & p & q & -> & _ & _ & E & _).
  rewrite E, !slashes_append in H. simpl in H. lia.
Qed.

Lemma slashes_join (l : list string) :
  Forall (fun s => slashes s = 0%nat) l -> slashes (Text.join " " l) = 0%nat.
Proof.
  induction l as [|x l IH]; [reflexivity |].
  intros H. inversion H as [|? ? Hx Hl]; subst.
  destruct l as [|y l]; [exact Hx |].
  change (Text.join " " (x :: y :: l)) with (x +:+ " " +:+ Text.join " " (y :: l)).
  rewrite !slashes_append, Hx, (IH Hl). reflexivity.
Qed.

Lemma match_here_slash (t : string) : match_here (String "/" t) = None.
Proof. rewrite match_here_no_colon; [reflexivity |]. intros v w. discriminate. Qed.

Lemma identifiers_in_slash (t : string) :
  identifiers_in (String "/" t) = identifiers_in t.
Proof. unfold identifiers_in. now rewrite findall_skip by apply match_here_slash. Qed.

Lemma identifiers_in_token (t : string) : token t = true -> identifiers_in t = [].
Proof.
  intros [_ H]%andb_true_iff. unfold identifiers_in. now rewrite findall_names.
Qed.

End OccurrenceFacts.

(** ** Texts in pieces *)

Section SeparatorFacts.

Lemma span_sep (c : ascii) (s t : string) :
  name_char c = false ->
  span name_char (s +:+ String c t)
  = (fst (span name_char s), snd (span name_char s) +:+ String c t).
Proof.
  intros Hc. induction s as [|a s IH]; simpl; [now rewrite Hc |].
  destruct (name_char a); [| reflexivity].
  rewrite IH. now destruct (span name_char s).
Qed.

Lemma match_pair_sep (c : ascii) (s t : string) :
  name_char c = false -> Ascii.eqb c "/" = false ->
  match_pair (s +:+ String c t)
  = match match_pair s with
    | Some (caps, s') => Some (caps, s' +:+ String c t)
    | None => None
    end.
Proof.
  intros Hc Hs. unfold match_pair. rewrite (span_sep c s t Hc).
  destruct (span name_char s) as [u r1]. cbn [fst snd].
  destruct u as [|a u]; [reflexivity |].
  destruct r1 as [|c1 s2]; cbn [String.append]; [now rewrite Hs |].
  destruct (Ascii.eqb c1 "/"); [| reflexivity].
  rewrite (span_sep c s2 t Hc). destruct (span name_char s2) as [r s3]. cbn [fst snd].
  now destruct r.
Qed.

Lemma strip_prefix_sep (p s t : string) (c : ascii) :
  all_chars (fun a => negb (Ascii.eqb a c)) p = true ->
  Text.strip_prefix p (s +:+ String c t)
  = match Text.strip_prefix p s with
    | Some s' => Some (s' +:+ String c t)
    | None => None
    end.
Proof.
  revert s. induction p as [|a p IH]; intros s; [reflexivity |].
  simpl. intros [Ha Hp]%andb_true_iff. apply negb_true_iff in Ha.
  destruct s as [|b s]; cbn [String.append]; [now rewrite Ha |].
  destruct (Ascii.eqb a b); [now apply IH | reflexivity].
Qed.

Lemma separator_inv (c : ascii) :
  separator c = true ->
  name_char c = false /\ Ascii.eqb c "/" = false
  /\ all_chars (fun a => negb (Ascii.eqb a c)) "https://github.com/" = true
  /\ all_chars (fun a => negb (Ascii.eqb a c)) "http://github.com/" = true.
Proof.
  unfold separator. intros [[H1 H2]%andb_true_iff H3]%andb_true_iff.
  apply negb_true_iff in H1, H2, H3.
  assert (Hn : forall a, name_char a = true -> negb (Ascii.eqb a c) = true).
  { intros a Ha. destruct (Ascii.eqb_spec a c) as [->|_]; [congruence | reflexivity]. }
  rewrite Ascii.eqb_sym in H2. pose proof H3 as H3'. rewrite Ascii.eqb_sym in H3'.
  repeat split; try assumption; cbn [all_chars];
    rewrite ?H2, ?H3'; rewrite ?Hn by reflexivity; reflexivity.
Qed.

Lemma match_here_sep (c : ascii) (s t : string) :
  separator c = true ->
  match_here (s +:+ String c t)
  = match match_here s with
    | Some (caps, s') => Some (caps, s' +:+ String c t)
    | None => None
    end.
Proof.
  intros (Hc & Hs & H1 & H2)%separator_inv. unfold match_here, match_after.
  rewrite (strip_prefix_sep _ s t c H1), (strip_prefix_sep _ s t c H2).
  rewrite (match_pair_sep c s t Hc Hs).
  destruct (Text.strip_prefix "https://github.com/" s) as [s1|].
  - rewrite (match_pair_sep c s1 t Hc Hs). destruct (match_pair s1) as [[? ?]|]; [reflexivity |].
    destruct (Text.strip_prefix "http://github.com/" s) as [s2|]; [| reflexivity].
    rewrite (match_pair_sep c s2 t Hc Hs). now destruct (match_pair s2) as [[? ?]|].
  - destruct (Text.strip_prefix "http://github.com/" s) as [s2|]; [| reflexivity].
    rewrite (match_pair_sep c s2 t Hc Hs). now destruct (match_pair s2) as [[? ?]|].
Qed.

(** What is found in two pieces with a separator between them is what is
    found in the one and in the other. *)
Lemma findall_sep (c : ascii) (t : string) (n : nat) (s : string) :
  separator c = true -> (String.length s <= n)%nat ->
  Re.findall pattern (s +:+ String c t) = Re.findall pattern s ++ Re.findall pattern t.
Proof.
  intros Hc. revert s. induction n as [|n IH]; intros s Hn.
  - destruct s; [| simpl in Hn; lia].
    cbn [String.append]. rewrite findall_skip; [reflexivity |].
    apply (match_here_sep c EmptyString t Hc).
  - destruct s as [|a s1].
    + cbn [String.append]. rewrite findall_skip; [reflexivity |].
      apply (match_here_sep c EmptyString t Hc).
    + pose proof (match_here_sep c (String a s1) t Hc) as Hm.
      destruct (match_here (String a s1)) as [[caps s']|] eqn:E.
      * rewrite (findall_hit _ _ _ Hm), (findall_hit _ _ _ E).
        apply match_here_shorter in E. rewrite IH by lia. reflexivity.
      * cbn [String.append] in *. rewrite (findall_skip _ _ Hm), (findall_skip _ _ E).
        apply IH. simpl in Hn. lia.
Qed.

Lemma identifiers_in_sep (c : ascii) (s t : string) :
  separator c = true ->
  identifiers_in (s +:+ String c t) = identifiers_in s ++ identifiers_in t.
Proof.
  intros Hc. unfold identifiers_in.
  rewrite (findall_sep c t (String.length s) s Hc) by lia.
  now rewrite map_app, concat_app.
Qed.

Lemma normalize_append (a b : string) : normalize (a +:+ b) = normalize a +:+ normalize b.
Proof. unfold normalize. now rewrite !replace_append. Qed.

Lemma extract_sep (a b : string) (c : ascii) :
  separator c = true ->
  extract_repos_from_text (a +:+ String c b)
  = extract_repos_from_text a ∪ extract_repos_from_text b.
Proof.
  intros Hc. rewrite !extract_unfold, normalize_append.
  change (normalize (String c b))
    with (String (if Ascii.eqb (if Ascii.eqb c "," then " "%char else c) "010"
                  then " "%char else (if Ascii.eqb c "," then " "%char else c))
            (normalize b)).
  rewrite identifiers_in_sep; [apply list_to_set_app_L |].
  destruct (Ascii.eqb c ","); [reflexivity |].
  now destruct (Ascii.eqb c "010").
Qed.

End SeparatorFacts.

(** X1. Every identifier that the extractor returns is in the text as it
    stands: it is an owner and a name, two non-empty runs of name characters
    with one slash between them, and the text is some prefix, the
    identifier, and a rest that is empty or starts with a character that is
    no name character. Nothing is extracted that was not written. *)
Theorem extracted_identifier_occurs (text x : string) :
  x ∈ extract_repos_from_text text ->
  exists u r p q,
    x = u +:+ "/" +:+ r /\ token u = true /\ token r = true
    /\ slashes x = 1%nat
    /\ text = p +:+ x +:+ q /\ ends_token q = true.
Proof.
  intros (u & r & p & q & -> & Hu & Hr & E & Hq)%extract_occurs.
  exists u, r, p, q. repeat split; try assumption.
  rewrite !slashes_append, (slashes_token u Hu), (slashes_token r Hr). reflexivity.
Qed.

(** The identifier of a link in a sentence. *)
Lemma extracted_identifier_occurs_witness :
  exists u r p q,
    "octocat/Hello-World" = u +:+ "/" +:+ r /\ token u = true /\ token r = true
    /\ slashes "octocat/Hello-World" = 1%nat
    /\ "see https://github.com/octocat/Hello-World, please"
       = p +:+ "octocat/Hello-World" +:+ q
    /\ ends_token q = true.
Proof.
  apply (extracted_identifier_occurs
           "see https://github.com/octocat/Hello-World, please" "octocat/Hello-World").
  apply (bool_decide_eq_true_1
           ("octocat/Hello-World"
            ∈ extract_repos_from_text "see https://github.com/octocat/Hello-World, please")).
  vm_compute. reflexivity.
Defined.

(** X2. A text without a slash holds no identifier: the extractor returns
    the empty set (in particular for the empty text), a message with such a
    text is answered with the no-repositories reply and nothing else happens
    (no request, the network as before), and so is a removal whose arguments
    have no slash, with the reply of the removal. *)
Theorem no_slash_no_repository (net : Http.Network) (cfg : config) (it : set_iter)
    (w : world net) :
  (forall text, slashes text = 0%nat ->
     extract_repos_from_text text = ∅
     /\ process_repo_addition cfg it text w
        = (Returns tt, World (w_net w) (w_trace w ++ [Replied MSG_NONE_FOUND])))
  /\ (forall args, args <> [] -> Forall (fun a => slashes a = 0%nat) args ->
        remove_cmd cfg it args w
        = (Returns tt, World (w_net w) (w_trace w ++ [Replied MSG_NONE_FOR_REMOVAL]))).
Proof.
  split.
  - intros text H. pose proof (extract_no_slash text H) as E. split; [exact E |].
    unfold process_repo_addition. cbv zeta. now rewrite bool_decide_eq_true_2.
  - intros args Hargs H. unfold remove_cmd. destruct args as [|a args]; [contradiction |].
    cbv zeta. rewrite bool_decide_eq_true_2; [reflexivity |].
    apply extract_no_slash, slashes_join, H.
Qed.

(** A greeting as a message, and as the arguments of a removal. *)
Lemma no_slash_no_repository_witness :
  process_repo_addition Fake.cfg0 iter_elements "hello there"
    (Fake.start (Fake.state_of ["a/b"] "t1"))
  = (Returns tt, World (Fake.state_of ["a/b"] "t1" : Http.net_state Fake.net0)
                   ([] ++ [Replied MSG_NONE_FOUND]))
  /\ remove_cmd Fake.cfg0 iter_elements ["hello"; "there"]
       (Fake.start (Fake.state_of ["a/b"] "t1"))
     = (Returns tt, World (Fake.state_of ["a/b"] "t1" : Http.net_state Fake.net0)
                      ([] ++ [Replied MSG_NONE_FOR_REMOVAL])).
Proof.
  destruct (no_slash_no_repository Fake.net0 Fake.cfg0 iter_elements
              (Fake.start (Fake.state_of ["a/b"] "t1"))) as [Hadd Hrem].
  split.
  - apply (Hadd "hello there"). reflexivity.
  - apply (Hrem ["hello"; "there"]); [discriminate | repeat constructor].
Defined.

(** X3. Links below a repository. An identifier, bare or as a URL, followed
    by one more path segment gives the identifier alone; followed by two
    more segments it gives the identifier and, as a second identifier, the
    pair of those two segments (a link to a release page of a/b gives a/b
    and releases/tag). *)
Theorem extract_deep_link (f : form) (id x y : string) :
  is_identifier id = true -> token x = true -> token y = true ->
  extract_repos_from_text (render f id +:+ "/" +:+ x) = {[ id ]}
  /\ extract_repos_from_text (render f id +:+ "/" +:+ x +:+ "/" +:+ y)
     = {[ id; x +:+ "/" +:+ y ]}.
Proof.
  intros Hid Hx Hy.
  assert (Hxy : is_identifier (x +:+ "/" +:+ y) = true) by now apply is_identifier_tokens.
  split.
  - rewrite extract_unfold, normalize_plain.
    + rewrite identifiers_in_render by (assumption || reflexivity).
      cbn [String.append]. rewrite identifiers_in_slash, identifiers_in_token by exact Hx.
      simpl. apply (right_id_L ∅ (∪)).
    + rewrite all_chars_append, (render_plain f id Hid).
      cbn [String.append all_chars]. now rewrite (token_plain x Hx).
  - rewrite extract_unfold, normalize_plain.
    + rewrite identifiers_in_render by (assumption || reflexivity).
      cbn [String.append]. rewrite identifiers_in_slash.
      assert (Hin : identifiers_in (x +:+ String "/" y) = [x +:+ "/" +:+ y]).
      { rewrite <- (append_empty_r (x +:+ String "/" y)).
        change (x +:+ String "/" y) with (render Bare (x +:+ "/" +:+ y)).
        now rewrite identifiers_in_render by (assumption || reflexivity). }
      rewrite Hin. simpl. now rewrite (right_id_L ∅ (∪)).
    + rewrite all_chars_append, (render_plain f id Hid).
      cbn [String.append all_chars]. apply (identifier_plain _ Hxy).
Qed.

(** The link to a release of octocat/Hello-World. *)
Lemma extract_deep_link_witness :
  extract_repos_from_text (render HttpsUrl "octocat/Hello-World" +:+ "/" +:+ "releases")
  = {[ "octocat/Hello-World" ]}
  /\ extract_repos_from_text
       (render HttpsUrl "octocat/Hello-World" +:+ "/" +:+ "releases" +:+ "/" +:+ "tag")
     = {[ "octocat/Hello-World"; "releases" +:+ "/" +:+ "tag" ]}.
Proof.
  apply (extract_deep_link HttpsUrl "octocat/Hello-World" "releases" "tag"); reflexivity.
Defined.

(** X4. Texts in pieces. What is extracted from two texts with a separator
    between them (a character that is no name character, no colon and no
    slash: a space, a comma, a line break, a bracket) is what is extracted
    from the one together with what is extracted from the other: no
    identifier reaches over a separator. So the arguments of a command,
    joined by spaces, give the identifiers of each argument. *)
Theorem extract_separated :
  (forall (a b : string) (c : ascii),
      separator c = true ->
      extract_repos_from_text (a +:+ String c b)
      = extract_repos_from_text a ∪ extract_repos_from_text b)
  /\ (forall args : list string,
        extract_repos_from_text (Text.join " " args)
        = ⋃ (extract_repos_from_text <$> args)).
Proof.
  split; [apply extract_sep |].
  induction args as [|x args IH]; [reflexivity |].
  destruct args as [|y args].
  - cbn. now rewrite (right_id_L ∅ (∪)).
  - change (Text.join " " (x :: y :: args))
      with (x +:+ String " " (Text.join " " (y :: args))).
    rewrite extract_sep by reflexivity. now rewrite IH.
Qed.

(** Two links in parentheses with a semicolon between them. *)
Lemma extract_separated_witness :
  extract_repos_from_text ("(https://github.com/a/b" +:+ String ";" "c/d)")
  = extract_repos_from_text "(https://github.com/a/b" ∪ extract_repos_from_text "c/d)".
Proof. apply (proj1 extract_separated). reflexivity. Defined.

(** ** The store: answers that are no registry, refused writes, wrapped content *)

Section StoreExtras.

Context {net : Http.Network}.




Lemma a2b_newline (s : string) (quad_pos : nat) (leftchar : N) (pads : nat) :
  Codec.a2b_loop (NL +:+ s) quad_pos leftchar pads = Codec.a2b_loop s quad_pos leftchar pads.
Proof. reflexivity. Qed.

(** What comes before does not change how the loop treats equal rests. *)
Lemma a2b_prefix (a s s' : string) :
  (forall q lc p, Codec.a2b_loop s q lc p = Codec.a2b_loop s' q lc p) ->
  forall q lc p, Codec.a2b_loop (a +:+ s) q lc p = Codec.a2b_loop (a +:+ s') q lc p.
Proof.
  intros H. induction a as [|c a IH]; intros q lc p; [apply H |].
  cbn [String.append Codec.a2b_loop].
  destruct (Ascii.eqb c "="), (Codec.table_a2b c) as [n|], q as [|[|[|q]]];
    rewrite ?IH; reflexivity.
Qed.

(** Line breaks between the characters of a Base64 text are skipped. *)
Lemma a2b_join (l : list string) (rest : string) (q : nat) (lc : N) (p : nat) :
  Codec.a2b_loop (Text.join NL l +:+ rest) q lc p
  = Codec.a2b_loop (Text.join EmptyString l +:+ rest) q lc p.
Proof.
  revert q lc p. induction l as [|x l IH]; intros q lc p; [reflexivity |].
  destruct l as [|y l]; [reflexivity |].
  change (Text.join NL (x :: y :: l)) with (x +:+ NL +:+ Text.join NL (y :: l)).
  change (Text.join EmptyString (x :: y :: l))
    with (x +:+ EmptyString +:+ Text.join EmptyString (y :: l)).
  rewrite !append_assoc. apply a2b_prefix. intros q' lc' p'.
  rewrite a2b_newline. cbn [String.append]. apply IH.
Qed.

Lemma is_ascii_join (l : list string) :
  Codec.is_ascii (Text.join NL l) = Codec.is_ascii (Text.join EmptyString l).
Proof.
  induction l as [|x l IH]; [reflexivity |].
  destruct l as [|y l]; [reflexivity |].
  change (Text.join NL (x :: y :: l)) with (x +:+ NL +:+ Text.join NL (y :: l)).
  change (Text.join EmptyString (x :: y :: l))
    with (x +:+ EmptyString +:+ Text.join EmptyString (y :: l)).
  rewrite !is_ascii_append, IH. reflexivity.
Qed.

Lemma b64decode_join (l : list string) (pad : string) :
  Codec.b64decode (Text.join NL l +:+ pad)
  = Codec.b64decode (Text.join EmptyString l +:+ pad).
Proof.
  unfold Codec.b64decode. now rewrite !is_ascii_append, is_ascii_join, a2b_join.
Qed.

End StoreExtras.



(** X6. A write that fails. Answered with a failure status (400 to 599),
    [save_tracked] raises the HTTP error; a failure of the transport is
    raised as it is; in both cases the write was the one request and it is
    not repeated. On the store of the specification a write whose expected
    token is not the current one is answered with 409: [save_tracked] raises
    the HTTP error of the conflict, and the document and its token are as
    before. *)
Theorem save_tracked_refused :
  (forall (net : Http.Network) (cfg : config) (repos : list string) (sha : Json.value)
          (w : world net) (r : Http.response) (st : Http.net_state net),
      Http.net_send net (store_write cfg repos sha) (w_net w) = (Http.Answered r, st) ->
      http_failure (Http.status_code r) = true ->
      exists msg,
        save_tracked cfg repos sha w
        = (Raises (HTTPError msg), after w (store_write cfg repos sha) st))
  /\ (forall (net : Http.Network) (cfg : config) (repos : list string) (sha : Json.value)
             (w : world net) (msg : string) (st : Http.net_state net),
        Http.net_send net (store_write cfg repos sha) (w_net w) = (Http.Failed msg, st) ->
        save_tracked cfg repos sha w
        = (Raises (RequestException msg), after w (store_write cfg repos sha) st))
  /\ (forall (cfg : config) (mint : N -> string -> string) (provider : string -> Http.answer)
             (repos : list string) (sha : Json.value)
             (w : world (Fake.network cfg mint provider)),
        Fake.outage (w_net w) = None ->
        Fake.is_current sha (w_net w) = false ->
        save_tracked cfg repos sha w
        = (Raises (HTTPError ("409 Client Error: Conflict for url: " +:+ github_file_url cfg)),
           after w (store_write cfg repos sha) (w_net w))).
Proof.
  repeat split.
  - intros net cfg repos sha w r st H Hf. unfold save_tracked, requests_put.
    erewrite bind_returns by (apply send_answered, H).
    destruct (raise_for_status_failure (github_file_url cfg) r
                (after w (store_write cfg repos sha) st) Hf) as [msg Hmsg].
    exists msg. cbv beta. erewrite bind_raises by exact Hmsg. reflexivity.
  - intros net cfg repos sha w msg st H. unfold save_tracked, requests_put.
    erewrite bind_raises by (apply send_failed, H). reflexivity.
  - intros cfg mint provider repos sha w Hup Hcur. unfold save_tracked, requests_put.
    erewrite bind_returns; cycle 1.
    { apply send_answered. cbn [Http.net_send Fake.network]. unfold Fake.send.
      cbn [Http.rq_url Http.rq_method Http.rq_json].
      rewrite String.eqb_refl, Hup.
      unfold Fake.store_put, payload. cbn [Json.lookup].
      change (String.eqb "content" "content") with true.
      change (String.eqb "sha" "sha") with true.
      change (String.eqb "sha" "content") with false.
      change (String.eqb "message" "sha") with false.
      change (String.eqb "message" "content") with false.
      change (String.eqb "content" "sha") with false.
      cbv iota. rewrite Hcur. reflexivity. }
    cbv beta. erewrite bind_raises by reflexivity. reflexivity.
Qed.

(** A write under the token t0 when the document has the token t1. *)
Lemma save_tracked_refused_witness :
  save_tracked Fake.cfg0 ["x/y"] (Json.Str "t0") (Fake.start (Fake.state_of ["a/b"] "t1"))
  = (Raises (HTTPError ("409 Client Error: Conflict for url: "
                        +:+ github_file_url Fake.cfg0)),
     after (Fake.start (Fake.state_of ["a/b"] "t1"))
       (store_write Fake.cfg0 ["x/y"] (Json.Str "t0")) (Fake.state_of ["a/b"] "t1")).
Proof.
  apply (proj2 (proj2 save_tracked_refused) Fake.cfg0 Fake.mint0 Fake.provider0
           ["x/y"] (Json.Str "t0") (Fake.start (Fake.state_of ["a/b"] "t1")));
    reflexivity.
Defined.

(** X7. Content with line breaks. The store of the hosting provider sends
    the Base64 content of a document in lines. [load_tracked] reads it
    whatever the lines are: when the content of the answer is the Base64
    text that [save_tracked] wrote for a registry, cut into any pieces with a
    line break between them (and after the last, where the last piece is
    empty), the read returns that registry and the token of the answer. *)
Theorem load_tracked_line_wrapped (net : Http.Network) (cfg : config) (w : world net)
    (r : Http.response) (st : Http.net_state net) (members : list (string * Json.value))
    (pieces : list string) (sha : Json.value) (repos : list string) :
  Http.net_send net (store_read cfg) (w_net w) = (Http.Answered r, st) ->
  http_failure (Http.status_code r) = false ->
  Http.body r = Some (Json.Obj members) ->
  Json.lookup "content" members = Some (Json.Str (Text.join NL pieces)) ->
  Json.lookup "sha" members = Some sha ->
  Text.join EmptyString pieces = Codec.b64encode (Codec.utf8_encode (new_data repos)) ->
  load_tracked cfg w = (Returns (repos, sha), after w (store_read cfg) st).
Proof.
  intros H Hok Hbody Hc Hsha Hpieces.
  eapply load_tracked_present; try eassumption.
  unfold registry_of_content. rewrite b64decode_join, Hpieces.
  apply registry_roundtrip.
Qed.

(** The document of a/b, its Base64 content in two lines of twenty
    characters, each ended by a line break. *)
Lemma load_tracked_line_wrapped_witness :
  load_tracked Fake.cfg0
    (Fake.start
       (Fake.State
          (Some (Text.join NL ["ewogICJyZXBvcyI6IFsK"; "ICAgICJhL2IiCiAgXQp9"; EmptyString],
                 "t1")) 1 None))
  = (Returns (["a/b"], Json.Str "t1"),
     after (Fake.start
              (Fake.State
                 (Some (Text.join NL ["ewogICJyZXBvcyI6IFsK"; "ICAgICJhL2IiCiAgXQp9";
                                      EmptyString], "t1")) 1 None))
       (store_read Fake.cfg0)
       (Fake.State
          (Some (Text.join NL ["ewogICJyZXBvcyI6IFsK"; "ICAgICJhL2IiCiAgXQp9"; EmptyString],
                 "t1")) 1 None)).
Proof.
  refine (load_tracked_line_wrapped Fake.net0 Fake.cfg0
            (Fake.start
               (Fake.State
                  (Some (Text.join NL ["ewogICJyZXBvcyI6IFsK"; "ICAgICJhL2IiCiAgXQp9";
                                       EmptyString], "t1")) 1 None))
            _ _ _ ["ewogICJyZXBvcyI6IFsK"; "ICAgICJhL2IiCiAgXQp9"; EmptyString]
            _ ["a/b"] _ _ _ _ _ _); reflexivity.
Defined.

(** ** What a handler leaves in the trace *)

(** Two traces are the same events. *)
Ltac same_trace :=
  cbn [w_trace];
  repeat (cbn [map app]; rewrite ?map_app, ?map_map, ?app_nil_r, <- ?app_assoc);
  reflexivity.

Section ShapeFacts.

Context {net : Http.Network}.

Lemma iter_nonempty (it : set_iter) (X : gset string) :
  X <> ∅ -> exists c l, it X = c :: l.
Proof.
  intros H. destruct (it X) as [|c l] eqn:E; [| eauto].
  exfalso. apply H. apply leibniz_equiv, size_empty_inv.
  rewrite <- (length_iter it X), E. reflexivity.
Qed.

(** The events of one run of the add path. *)
Lemma process_shape (cfg : config) (it : set_iter) (text : string) (w : world net) :
  exists o w' reqs replies,
    process_repo_addition cfg it text w = (o, w')
    /\ w_trace w' = w_trace w ++ map Sent reqs ++ map Replied replies
    /\ match o with
       | Returns _ =>
           exists m, replies = [m]
             /\ (m = MSG_NONE_FOUND \/ m = MSG_TOO_MANY
                 \/ exists fs x, m = add_message fs
                      /\ (x ∈ a_added fs \/ x ∈ a_skipped fs \/ x ∈ a_failed fs))
       | Raises _ => replies = []
       end
    /\ (reqs = []
        \/ exists lookups writes,
             reqs = store_read cfg :: map lookup_request lookups ++ writes
             /\ NoDup lookups
             /\ (forall c, c ∈ lookups -> c ∈ extract_repos_from_text text)
             /\ (length lookups <= 20)%nat
             /\ (writes = [] \/ exists repos sha, writes = [store_write cfg repos sha])).
Proof.
  set (X := extract_repos_from_text text).
  destruct (decide (X = ∅)) as [HX|HX].
  { exists (Returns tt), (World (w_net w) (w_trace w ++ [Replied MSG_NONE_FOUND])),
      [], [MSG_NONE_FOUND].
    split; [unfold process_repo_addition; cbv zeta; now rewrite bool_decide_eq_true_2 |].
    split; [reflexivity |]. split; [eauto | now left]. }
  destruct (decide (20 < size X)%nat) as [Hbig|Hle].
  { exists (Returns tt), (World (w_net w) (w_trace w ++ [Replied MSG_TOO_MANY])),
      [], [MSG_TOO_MANY].
    split; [now apply process_too_many |].
    split; [reflexivity |]. split; [eauto | now left]. }
  apply Nat.nlt_ge in Hle.
  destruct (Http.net_send net (store_read cfg) (w_net w)) as [a st0] eqn:Es.
  destruct (load_tracked_sends cfg w a st0 Es) as [[[repos0 sha]|e] Hload].
  2:{ exists (Raises e), (after w (store_read cfg) st0), [store_read cfg], [].
      split.
      { rewrite process_accepted by assumption. now erewrite bind_raises by exact Hload. }
      split; [reflexivity |]. split; [reflexivity |]. right.
      exists [], []. repeat split; [constructor | intros c []%elem_of_nil | simpl; lia | now left]. }
  set (w0 := after w (store_read cfg) st0) in *.
  destruct (add_loop_returns (it X) (AddState repos0 [] [] []) w0) as (fs & wl & Hloop).
  pose proof (add_loop_trace _ _ _ _ _ (NoDup_iter it X) Hloop) as Htr.
  cbn [a_repos] in Htr.
  set (cs := filter (fun c => c ∉ repos0) (it X)) in *.
  assert (Hcs : NoDup cs /\ (forall c, c ∈ cs -> c ∈ X) /\ (length cs <= 20)%nat).
  { split; [apply NoDup_filter, NoDup_iter |]. split.
    - intros c [_ Hc]%list_elem_of_filter. now apply elem_of_iter in Hc.
    - etransitivity; [apply length_filter |]. now rewrite length_iter. }
  destruct Hcs as (Hnd & Hsub & Hlen).
  assert (Hbucket : exists x, x ∈ a_added fs \/ x ∈ a_skipped fs \/ x ∈ a_failed fs).
  { destruct (iter_nonempty it X HX) as (c & l & E).
    destruct (add_loop_covers (it X) repos0 fs w0 wl c (NoDup_iter it X) Hloop)
      as [H | [H | [H | [e H]]]]; [rewrite E; now left | eauto ..]. }
  destruct Hbucket as [x Hx].
  pose proof (process_after_loop cfg it text w w0 wl repos0 sha fs HX Hle Hload Hloop) as Hrun.
  destruct (a_added fs) as [|c added] eqn:Ea.
  - exists (Returns tt), (World (w_net wl) (w_trace wl ++ [Replied (add_message fs)])),
      (store_read cfg :: map lookup_request cs ++ []), [add_message fs].
    split; [exact Hrun |]. split.
    { cbn [w_trace]. rewrite Htr. unfold w0, after. same_trace. }
    split.
    { exists (add_message fs). split; [reflexivity |]. right; right.
      exists fs, x. split; [reflexivity |]. now rewrite Ea. }
    right. exists cs, []. repeat split; try assumption. now left.
  - destruct (Http.net_send net (store_write cfg (a_repos fs) sha) (w_net wl))
      as [a2 st2] eqn:Ew.
    destruct (save_tracked_sends cfg (a_repos fs) sha wl a2 st2 Ew) as [[t|e] Hsave].
    + exists (Returns tt),
        (World st2 (w_trace wl ++ [Sent (store_write cfg (a_repos fs) sha);
                                   Replied (add_message fs)])),
        (store_read cfg :: map lookup_request cs ++ [store_write cfg (a_repos fs) sha]),
        [add_message fs].
      split.
      { rewrite Hrun. erewrite bind_returns; cycle 1.
        { erewrite bind_returns by exact Hsave. reflexivity. }
        unfold reply_text, after. cbn [w_net w_trace]. now rewrite <- app_assoc. }
      split.
      { cbn [w_trace]. rewrite Htr. unfold w0, after. same_trace. }
      split.
      { exists (add_message fs). split; [reflexivity |]. right; right.
        exists fs, x. split; [reflexivity |]. now rewrite Ea. }
      right. exists cs, [store_write cfg (a_repos fs) sha].
      repeat split; try assumption. right; eauto.
    + exists (Raises e), (after wl (store_write cfg (a_repos fs) sha) st2),
        (store_read cfg :: map lookup_request cs ++ [store_write cfg (a_repos fs) sha]), [].
      split.
      { rewrite Hrun. erewrite bind_raises; [reflexivity |].
        erewrite bind_raises by exact Hsave. reflexivity. }
      split.
      { unfold after at 1. cbn [w_trace]. rewrite Htr. unfold w0, after. same_trace. }
      split; [reflexivity |].
      right. exists cs, [store_write cfg (a_repos fs) sha].
      repeat split; try assumption. right; eauto.
Qed.

End ShapeFacts.

Section RemoveShapeFacts.

Context {net : Http.Network}.

(** The events of one run of the remove path. *)
Lemma remove_shape (cfg : config) (it : set_iter) (args : list string) (w : world net) :
  exists o w' reqs replies,
    remove_cmd cfg it args w = (o, w')
    /\ w_trace w' = w_trace w ++ map Sent reqs ++ map Replied replies
    /\ match o with
       | Returns _ =>
           exists m, replies = [m]
             /\ (m = MSG_REMOVE_USAGE \/ m = MSG_NONE_FOR_REMOVAL
                 \/ exists fs x, m = remove_message fs
                      /\ (x ∈ r_removed fs \/ x ∈ r_not_found fs))
       | Raises _ => replies = []
       end
    /\ (reqs = [] \/ reqs = [store_read cfg]
        \/ exists repos sha, reqs = [store_read cfg; store_write cfg repos sha]).
Proof.
  destruct args as [|a0 args0] eqn:Eargs.
  { exists (Returns tt), (World (w_net w) (w_trace w ++ [Replied MSG_REMOVE_USAGE])),
      [], [MSG_REMOVE_USAGE].
    split; [reflexivity |]. split; [reflexivity |]. split; [eauto | now left]. }
  rewrite <- Eargs. assert (Hargs : args <> []) by now rewrite Eargs.
  clear Eargs. set (X := extract_repos_from_text (Text.join " " args)).
  destruct (decide (X = ∅)) as [HX|HX].
  { exists (Returns tt), (World (w_net w) (w_trace w ++ [Replied MSG_NONE_FOR_REMOVAL])),
      [], [MSG_NONE_FOR_REMOVAL].
    split.
    { unfold remove_cmd. destruct args; [contradiction |]. cbv zeta.
      now rewrite bool_decide_eq_true_2. }
    split; [reflexivity |]. split; [eauto | now left]. }
  destruct (Http.net_send net (store_read cfg) (w_net w)) as [a st0] eqn:Es.
  destruct (load_tracked_sends cfg w a st0 Es) as [[[repos0 sha]|e] Hload].
  2:{ exists (Raises e), (after w (store_read cfg) st0), [store_read cfg], [].
      split.
      { rewrite remove_cmd_accepted by assumption.
        now erewrite bind_raises by exact Hload. }
      split; [reflexivity |]. split; [reflexivity |]. right; now left. }
  set (w0 := after w (store_read cfg) st0) in *.
  set (fs := remove_loop (it X) (RemoveState repos0 [] [])).
  assert (Hrun : remove_cmd cfg it args w
                 = ((match r_removed fs with
                     | [] => mret tt
                     | _ :: _ => save_tracked cfg (r_repos fs) sha;; mret tt
                     end);; reply_text (remove_message fs)) w0).
  { rewrite remove_cmd_accepted by assumption.
    erewrite bind_returns by exact Hload. reflexivity. }
  assert (Hbucket : exists x, x ∈ r_removed fs \/ x ∈ r_not_found fs).
  { destruct (iter_nonempty it X HX) as (c & l & E). exists c.
    destruct (remove_loop_spec (it X) (RemoveState repos0 [] []) (NoDup_iter it X))
      as (Hrem & Hnf & _).
    fold fs in Hrem, Hnf. rewrite Hrem, Hnf. cbn [r_removed r_not_found r_repos app].
    rewrite !list_elem_of_filter, E.
    destruct (decide (c ∈ repos0)); [left | right]; (split; [assumption | now left]). }
  destruct Hbucket as [x Hx].
  destruct (r_removed fs) as [|c removed] eqn:Er.
  - exists (Returns tt), (World (w_net w0) (w_trace w0 ++ [Replied (remove_message fs)])),
      [store_read cfg], [remove_message fs].
    split; [exact Hrun |]. split; [unfold w0, after; same_trace |].
    split; [| right; now left].
    exists (remove_message fs). split; [reflexivity |]. right; right.
    exists fs, x. split; [reflexivity |]. now rewrite Er.
  - destruct (Http.net_send net (store_write cfg (r_repos fs) sha) (w_net w0))
      as [a2 st2] eqn:Ew.
    destruct (save_tracked_sends cfg (r_repos fs) sha w0 a2 st2 Ew) as [[t|e] Hsave].
    + exists (Returns tt),
        (World st2 (w_trace w0 ++ [Sent (store_write cfg (r_repos fs) sha);
                                   Replied (remove_message fs)])),
        [store_read cfg; store_write cfg (r_repos fs) sha], [remove_message fs].
      split.
      { rewrite Hrun. erewrite bind_returns; cycle 1.
        { erewrite bind_returns by exact Hsave. reflexivity. }
        unfold reply_text, after. cbn [w_net w_trace]. now rewrite <- app_assoc. }
      split; [unfold w0, after; same_trace |].
      split; [| right; right; eauto].
      exists (remove_message fs). split; [reflexivity |]. right; right.
      exists fs, x. split; [reflexivity |]. now rewrite Er.
    + exists (Raises e), (after w0 (store_write cfg (r_repos fs) sha) st2),
        [store_read cfg; store_write cfg (r_repos fs) sha], [].
      split.
      { rewrite Hrun. erewrite bind_raises; [reflexivity |].
        erewrite bind_raises by exact Hsave. reflexivity. }
      split; [unfold w0, after; same_trace |].
      split; [reflexivity | right; right; eauto].
Qed.

End RemoveShapeFacts.

Section FallbackFacts.

(** The fallback text of the add path is the message of three empty lists
    only. *)
Lemma add_message_default (st : add_state) :
  add_message st = "No new repositories added." ->
  a_added st = [] /\ a_skipped st = [] /\ a_failed st = [].
Proof.
  unfold add_message.
  destruct (a_added st) as [|x1 l1]; [| cbn; discriminate].
  destruct (a_skipped st) as [|x2 l2]; [| cbn; discriminate].
  destruct (a_failed st) as [|x3 l3]; [| cbn; discriminate].
  auto.
Qed.

Lemma remove_message_default (st : remove_state) :
  remove_message st = "Nothing to remove." ->
  r_removed st = [] /\ r_not_found st = [].
Proof.
  unfold remove_message.
  destruct (r_removed st) as [|x1 l1]; [| cbn; discriminate].
  destruct (r_not_found st) as [|x2 l2]; [| cbn; discriminate].
  auto.
Qed.

(** A reply among the new events of a trace is one of the replies. *)
Lemma replied_among (reqs : list Http.request) (replies : list string) (m : string) :
  Replied m ∈ map Sent reqs ++ map Replied replies -> m ∈ replies.
Proof.
  rewrite elem_of_app, !list_elem_of_In, !in_map_iff.
  intros [(rq & [=] & _) | (m' & [= ->] & H)]. exact H.
Qed.

End FallbackFacts.

(** X8. The events of the add path, whatever the text and the network.
    The handler sends its requests first and replies last; it replies once
    when it returns and not at all when it raises. Either it sends no
    request, or its requests are the read of the registry, then lookups of
    distinct candidates of the text, at most 20, then at most one write: 22
    requests at most. *)
Theorem process_repo_addition_events (net : Http.Network) (cfg : config) (it : set_iter)
    (text : string) (w : world net) :
  exists o w' reqs replies,
    process_repo_addition cfg it text w = (o, w')
    /\ w_trace w' = w_trace w ++ map Sent reqs ++ map Replied replies
    /\ match o with
       | Returns _ => length replies = 1%nat
       | Raises _ => replies = []
       end
    /\ (reqs = []
        \/ exists lookups writes,
             reqs = store_read cfg :: map lookup_request lookups ++ writes
             /\ NoDup lookups
             /\ (forall c, c ∈ lookups -> c ∈ extract_repos_from_text text)
             /\ (length lookups <= 20)%nat
             /\ (writes = [] \/ exists repos sha, writes = [store_write cfg repos sha]))
    /\ (length reqs <= 22)%nat.
Proof.
  destruct (process_shape cfg it text w) as (o & w' & reqs & replies & Hrun & Htr & Ho & Hreqs).
  exists o, w', reqs, replies. split; [exact Hrun |]. split; [exact Htr |].
  split; [| split; [exact Hreqs |]].
  - destruct o; [| exact Ho]. now destruct Ho as (m & -> & _).
  - destruct Hreqs as [-> | (lookups & writes & -> & _ & _ & Hlen & Hw)]; [simpl; lia |].
    cbn [length]. rewrite length_app, length_map.
    destruct Hw as [-> | (repos & sha & ->)]; simpl; lia.
Qed.

(** X9. The events of the remove path, whatever the arguments and the
    network. The handler replies once when it returns and not at all when
    it raises, after its requests. Its requests are none, or the read of the
    registry, or the read and then one write: never a lookup of a
    repository at the hosting provider. *)
Theorem remove_cmd_events (net : Http.Network) (cfg : config) (it : set_iter)
    (args : list string) (w : world net) :
  exists o w' reqs replies,
    remove_cmd cfg it args w = (o, w')
    /\ w_trace w' = w_trace w ++ map Sent reqs ++ map Replied replies
    /\ match o with
       | Returns _ => length replies = 1%nat
       | Raises _ => replies = []
       end
    /\ (reqs = [] \/ reqs = [store_read cfg]
        \/ exists repos sha, reqs = [store_read cfg; store_write cfg repos sha])
    /\ (forall repo, lookup_request repo ∉ reqs).
Proof.
  destruct (remove_shape cfg it args w) as (o & w' & reqs & replies & Hrun & Htr & Ho & Hreqs).
  exists o, w', reqs, replies. split; [exact Hrun |]. split; [exact Htr |].
  split; [| split; [exact Hreqs |]].
  - destruct o; [| exact Ho]. now destruct Ho as (m & -> & _).
  - intros repo.
    destruct Hreqs as [-> | [-> | (repos & sha & ->)]];
      rewrite ?elem_of_cons, ?elem_of_nil; unfold lookup_request, store_read, store_write;
      intros H; repeat destruct H as [H|H]; try discriminate H; exact H.
Qed.

(** X10. The fallback texts are never sent. In no run of the add path is
    the reply the text for no new repositories, and in no run of the remove
    path the text for nothing to remove: where the handler gets as far as
    its report, some candidate is in one of the lists of the report. *)
Theorem fallback_replies_unreachable (net : Http.Network) (cfg : config) (it : set_iter)
    (w : world net) :
  (forall text o w' evs,
      process_repo_addition cfg it text w = (o, w') ->
      w_trace w' = w_trace w ++ evs ->
      Replied "No new repositories added." ∉ evs)
  /\ (forall args o w' evs,
        remove_cmd cfg it args w = (o, w') ->
        w_trace w' = w_trace w ++ evs ->
        Replied "Nothing to remove." ∉ evs).
Proof.
  split.
  - intros text o w' evs Hrun Hevs Hin.
    destruct (process_shape cfg it text w) as (o1 & w1 & reqs & replies & Hrun1 & Htr & Ho & _).
    rewrite Hrun in Hrun1. injection Hrun1 as <- <-.
    rewrite Hevs in Htr. apply app_inv_head in Htr as ->.
    apply replied_among in Hin. destruct o as [[]|e]; [| now rewrite Ho in Hin].
    destruct Ho as (m & -> & Hm). apply list_elem_of_singleton in Hin as <-.
    destruct Hm as [Hm | [Hm | (fs & x & Hm & Hx)]]; [discriminate Hm | discriminate Hm |].
    symmetry in Hm. apply add_message_default in Hm as (H1 & H2 & H3).
    rewrite H1, H2, H3 in Hx. destruct Hx as [Hx | [Hx | Hx]]; now apply elem_of_nil in Hx.
  - intros args o w' evs Hrun Hevs Hin.
    destruct (remove_shape cfg it args w) as (o1 & w1 & reqs & replies & Hrun1 & Htr & Ho & _).
    rewrite Hrun in Hrun1. injection Hrun1 as <- <-.
    rewrite Hevs in Htr. apply app_inv_head in Htr as ->.
    apply replied_among in Hin. destruct o as [[]|e]; [| now rewrite Ho in Hin].
    destruct Ho as (m & -> & Hm). apply list_elem_of_singleton in Hin as <-.
    destruct Hm as [Hm | [Hm | (fs & x & Hm & Hx)]]; [discriminate Hm | discriminate Hm |].
    symmetry in Hm. apply remove_message_default in Hm as (H1 & H2).
    rewrite H1, H2 in Hx. destruct Hx as [Hx | Hx]; now apply elem_of_nil in Hx.
Qed.

(** A message with a repository that is tracked already. *)
Lemma fallback_replies_unreachable_witness :
  process_repo_addition Fake.cfg0 iter_elements "a/b"
    (Fake.start (Fake.state_of ["a/b"] "t1"))
  = (Returns tt,
     World (Fake.state_of ["a/b"] "t1" : Http.net_state Fake.net0)
       [Sent (store_read Fake.cfg0);
        Replied (add_message (AddState ["a/b"] [] ["a/b"] []))])
  /\ Replied "No new repositories added."
     ∉ [Sent (store_read Fake.cfg0);
        Replied (add_message (AddState ["a/b"] [] ["a/b"] []))].
Proof.
  split; [vm_compute; reflexivity |].
  apply (proj1 (fallback_replies_unreachable Fake.net0 Fake.cfg0 iter_elements
                  (Fake.start (Fake.state_of ["a/b"] "t1")))
           "a/b" (Returns tt)
           (World (Fake.state_of ["a/b"] "t1" : Http.net_state Fake.net0)
              [Sent (store_read Fake.cfg0);
               Replied (add_message (AddState ["a/b"] [] ["a/b"] []))])).
  - vm_compute. reflexivity.
  - reflexivity.
Defined.

(** ** The list handler and the edges of the clear handler *)

Section ListFacts.

Context {net : Http.Network}.

Lemma list_message_contains (repos : list string) (x : string) :
  x ∈ repos -> exists p q, list_message repos = p +:+ list_line x +:+ q.
Proof.
  intros Hx.
  destruct (join_contains NL (map list_line repos) (list_line x)) as (p & q & E).
  { apply list_elem_of_In, in_map, list_elem_of_In, Hx. }
  exists (("📋 Tracked repos:" +:+ NL) +:+ p), q.
  unfold list_message. now rewrite E, !append_assoc.
Qed.

Lemma load_tracked_absent (cfg : config) (w : world net) (r : Http.response)
    (st : Http.net_state net) :
  Http.net_send net (store_read cfg) (w_net w) = (Http.Answered r, st) ->
  Http.status_code r = 404%Z ->
  load_tracked cfg w = (Returns ([], Json.Null), after w (store_read cfg) st).
Proof.
  intros H Hs. unfold load_tracked, requests_get.
  erewrite bind_returns by (apply send_answered, H). now rewrite Hs.
Qed.

End ListFacts.

(** X11. The list handler sends one request, the read of the registry, and
    never a write. When the read returns an empty registry (as it does when
    the store has no document and answers 404) the reply is that nothing is
    tracked; otherwise the reply is the heading and one line for each
    entry of the registry, so it holds every tracked repository between
    backquotes; when the read raises, so does the handler, without a
    reply. *)
Theorem list_cmd_cases (net : Http.Network) (cfg : config) (w : world net)
    (a : Http.answer) (st : Http.net_state net) :
  Http.net_send net (store_read cfg) (w_net w) = (a, st) ->
  exists o,
    load_tracked cfg w = (o, after w (store_read cfg) st)
    /\ list_cmd cfg w
       = match o with
         | Returns ([], _) =>
             (Returns tt,
              World st (w_trace w ++ [Sent (store_read cfg); Replied MSG_NONE_TRACKED]))
         | Returns (repos, _) =>
             (Returns tt,
              World st (w_trace w ++ [Sent (store_read cfg); Replied (list_message repos)]))
         | Raises e => (Raises e, after w (store_read cfg) st)
         end
    /\ (forall repos sha x,
          o = Returns (repos, sha) -> x ∈ repos ->
          exists p q, list_message repos = p +:+ "- `" +:+ x +:+ "`" +:+ q)
    /\ (forall r, a = Http.Answered r -> Http.status_code r = 404%Z ->
                  o = Returns ([], Json.Null)).
Proof.
  intros Hsend. destruct (load_tracked_sends cfg w a st Hsend) as [o Hload].
  exists o. split; [exact Hload |]. split; [| split].
  - unfold list_cmd. destruct o as [[repos sha]|e].
    + erewrite bind_returns by exact Hload. cbv beta iota.
      destruct repos; unfold reply_markdown, reply_text, after; cbn [w_net w_trace];
        now rewrite <- app_assoc.
    + now erewrite bind_raises by exact Hload.
  - intros repos sha x _ Hx. destruct (list_message_contains repos x Hx) as (p & q & E).
    exists p, q. rewrite E. unfold list_line. now rewrite !append_assoc.
  - intros r -> Hs. rewrite (load_tracked_absent cfg w r st Hsend Hs) in Hload.
    now injection Hload as <-.
Qed.

(** The list of a registry of two repositories. *)
Lemma list_cmd_cases_witness :
  exists o,
    load_tracked Fake.cfg0 (Fake.start (Fake.state_of ["a/b"; "c/d"] "t1"))
    = (o, after (Fake.start (Fake.state_of ["a/b"; "c/d"] "t1")) (store_read Fake.cfg0)
            (Fake.state_of ["a/b"; "c/d"] "t1"))
    /\ list_cmd Fake.cfg0 (Fake.start (Fake.state_of ["a/b"; "c/d"] "t1"))
       = match o with
         | Returns ([], _) =>
             (Returns tt,
              World (Fake.state_of ["a/b"; "c/d"] "t1" : Http.net_state Fake.net0)
                ([] ++ [Sent (store_read Fake.cfg0); Replied MSG_NONE_TRACKED]))
         | Returns (repos, _) =>
             (Returns tt,
              World (Fake.state_of ["a/b"; "c/d"] "t1" : Http.net_state Fake.net0)
                ([] ++ [Sent (store_read Fake.cfg0); Replied (list_message repos)]))
         | Raises e =>
             (Raises e,
              after (Fake.start (Fake.state_of ["a/b"; "c/d"] "t1")) (store_read Fake.cfg0)
                (Fake.state_of ["a/b"; "c/d"] "t1"))
         end.
Proof.
  destruct (list_cmd_cases Fake.net0 Fake.cfg0 (Fake.start (Fake.state_of ["a/b"; "c/d"] "t1"))
              (Fake.answer_json 200 "OK"
                 (Json.Obj [("content",
                             Json.Str (Codec.b64encode
                                         (Codec.utf8_encode (new_data ["a/b"; "c/d"]))));
                            ("sha", Json.Str "t1")]))
              (Fake.state_of ["a/b"; "c/d"] "t1")) as (o & Hload & Hlist & _).
  - reflexivity.
  - exists o. split; [exact Hload | exact Hlist].
Defined.

(** ** The store of the tests *)

Section FakeFacts.

Context (cfg : config) (mint : N -> string -> string) (provider : string -> Http.answer).

Lemma fake_read (w : world (Fake.network cfg mint provider)) (repos : list string)
    (sha : Json.value) :
  Fake.outage (w_net w) = None -> stored (w_net w) repos sha ->
  load_tracked cfg w = (Returns (repos, sha), after w (store_read cfg) (w_net w)).
Proof.
  intros Hup Hst. unfold stored in Hst.
  destruct (Fake.document (w_net w)) as [[c t]|] eqn:Ed.
  - destruct Hst as [Hreg ->].
    apply (load_tracked_present cfg w
             (Http.Response 200 "OK"
                (Some (Json.Obj [("content", Json.Str c); ("sha", Json.Str t)])))
             (w_net w) [("content", Json.Str c); ("sha", Json.Str t)] c (Json.Str t) repos);
      try reflexivity; [| exact Hreg].
    cbn [Http.net_send Fake.network]. unfold Fake.send, store_read.
    cbn [Http.rq_url Http.rq_method]. rewrite String.eqb_refl, Hup.
    unfold Fake.store_get. now rewrite Ed.
  - destruct Hst as [-> ->].
    apply (load_tracked_absent cfg w
             (Http.Response 404 "Not Found"
                (Some (Json.Obj [("message", Json.Str "Not Found")]))));
      [| reflexivity].
    cbn [Http.net_send Fake.network]. unfold Fake.send, store_read.
    cbn [Http.rq_url Http.rq_method]. rewrite String.eqb_refl, Hup.
    unfold Fake.store_get. now rewrite Ed.
Qed.

Lemma stored_current (st : Fake.state) (repos : list string) (sha : Json.value) :
  stored st repos sha -> Fake.is_current sha st = true.
Proof.
  unfold stored, Fake.is_current. destruct (Fake.document st) as [[c t]|].
  - intros [_ ->]. apply String.eqb_refl.
  - now intros [_ ->].
Qed.

Lemma stored_written (st : Fake.state) (repos : list string) :
  stored (written mint st repos) repos
    (Json.Str (mint (Fake.writes st)
                 (Codec.b64encode (Codec.utf8_encode (new_data repos))))).
Proof. unfold stored, written. cbn. split; [apply registry_roundtrip | reflexivity]. Qed.

Lemma fake_write (w : world (Fake.network cfg mint provider)) (repos : list string)
    (sha : Json.value) :
  Fake.outage (w_net w) = None -> Fake.is_current sha (w_net w) = true ->
  save_tracked cfg repos sha w
  = (Returns (Json.Str (mint (Fake.writes (w_net w))
                          (Codec.b64encode (Codec.utf8_encode (new_data repos))))),
     after w (store_write cfg repos sha) (written mint (w_net w) repos)).
Proof.
  intros Hup Hcur.
  eapply save_tracked_accepted.
  - cbn [Http.net_send Fake.network]. unfold Fake.send, store_write.
    cbn [Http.rq_url Http.rq_method Http.rq_json]. rewrite String.eqb_refl, Hup.
    unfold Fake.store_put, payload. cbn [Json.lookup].
    change (String.eqb "content" "content") with true.
    change (String.eqb "sha" "sha") with true.
    change (String.eqb "sha" "content") with false.
    change (String.eqb "message" "sha") with false.
    change (String.eqb "message" "content") with false.
    change (String.eqb "content" "sha") with false.
    cbv iota. rewrite Hcur. reflexivity.
  - reflexivity.
  - reflexivity.
  - reflexivity.
  - reflexivity.
Qed.

End FakeFacts.



(** ** The registry that the loops leave *)

Section RegistryFacts.

Lemma filter_all (P : string -> Prop) `{!forall x, Decision (P x)} (l : list string) :
  (forall x, x ∈ l -> P x) -> filter P l = l.
Proof.
  induction l as [|y l IH]; intros HP; [reflexivity |].
  rewrite filter_cons_True by (apply HP, elem_of_cons; now left).
  rewrite IH; [reflexivity |]. intros x Hx. apply HP, elem_of_cons. now right.
Qed.

(** In a list without repetition, [repos.remove(c)] leaves what is not [c]. *)
Lemma list_remove_filter (c : string) (l : list string) :
  NoDup l -> list_remove c l = filter (fun x => x <> c) l.
Proof.
  induction l as [|y l IH]; [reflexivity |].
  intros [Hy Hl]%NoDup_cons. cbn [list_remove].
  destruct (bool_decide_reflect (y = c)) as [->|Hne].
  - rewrite filter_cons_False by tauto. symmetry. apply filter_all.
    intros x Hx ->. contradiction.
  - rewrite filter_cons_True by exact Hne. now rewrite IH.
Qed.

Lemma remove_loop_filter (l : list string) (st : remove_state) :
  NoDup (r_repos st) ->
  r_repos (remove_loop l st) = filter (fun x => x ∉ l) (r_repos st).
Proof.
  revert st. induction l as [|c l IH]; intros st Hnd.
  - cbn [remove_loop]. symmetry. apply filter_all. intros x _. apply not_elem_of_nil.
  - cbn [remove_loop]. unfold remove_step.
    destruct (bool_decide_reflect (c ∈ r_repos st)) as [Hin|Hout].
    + rewrite IH by (cbn [r_repos]; now apply list_remove_NoDup).
      cbn [r_repos]. rewrite list_remove_filter by exact Hnd.
      rewrite list_filter_filter. apply filter_agree. intros x _.
      rewrite elem_of_cons. tauto.
    + rewrite IH by exact Hnd. cbn [r_repos]. apply filter_agree. intros x Hx.
      rewrite elem_of_cons. split; [| tauto]. intros Hl [->|Hxl]; contradiction.
Qed.

Lemma list_remove_middle (c : string) (l0 x : list string) :
  c ∉ l0 -> list_remove c (l0 ++ c :: x) = l0 ++ x.
Proof.
  induction l0 as [|y l0 IH]; intros Hc; cbn [app list_remove].
  - now rewrite bool_decide_eq_true_2.
  - rewrite bool_decide_eq_false_2 by (intros ->; apply Hc; now left).
    rewrite IH; [reflexivity |]. intros H. apply Hc. now right.
Qed.

(** Removing, one by one, what was appended to a list gives the list. *)
Lemma remove_loop_appended (x l0 rm nf : list string) :
  NoDup x -> (forall c, c ∈ x -> c ∉ l0) ->
  remove_loop x (RemoveState (l0 ++ x) rm nf) = RemoveState l0 (rm ++ x) nf.
Proof.
  revert rm. induction x as [|c x IH]; intros rm Hnd Hout.
  - cbn [remove_loop]. now rewrite !app_nil_r.
  - apply NoDup_cons in Hnd as [Hc Hnd]. cbn [remove_loop]. unfold remove_step.
    cbn [r_repos r_removed r_not_found].
    rewrite bool_decide_eq_true_2 by (apply elem_of_app; right; now left).
    rewrite list_remove_middle by (apply Hout; now left).
    rewrite IH; [now rewrite <- app_assoc | exact Hnd |].
    intros c' Hc'. apply Hout. now right.
Qed.

Context {net : Http.Network}.

(** The candidates that the add loop appends are distinct and new. *)
Lemma add_loop_added (l : list string) (st fs : add_state) (w wl : world net) :
  add_loop l st w = (Returns fs, wl) ->
  exists x, a_repos fs = a_repos st ++ x /\ a_added fs = a_added st ++ x
            /\ NoDup x /\ forall c, c ∈ x -> c ∉ a_repos st.
Proof.
  revert st w. induction l as [|c l IH]; intros st w H.
  - cbn in H. injection H as <- <-. exists []. rewrite !app_nil_r.
    repeat split; [constructor | intros c []%elem_of_nil].
  - destruct (add_step_cases c st w) as (st' & w' & Hstep & Hcases).
    rewrite (add_loop_cons _ _ _ _ _ _ Hstep) in H.
    destruct (IH _ _ H) as (x & Hr & Ha & Hnd & Hnew).
    destruct Hcases as [(Hin & -> & ->) | (Hout & _ & [-> | [entry ->]])];
      cbn [skip accept fail a_repos a_added] in *.
    + exists x. now repeat split.
    + exists (c :: x). rewrite <- !app_assoc in *. cbn [app] in *.
      repeat split; try assumption.
      * apply NoDup_cons. split; [| exact Hnd].
        intros Hc. apply (Hnew c Hc). apply elem_of_app. right. now left.
      * intros c' [->|Hc']%elem_of_cons; [exact Hout |].
        intros Hst. apply (Hnew c' Hc'). apply elem_of_app. now left.
    + exists x. now repeat split.
Qed.

End RegistryFacts.

(** X13. What a removal writes. For a registry without repetition, the
    list that the remove loop leaves is the registry that was read without
    the candidates, in the order it had: it does not depend on the order in
    which the loop takes the candidates. When a candidate is in the
    registry, that list is what the handler writes, under the token of the
    read; when none is, the list is the registry. *)
Theorem remove_writes_filtered (net : Http.Network) (cfg : config) (it : set_iter)
    (args : list string) (w w0 : world net) (repos0 : list string) (sha : Json.value) :
  args <> [] ->
  load_tracked cfg w = (Returns (repos0, sha), w0) ->
  NoDup repos0 ->
  let X := extract_repos_from_text (Text.join " " args) in
  let kept := filter (fun x => x ∉ X) repos0 in
  let fs := remove_loop (it X) (RemoveState repos0 [] []) in
  r_repos fs = kept
  /\ ((exists c, c ∈ X /\ c ∈ repos0) ->
      forall a st,
        Http.net_send net (store_write cfg kept sha) (w_net w0) = (a, st) ->
        exists o,
          save_tracked cfg kept sha w0 = (o, after w0 (store_write cfg kept sha) st)
          /\ remove_cmd cfg it args w
             = match o with
               | Returns _ =>
                   (Returns tt,
                    World st (w_trace w0 ++ [Sent (store_write cfg kept sha);
                                             Replied (remove_message fs)]))
               | Raises e => (Raises e, after w0 (store_write cfg kept sha) st)
               end)
  /\ ((forall c, c ∈ X -> c ∉ repos0) -> kept = repos0).
Proof.
  intros Hargs Hload Hnd X kept fs.
  assert (Hkept : r_repos fs = kept).
  { unfold fs. rewrite remove_loop_filter by exact Hnd. cbn [r_repos].
    apply filter_agree. intros x _. now rewrite elem_of_iter. }
  split; [exact Hkept |]. split.
  - intros (c & HcX & Hc) a st Hsend.
    assert (HX : X <> ∅) by (intros E; rewrite E in HcX; now apply elem_of_empty in HcX).
    destruct (save_tracked_sends cfg kept sha w0 a st Hsend) as [o Ho].
    exists o. split; [exact Ho |].
    rewrite remove_cmd_accepted by assumption.
    erewrite bind_returns by exact Hload. cbv beta iota zeta. fold X. fold fs.
    destruct (remove_loop_spec (it X) (RemoveState repos0 [] []) (NoDup_iter it X))
      as (Hrem & _).
    fold fs in Hrem. cbn [r_removed r_repos app] in Hrem.
    assert (Hc' : c ∈ r_removed fs).
    { rewrite Hrem. apply list_elem_of_filter. split; [exact Hc | now apply elem_of_iter]. }
    destruct (r_removed fs) as [|c1 removed]; [now apply elem_of_nil in Hc' |].
    rewrite Hkept. destruct o as [t|e].
    + erewrite bind_returns; cycle 1.
      { erewrite bind_returns by exact Ho. reflexivity. }
      unfold reply_text, after. cbn [w_net w_trace]. now rewrite <- app_assoc.
    + erewrite bind_raises; [reflexivity |].
      erewrite bind_raises by exact Ho. reflexivity.
  - intros Hnone. apply filter_all. intros x Hx HxX. now apply (Hnone x).
Qed.

(** The removal of a/b and x/y from the registry of a/b and c/d. *)
Lemma remove_writes_filtered_witness :
  r_repos (remove_loop
             (iter_elements (extract_repos_from_text (Text.join " " ["a/b"; "x/y"])))
             (RemoveState ["a/b"; "c/d"] [] []))
  = filter (fun x => x ∉ extract_repos_from_text (Text.join " " ["a/b"; "x/y"]))
      ["a/b"; "c/d"].
Proof.
  refine (proj1 (remove_writes_filtered Fake.net0 Fake.cfg0 iter_elements ["a/b"; "x/y"]
                   (Fake.start (Fake.state_of ["a/b"; "c/d"] "t1"))
                   (after (Fake.start (Fake.state_of ["a/b"; "c/d"] "t1"))
                      (store_read Fake.cfg0) (Fake.state_of ["a/b"; "c/d"] "t1"))
                   ["a/b"; "c/d"] (Json.Str "t1") _ _ _)).
  - discriminate.
  - vm_compute. reflexivity.
  - apply (bool_decide_eq_true_1 (NoDup ["a/b"; "c/d"])). vm_compute. reflexivity.
Defined.

(** X14. Adding and taking back. Whatever the candidates, the registry
    and the network: when the add loop has run, removing the candidates that
    it reports as added from the list that it leaves gives the registry
    that the loop started from, entry for entry; every one of them is
    removed and none is reported as not tracked. *)
Theorem add_then_remove_restores (net : Http.Network) (l repos0 : list string)
    (fs : add_state) (w0 wl : world net) :
  add_loop l (AddState repos0 [] [] []) w0 = (Returns fs, wl) ->
  remove_loop (a_added fs) (RemoveState (a_repos fs) [] [])
  = RemoveState repos0 (a_added fs) [].
Proof.
  intros (x & Hr & Ha & Hnd & Hnew)%add_loop_added.
  cbn [a_repos a_added app] in Hr, Ha, Hnew. rewrite Hr, Ha.
  now apply (remove_loop_appended x repos0 [] []).
Qed.

(** octocat/Hello-World and the unknown x/y, offered to the registry of
    a/b. *)
Lemma add_then_remove_restores_witness :
  remove_loop ["octocat/Hello-World"]
    (RemoveState ["a/b"; "octocat/Hello-World"] [] [])
  = RemoveState ["a/b"] ["octocat/Hello-World"] [].
Proof.
  apply (add_then_remove_restores Fake.net0 ["octocat/Hello-World"; "x/y"] ["a/b"]
           (AddState ["a/b"; "octocat/Hello-World"] ["octocat/Hello-World"] [] ["x/y"])
           (Fake.start Fake.empty_state)
           (World (Fake.empty_state : Http.net_state Fake.net0)
              [Sent (lookup_request "octocat/Hello-World"); Sent (lookup_request "x/y")])).
  vm_compute. reflexivity.
Defined.

(** ** The add path on the store of the tests *)

Section FakeLoopFacts.

Context (cfg : config) (mint : N -> string -> string) (provider : string -> Http.answer).

Lemma slashes_identifier (c : string) : is_identifier c = true -> slashes c = 1%nat.
Proof.
  intros (u & r & -> & Hu & Hr)%is_identifier_inv.
  rewrite !slashes_append, (slashes_token u Hu), (slashes_token r Hr). reflexivity.
Qed.

(** The lookup of an identifier does not go to the document of the store. *)
Lemma lookup_not_store (c : string) :
  is_identifier c = true ->
  String.eqb ("https://api.github.com/repos/" +:+ c) (github_file_url cfg) = false.
Proof.
  intros Hc. apply String.eqb_neq. unfold github_file_url. intros E.
  apply (f_equal (Text.strip_prefix "https://api.github.com/repos/")) in E.
  rewrite !strip_prefix_append in E. injection E as E.
  apply (f_equal slashes) in E. rewrite (slashes_identifier c Hc) in E.
  rewrite !slashes_append in E. simpl in E. rewrite !slashes_append in E. simpl in E. lia.
Qed.

Lemma fake_lookup (c : string) (st : Fake.state) :
  is_identifier c = true ->
  Fake.send cfg mint provider (lookup_request c) st = (provider c, st).
Proof.
  intros Hc. unfold Fake.send, lookup_request. cbn [Http.rq_url Http.rq_method].
  now rewrite (lookup_not_store c Hc), strip_prefix_append.
Qed.

Lemma fake_validate (c : string) (w : world (Fake.network cfg mint provider)) :
  is_identifier c = true ->
  validate_repo_exists c w
  = (match provider c with
     | Http.Answered r => Returns (Http.ok r)
     | Http.Failed msg => Raises (RequestException msg)
     end, after w (lookup_request c) (w_net w)).
Proof. intros Hc. apply validate_repo_exists_sends. now apply fake_lookup. Qed.

Lemma fake_step (c : string) (st : add_state) (w : world (Fake.network cfg mint provider)) :
  is_identifier c = true ->
  exists st' w',
    add_step c st w = (Returns st', w') /\ w_net w' = w_net w
    /\ ((c ∈ a_repos st /\ st' = skip c st)
        \/ ((c ∉ a_repos st) /\ found_at provider c = true /\ st' = accept c st)
        \/ ((c ∉ a_repos st) /\ found_at provider c = false
            /\ exists entry, st' = fail entry st)).
Proof.
  intros Hc. destruct (decide (c ∈ a_repos st)) as [Hin|Hout].
  - exists (skip c st), w. split; [now apply add_step_present |]. split; [reflexivity |].
    now left.
  - rewrite (add_step_absent _ _ _ Hout), (fake_validate c w Hc). unfold found_at.
    destruct (provider c) as [r|msg]; [destruct (Http.ok r) |];
      eexists _, _; (split; [reflexivity |]); (split; [reflexivity |]); right;
      [left | right | right]; repeat split; try assumption; eauto.
Qed.

Lemma fake_loop (l : list string) (st fs : add_state)
    (w wl : world (Fake.network cfg mint provider)) :
  (forall c, c ∈ l -> is_identifier c = true) ->
  add_loop l st w = (Returns fs, wl) ->
  w_net wl = w_net w
  /\ exists x,
       a_repos fs = a_repos st ++ x /\ a_added fs = a_added st ++ x
       /\ (forall c, c ∈ x -> c ∈ l /\ (c ∉ a_repos st) /\ found_at provider c = true)
       /\ (forall c, c ∈ l -> c ∈ a_repos fs \/ found_at provider c = false).
Proof.
  revert st w. induction l as [|c l IH]; intros st w Hid H.
  - cbn in H. injection H as <- <-. split; [reflexivity |]. exists [].
    rewrite !app_nil_r.
    split; [reflexivity |]. split; [reflexivity |].
    split; intros c []%elem_of_nil.
  - destruct (fake_step c st w) as (st' & w' & Hstep & Hnet & Hcases);
      [apply Hid; now left |].
    rewrite (add_loop_cons _ _ _ _ _ _ Hstep) in H.
    destruct (IH st' w') as (Hnet' & x & Hr & Ha & Hx & Hl);
      [intros c' Hc'; apply Hid; now right | exact H |].
    split; [now rewrite Hnet' |].
    destruct Hcases as [(Hin & ->) | [(Hout & Hfound & ->) | (Hout & Hfound & entry & ->)]];
      cbn [skip accept fail a_repos a_added] in *.
    + exists x. repeat split; try assumption.
      * right. apply (Hx _ H0).
      * apply (Hx _ H0).
      * apply (Hx _ H0).
      * intros c' [->|Hc']%elem_of_cons; [| now apply Hl].
        left. rewrite Hr. apply elem_of_app. now left.
    + exists (c :: x). rewrite <- !app_assoc in *. cbn [app] in *.
      repeat split; try assumption.
      * apply elem_of_cons in H0 as [->|H0]; [now left | right; apply (Hx _ H0)].
      * apply elem_of_cons in H0 as [->|H0]; [exact Hout |].
        intros Hc. apply (Hx _ H0). apply elem_of_app. now left.
      * apply elem_of_cons in H0 as [->|H0]; [exact Hfound | apply (Hx _ H0)].
      * intros c' [->|Hc']%elem_of_cons; [| now apply Hl].
        left. rewrite Hr. apply elem_of_app. right. now left.
    + exists x. repeat split; try assumption.
      * right. apply (Hx _ H0).
      * apply (Hx _ H0).
      * apply (Hx _ H0).
      * intros c' [->|Hc']%elem_of_cons; [now right | now apply Hl].
Qed.

(** One run of the add path on the store of the tests, the store up and
    holding the registry [repos0]. *)
Lemma fake_run (it : set_iter) (text : string) (w : world (Fake.network cfg mint provider))
    (repos0 : list string) (sha : Json.value) :
  Fake.outage (w_net w) = None ->
  stored (w_net w) repos0 sha ->
  extract_repos_from_text text <> ∅ ->
  (size (extract_repos_from_text text) <= 20)%nat ->
  exists fs wl,
    add_loop (it (extract_repos_from_text text)) (AddState repos0 [] [] [])
      (after w (store_read cfg) (w_net w)) = (Returns fs, wl)
    /\ a_repos fs = repos0 ++ a_added fs
    /\ (forall c, c ∈ a_repos fs
                  <-> c ∈ repos0
                      \/ (c ∈ extract_repos_from_text text /\ found_at provider c = true))
    /\ (forall c, c ∈ a_added fs ->
                  c ∈ extract_repos_from_text text /\ (c ∉ repos0)
                  /\ found_at provider c = true)
    /\ process_repo_addition cfg it text w
       = match a_added fs with
         | [] =>
             (Returns tt,
              @World (Fake.network cfg mint provider) (w_net w)
                (w_trace wl ++ [Replied (add_message fs)]))
         | _ :: _ =>
             (Returns tt,
              @World (Fake.network cfg mint provider) (written mint (w_net w) (a_repos fs))
                (w_trace wl ++ [Sent (store_write cfg (a_repos fs) sha);
                                Replied (add_message fs)]))
         end.
Proof.
  intros Hup Hst HX Hle. set (X := extract_repos_from_text text) in *.
  pose proof (fake_read cfg mint provider w repos0 sha Hup Hst) as Hload.
  set (w0 := after w (store_read cfg) (w_net w)) in *.
  destruct (add_loop_returns (it X) (AddState repos0 [] [] []) w0) as (fs & wl & Hloop).
  exists fs, wl. split; [exact Hloop |].
  destruct (fake_loop (it X) (AddState repos0 [] [] []) fs w0 wl)
    as (Hnet & x & Hr & Ha & Hx & Hl);
    [intros c Hc%elem_of_iter; now apply (extract_canonical text) | exact Hloop |].
  cbn [a_repos a_added app] in Hr, Ha, Hx. subst x.
  assert (Hnet' : w_net wl = w_net w) by exact Hnet.
  split; [exact Hr |]. split; [| split].
  - intros c. rewrite Hr at 1. rewrite elem_of_app. split.
    + intros [Hc | Hc]; [now left | right].
      destruct (Hx c Hc) as (Hc1 & _ & Hc3). split; [now apply elem_of_iter in Hc1 | exact Hc3].
    + intros [Hc | [Hc Hfound]]; [now left |].
      destruct (Hl c) as [Hc' | Hc']; [now apply elem_of_iter | | congruence].
      rewrite Hr in Hc'. now apply elem_of_app in Hc'.
  - intros c Hc. destruct (Hx c Hc) as (Hc1 & Hc2 & Hc3).
    split; [now apply elem_of_iter in Hc1 | now split].
  - rewrite (process_after_loop cfg it text w w0 wl repos0 sha fs HX Hle Hload Hloop).
    destruct (a_added fs) as [|c added].
    + change ((mret tt ≫= fun _ => reply_text (add_message fs)) wl)
        with (reply_text (add_message fs) wl).
      unfold reply_text. now rewrite Hnet'.
    + assert (Hsave := fake_write cfg mint provider wl (a_repos fs) sha).
      rewrite Hnet' in Hsave.
      specialize (Hsave Hup (stored_current _ _ _ Hst)).
      erewrite bind_returns; cycle 1.
      { erewrite bind_returns by exact Hsave. reflexivity. }
      unfold reply_text, after. cbn [w_net w_trace]. now rewrite <- app_assoc.
Qed.

End FakeLoopFacts.

(** X15. Sending a message twice, on the store of the specification, the
    store up and holding a registry. The first run returns and leaves in the
    store the registry with, in addition, exactly the candidates of the
    text that the hosting provider has. The second run of the same text,
    in whatever order it takes the candidates, adds nothing: it returns
    after the read, its lookups and its reply, sends no write, and the
    store is as the first run left it. *)
Theorem add_twice_adds_once (cfg : config) (mint : N -> string -> string)
    (provider : string -> Http.answer) (it1 it2 : set_iter) (text : string)
    (w : world (Fake.network cfg mint provider)) (repos0 : list string) (sha : Json.value) :
  Fake.outage (w_net w) = None ->
  stored (w_net w) repos0 sha ->
  extract_repos_from_text text <> ∅ ->
  (size (extract_repos_from_text text) <= 20)%nat ->
  exists w1 repos1 sha1 w2 lookups msg,
    process_repo_addition cfg it1 text w = (Returns tt, w1)
    /\ stored (w_net w1) repos1 sha1
    /\ (forall c, c ∈ repos1
                  <-> c ∈ repos0
                      \/ (c ∈ extract_repos_from_text text /\ found_at provider c = true))
    /\ process_repo_addition cfg it2 text w1 = (Returns tt, w2)
    /\ w_net w2 = w_net w1
    /\ w_trace w2
       = w_trace w1 ++ Sent (store_read cfg)
                       :: map (fun c => Sent (lookup_request c)) lookups ++ [Replied msg].
Proof.
  intros Hup Hst HX Hle.
  destruct (fake_run cfg mint provider it1 text w repos0 sha Hup Hst HX Hle)
    as (fs1 & wl1 & _ & Hr1 & Hin1 & _ & Hrun1).
  assert (Hfirst : exists w1 sha1,
             process_repo_addition cfg it1 text w = (Returns tt, w1)
             /\ Fake.outage (w_net w1) = None
             /\ stored (w_net w1) (a_repos fs1) sha1).
  { destruct (a_added fs1) as [|c added].
    - rewrite app_nil_r in Hr1. rewrite Hr1. eexists _, sha.
      split; [exact Hrun1 |]. now split.
    - eexists _, _. split; [exact Hrun1 |]. split; [exact Hup |]. apply stored_written. }
  destruct Hfirst as (w1 & sha1 & Hproc1 & Hup1 & Hst1).
  destruct (fake_run cfg mint provider it2 text w1 (a_repos fs1) sha1 Hup1 Hst1 HX Hle)
    as (fs2 & wl2 & Hloop2 & _ & _ & Hadded2 & Hrun2).
  assert (Hnone : a_added fs2 = []).
  { destruct (a_added fs2) as [|c added]; [reflexivity |]. exfalso.
    destruct (Hadded2 c) as (HcX & Hout & Hfound); [now left |].
    apply Hout, Hin1. right. now split. }
  rewrite Hnone in Hrun2.
  pose proof (add_loop_trace _ _ _ _ _ (NoDup_iter it2 _) Hloop2) as Htr.
  exists w1, (a_repos fs1), sha1. eexists _, _, (add_message fs2).
  split; [exact Hproc1 |]. split; [exact Hst1 |]. split; [exact Hin1 |].
  split; [exact Hrun2 |]. split; [reflexivity |].
  cbn [w_trace]. rewrite Htr. unfold after. cbn [w_trace].
  rewrite <- !app_assoc. reflexivity.
Qed.

(** A tracked, a known and an unknown repository, offered twice to the
    registry of a/b. *)
Lemma add_twice_adds_once_witness :
  exists w1 repos1 sha1 w2 lookups msg,
    process_repo_addition Fake.cfg0 iter_elements "a/b octocat/Hello-World x/y"
      (Fake.start (Fake.state_of ["a/b"] "t1")) = (Returns tt, w1)
    /\ stored (w_net w1) repos1 sha1
    /\ (forall c, c ∈ repos1
                  <-> c ∈ ["a/b"]
                      \/ (c ∈ extract_repos_from_text "a/b octocat/Hello-World x/y"
                          /\ found_at Fake.provider0 c = true))
    /\ process_repo_addition Fake.cfg0 iter_elements "a/b octocat/Hello-World x/y" w1
       = (Returns tt, w2)
    /\ w_net w2 = w_net w1
    /\ w_trace w2
       = w_trace w1 ++ Sent (store_read Fake.cfg0)
                       :: map (fun c => Sent (lookup_request c)) lookups ++ [Replied msg].
Proof.
  apply (add_twice_adds_once Fake.cfg0 Fake.mint0 Fake.provider0 iter_elements iter_elements
           "a/b octocat/Hello-World x/y" (Fake.start (Fake.state_of ["a/b"] "t1"))
           ["a/b"] (Json.Str "t1")).
  - reflexivity.
  - split; [vm_compute; reflexivity | reflexivity].
  - intros E. apply (f_equal size) in E. vm_compute in E. discriminate.
  - apply Nat.leb_le. vm_compute. reflexivity.
Defined.
